(** * The deals list view: filter, sort, paginate, select, resize, edit

    A shallow embedding of [src/components/ListView.tsx].  The React
    component keeps its state in hooks; here every hook is a field of one
    record, every handler is a function on that record, and the values the
    component derives on each render ([filteredAndSortedDeals],
    [totalPages], [paginatedDeals]) are functions of it.

    Numbers are modelled as integers ([Z]); strings as [string] with the
    ASCII letters folded by [toLowerCase]; a [Set<string>] as a [gset];
    the [Record<string, number>] of column widths as a [gmap].

    Two smaller parts follow the list view: the keys of the calculator
    page that type a number, and the task notification function, whose
    handler is a function of the request and of what the outside answers. *)

From Stdlib Require Import ZArith List Ascii String.
From Stdlib Require QArith Qround.
From Stdlib Require Import Sorted.
From stdpp Require Import gmap strings list fin_maps pretty.

Local Open Scope string_scope.
Local Open Scope Z_scope.

(** ** Built-ins of the host language *)

Module Js.

(** [Boolean(s)] on a string: only the empty string is falsy. *)
Definition truthy_str (s : string) : bool :=
  match s with EmptyString => false | String _ _ => true end.

(** [s.toLowerCase()], on the ASCII range: the letters A to Z are folded
    and every other character is kept.  The engine folds the letters
    outside ASCII as well; what is proved below of a text that may hold
    such letters does not depend on how they fold. *)
Definition lower_ascii (c : ascii) : ascii :=
  let n := nat_of_ascii c in
  if (Nat.leb 65 n && Nat.leb n 90)%bool then ascii_of_nat (n + 32) else c.

Fixpoint toLowerCase (s : string) : string :=
  match s with
  | EmptyString => EmptyString
  | String c r => String (lower_ascii c) (toLowerCase r)
  end.

(** [s.includes(t)]: [t] occurs in [s] as a contiguous substring. *)
Fixpoint str_includes (s t : string) : bool :=
  (String.prefix t s ||
   match s with
   | EmptyString => false
   | String _ r => str_includes r t
   end)%bool.

(** [arr.includes(x)] on an array of strings. *)
Fixpoint arr_includes (arr : list string) (x : string) : bool :=
  match arr with
  | [] => false
  | y :: r => (String.eqb y x || arr_includes r x)%bool
  end.

(** [arr.join(sep)]. *)
Definition join (sep : string) (arr : list string) : string :=
  String.concat sep arr.

(** [String(n)] for a number. *)
Definition String_of_num (n : Z) : string := pretty n.

(** [Math.ceil(n / p)] for integers [n] and [p]: the quotient is taken in
    the rationals and rounded up. *)
Definition ceil_div (n p : Z) : Z :=
  Qround.Qceiling (QArith_base.Qdiv (QArith_base.inject_Z n) (QArith_base.inject_Z p)).

(** [arr.slice(start, end)]: negative indices count from the end, and
    both are clamped into [0, length]. *)
Definition rel_index (len i : Z) : Z :=
  if i <? 0 then Z.max (len + i) 0 else Z.min i len.

Definition slice {A} (arr : list A) (start stop : Z) : list A :=
  let len := Z.of_nat (length arr) in
  let k := rel_index len start in
  let final := rel_index len stop in
  firstn (Z.to_nat (final - k)) (skipn (Z.to_nat k) arr).

(** [arr.sort(cmp)].  ECMAScript requires the sort to be stable and, for
    a consistent comparator, to return the sorted permutation; which
    algorithm runs is the engine's business, and so is the result when
    the comparator is not consistent.  The model is the stable insertion
    sort: an element moves in front of another only when the comparator
    puts it strictly before.  It is the engine's result whenever the
    comparator is consistent on the array; for another comparator it
    gives the elements and their number, not their order (see [sort_v8]). *)
Section Sort.
Context {A : Type} (cmp : A → A → Z).

Fixpoint insert_sorted (x : A) (l : list A) : list A :=
  match l with
  | [] => [x]
  | y :: r => if cmp x y <=? 0 then x :: y :: r else y :: insert_sorted x r
  end.

Fixpoint sort (l : list A) : list A :=
  match l with
  | [] => []
  | x :: r => insert_sorted x (sort r)
  end.
End Sort.

(** [arr.sort(cmp)] as V8 (Chrome, Node, Deno) runs it on an array of
    fewer than 64 elements.  The run that starts the array is counted:
    it descends when the comparator puts the second element strictly
    before the first, and is then reversed; it ends at the first element
    that breaks its direction.  Every later element is then put into the
    sorted prefix at the place a binary search finds: the search goes left
    only when the comparator puts the element strictly before the middle
    one.  On a consistent comparator the result is that of [sort]. *)
Section SortV8.
Context {A : Type} (cmp : A → A → Z).

(** The number of elements of [l] that continue the run ending in [prev]. *)
Fixpoint run_rest (descending : bool) (prev : A) (l : list A) : nat :=
  match l with
  | [] => O
  | x :: r =>
      let order := cmp x prev in
      if (if descending then 0 <=? order else order <? 0) then O
      else S (run_rest descending x r)
  end.

(** [CountAndMakeRun]: the initial run, in ascending order, and the rest. *)
Definition countAndMakeRun (l : list A) : list A * list A :=
  match l with
  | elementHigh :: elementLow :: r =>
      let isDescending := cmp elementLow elementHigh <? 0 in
      let runLength := (2 + run_rest isDescending elementLow r)%nat in
      let run := firstn runLength l in
      (if isDescending then rev run else run, skipn runLength l)
  | _ => (l, [])
  end.

(** The binary search of [BinaryInsertionSort]: the place of [pivot] in
    [sorted] between [left] and [right]; the interval shrinks at every
    step, so a fuel of its length plus one is never used up. *)
Fixpoint binarySearch (fuel : nat) (pivot : A) (sorted : list A) (left right : nat) : nat :=
  match fuel with
  | O => left
  | S fuel' =>
      if (left <? right)%nat then
        let mid := (left + Nat.div (right - left) 2)%nat in
        if cmp pivot (nth mid sorted pivot) <? 0
        then binarySearch fuel' pivot sorted left mid
        else binarySearch fuel' pivot sorted (S mid) right
      else left
  end.

Definition binaryInsert (sorted : list A) (pivot : A) : list A :=
  let left := binarySearch (S (length sorted)) pivot sorted O (length sorted) in
  (firstn left sorted ++ pivot :: skipn left sorted)%list.

Definition sort_v8 (l : list A) : list A :=
  let '(run, rest) := countAndMakeRun l in
  fold_left binaryInsert rest run.
End SortV8.

End Js.

(** ** Records *)

(** A date column holds a string or nothing.  The comparator reads the
    string only through [new Date(s)], so the model keeps, for a string,
    the time value the engine gives it: [ValidDate t], or [InvalidDate]
    when the string does not parse (time value NaN; the empty string is
    one such). *)
Inductive DateString : Type :=
| ValidDate (t : Z)
| InvalidDate.

(** The [Deal] type is imported from [@/types/deal]; these are the fields
    the list view reads.  [None] is a field that is [undefined]. *)
Record Deal : Type := mkDeal {
  id : string;
  deal_name : option string;
  project_name : option string;
  lead_name : option string;
  customer_name : option string;
  region : option string;
  lead_owner : option string;
  stage : string;
  handoff_status : option string;
  priority : option Z;
  probability : option Z;
  project_duration : option Z;
  total_contract_value : option Z;
  total_revenue : option Z;
  expected_closing_date : option DateString;
  start_date : option DateString;
  end_date : option DateString;
  created_at : option DateString;
  modified_at : option DateString;
  proposal_due_date : option DateString
}.

(** [AdvancedFilterState], as the component initialises and reads it. *)
Record AdvancedFilterState : Type := mkFilters {
  stages : list string;
  regions : list string;
  leadOwners : list string;
  priorities : list string;
  probabilities : list string;
  handoffStatuses : list string;
  filterSearchTerm : string;
  probabilityRange : Z * Z
}.

Inductive SortOrder : Type := asc | desc.

(** A notice shown to the user by [toast({...})]. *)
Record Toast : Type := mkToast {
  title : string;
  description : string;
  variant : option string
}.

(** The value an inline cell editor submits ([value: any]). *)
Inductive EditValue : Type :=
| EText (s : string)
| ENumber (n : Z)
| ENull.

(** Calls made to the callbacks the parent passes in. *)
Inductive Call : Type :=
| OnDeleteDeals (dealIds : list string)
| OnUpdateDeal (dealId : string) (field : string) (value : EditValue).

(** What [await onUpdateDeal(...)] does: it returns, or it throws. *)
Inductive UpdateOutcome : Type := Resolved | Rejected.

(** The [localStorage] entry ['deals-column-widths'], by what the load
    effect can do with it: [getItem] gives [null] (or the empty string,
    which is falsy too), or a text on which [JSON.parse] throws, or a text
    that parses to an object of numbers, which is what [handleMouseUp]
    writes. *)
Inductive Stored : Type :=
| NoItem
| Malformed (raw : string)
| ParsedWidths (parsed : gmap string Z).

(** ** The state of the component: one field per hook, plus the traces of
    its effects on the outside (notices, console, callbacks, storage). *)
Record ViewState : Type := mkView {
  deals : list Deal;
  searchTerm : string;
  leadOwnerFilter : string;
  filters : AdvancedFilterState;
  sortBy : string;
  sortOrder : SortOrder;
  selectedDeals : gset string;
  currentPage : Z;
  columnWidths : gmap string Z;
  isResizing : option string;
  startX : Z;
  startWidth : Z;
  storedWidths : Stored;
  toasts : list Toast;
  consoleErrors : list string;
  calls : list Call
}.

Definition setDeals (v : list Deal) (s : ViewState) : ViewState :=
  {| deals := v; searchTerm := searchTerm s;
     leadOwnerFilter := leadOwnerFilter s; filters := filters s;
     sortBy := sortBy s; sortOrder := sortOrder s;
     selectedDeals := selectedDeals s; currentPage := currentPage s;
     columnWidths := columnWidths s; isResizing := isResizing s;
     startX := startX s; startWidth := startWidth s;
     storedWidths := storedWidths s; toasts := toasts s;
     consoleErrors := consoleErrors s; calls := calls s |}.

Definition setSearchTerm (v : string) (s : ViewState) : ViewState :=
  {| deals := deals s; searchTerm := v; leadOwnerFilter := leadOwnerFilter s;
     filters := filters s; sortBy := sortBy s; sortOrder := sortOrder s;
     selectedDeals := selectedDeals s; currentPage := currentPage s;
     columnWidths := columnWidths s; isResizing := isResizing s;
     startX := startX s; startWidth := startWidth s;
     storedWidths := storedWidths s; toasts := toasts s;
     consoleErrors := consoleErrors s; calls := calls s |}.

Definition setLeadOwnerFilter (v : string) (s : ViewState) : ViewState :=
  {| deals := deals s; searchTerm := searchTerm s; leadOwnerFilter := v;
     filters := filters s; sortBy := sortBy s; sortOrder := sortOrder s;
     selectedDeals := selectedDeals s; currentPage := currentPage s;
     columnWidths := columnWidths s; isResizing := isResizing s;
     startX := startX s; startWidth := startWidth s;
     storedWidths := storedWidths s; toasts := toasts s;
     consoleErrors := consoleErrors s; calls := calls s |}.

Definition setFilters (v : AdvancedFilterState) (s : ViewState) : ViewState :=
  {| deals := deals s; searchTerm := searchTerm s;
     leadOwnerFilter := leadOwnerFilter s; filters := v; sortBy := sortBy s;
     sortOrder := sortOrder s; selectedDeals := selectedDeals s;
     currentPage := currentPage s; columnWidths := columnWidths s;
     isResizing := isResizing s; startX := startX s;
     startWidth := startWidth s; storedWidths := storedWidths s;
     toasts := toasts s; consoleErrors := consoleErrors s;
     calls := calls s |}.

Definition setSortBy (v : string) (s : ViewState) : ViewState :=
  {| deals := deals s; searchTerm := searchTerm s;
     leadOwnerFilter := leadOwnerFilter s; filters := filters s; sortBy := v;
     sortOrder := sortOrder s; selectedDeals := selectedDeals s;
     currentPage := currentPage s; columnWidths := columnWidths s;
     isResizing := isResizing s; startX := startX s;
     startWidth := startWidth s; storedWidths := storedWidths s;
     toasts := toasts s; consoleErrors := consoleErrors s;
     calls := calls s |}.

Definition setSortOrder (v : SortOrder) (s : ViewState) : ViewState :=
  {| deals := deals s; searchTerm := searchTerm s;
     leadOwnerFilter := leadOwnerFilter s; filters := filters s;
     sortBy := sortBy s; sortOrder := v; selectedDeals := selectedDeals s;
     currentPage := currentPage s; columnWidths := columnWidths s;
     isResizing := isResizing s; startX := startX s;
     startWidth := startWidth s; storedWidths := storedWidths s;
     toasts := toasts s; consoleErrors := consoleErrors s;
     calls := calls s |}.

Definition setSelectedDeals (v : gset string) (s : ViewState) : ViewState :=
  {| deals := deals s; searchTerm := searchTerm s;
     leadOwnerFilter := leadOwnerFilter s; filters := filters s;
     sortBy := sortBy s; sortOrder := sortOrder s; selectedDeals := v;
     currentPage := currentPage s; columnWidths := columnWidths s;
     isResizing := isResizing s; startX := startX s;
     startWidth := startWidth s; storedWidths := storedWidths s;
     toasts := toasts s; consoleErrors := consoleErrors s;
     calls := calls s |}.

Definition setCurrentPage (v : Z) (s : ViewState) : ViewState :=
  {| deals := deals s; searchTerm := searchTerm s;
     leadOwnerFilter := leadOwnerFilter s; filters := filters s;
     sortBy := sortBy s; sortOrder := sortOrder s;
     selectedDeals := selectedDeals s; currentPage := v;
     columnWidths := columnWidths s; isResizing := isResizing s;
     startX := startX s; startWidth := startWidth s;
     storedWidths := storedWidths s; toasts := toasts s;
     consoleErrors := consoleErrors s; calls := calls s |}.

Definition setColumnWidths (v : gmap string Z) (s : ViewState) : ViewState :=
  {| deals := deals s; searchTerm := searchTerm s;
     leadOwnerFilter := leadOwnerFilter s; filters := filters s;
     sortBy := sortBy s; sortOrder := sortOrder s;
     selectedDeals := selectedDeals s; currentPage := currentPage s;
     columnWidths := v; isResizing := isResizing s; startX := startX s;
     startWidth := startWidth s; storedWidths := storedWidths s;
     toasts := toasts s; consoleErrors := consoleErrors s;
     calls := calls s |}.

Definition setIsResizing (v : option string) (s : ViewState) : ViewState :=
  {| deals := deals s; searchTerm := searchTerm s;
     leadOwnerFilter := leadOwnerFilter s; filters := filters s;
     sortBy := sortBy s; sortOrder := sortOrder s;
     selectedDeals := selectedDeals s; currentPage := currentPage s;
     columnWidths := columnWidths s; isResizing := v; startX := startX s;
     startWidth := startWidth s; storedWidths := storedWidths s;
     toasts := toasts s; consoleErrors := consoleErrors s;
     calls := calls s |}.

Definition setStartX (v : Z) (s : ViewState) : ViewState :=
  {| deals := deals s; searchTerm := searchTerm s;
     leadOwnerFilter := leadOwnerFilter s; filters := filters s;
     sortBy := sortBy s; sortOrder := sortOrder s;
     selectedDeals := selectedDeals s; currentPage := currentPage s;
     columnWidths := columnWidths s; isResizing := isResizing s; startX := v;
     startWidth := startWidth s; storedWidths := storedWidths s;
     toasts := toasts s; consoleErrors := consoleErrors s;
     calls := calls s |}.

Definition setStartWidth (v : Z) (s : ViewState) : ViewState :=
  {| deals := deals s; searchTerm := searchTerm s;
     leadOwnerFilter := leadOwnerFilter s; filters := filters s;
     sortBy := sortBy s; sortOrder := sortOrder s;
     selectedDeals := selectedDeals s; currentPage := currentPage s;
     columnWidths := columnWidths s; isResizing := isResizing s;
     startX := startX s; startWidth := v; storedWidths := storedWidths s;
     toasts := toasts s; consoleErrors := consoleErrors s;
     calls := calls s |}.

Definition setStoredWidths (v : Stored) (s : ViewState) : ViewState :=
  {| deals := deals s; searchTerm := searchTerm s;
     leadOwnerFilter := leadOwnerFilter s; filters := filters s;
     sortBy := sortBy s; sortOrder := sortOrder s;
     selectedDeals := selectedDeals s; currentPage := currentPage s;
     columnWidths := columnWidths s; isResizing := isResizing s;
     startX := startX s; startWidth := startWidth s; storedWidths := v;
     toasts := toasts s; consoleErrors := consoleErrors s;
     calls := calls s |}.

Definition setToasts (v : list Toast) (s : ViewState) : ViewState :=
  {| deals := deals s; searchTerm := searchTerm s;
     leadOwnerFilter := leadOwnerFilter s; filters := filters s;
     sortBy := sortBy s; sortOrder := sortOrder s;
     selectedDeals := selectedDeals s; currentPage := currentPage s;
     columnWidths := columnWidths s; isResizing := isResizing s;
     startX := startX s; startWidth := startWidth s;
     storedWidths := storedWidths s; toasts := v;
     consoleErrors := consoleErrors s; calls := calls s |}.

Definition setConsoleErrors (v : list string) (s : ViewState) : ViewState :=
  {| deals := deals s; searchTerm := searchTerm s;
     leadOwnerFilter := leadOwnerFilter s; filters := filters s;
     sortBy := sortBy s; sortOrder := sortOrder s;
     selectedDeals := selectedDeals s; currentPage := currentPage s;
     columnWidths := columnWidths s; isResizing := isResizing s;
     startX := startX s; startWidth := startWidth s;
     storedWidths := storedWidths s; toasts := toasts s; consoleErrors := v;
     calls := calls s |}.

Definition setCalls (v : list Call) (s : ViewState) : ViewState :=
  {| deals := deals s; searchTerm := searchTerm s;
     leadOwnerFilter := leadOwnerFilter s; filters := filters s;
     sortBy := sortBy s; sortOrder := sortOrder s;
     selectedDeals := selectedDeals s; currentPage := currentPage s;
     columnWidths := columnWidths s; isResizing := isResizing s;
     startX := startX s; startWidth := startWidth s;
     storedWidths := storedWidths s; toasts := toasts s;
     consoleErrors := consoleErrors s; calls := v |}.


(** The page size: [useState(25)], never set. *)
Definition itemsPerPage : Z := 25.

(** The initial value of [columnWidths]. *)
Definition defaultColumnWidths : gmap string Z :=
  list_to_map
    [("project_name", 200); ("customer_name", 150); ("lead_name", 150);
     ("lead_owner", 140); ("stage", 120); ("priority", 100);
     ("total_contract_value", 120); ("probability", 120);
     ("expected_closing_date", 140); ("region", 120);
     ("project_duration", 120); ("start_date", 120); ("end_date", 120);
     ("proposal_due_date", 140); ("total_revenue", 120)].

Definition clearedFilters : AdvancedFilterState :=
  {| stages := []; regions := []; leadOwners := []; priorities := [];
     probabilities := []; handoffStatuses := []; filterSearchTerm := "";
     probabilityRange := (0, 100) |}.

(** The state at mount, for [initialStageFilter = 'all']. *)
Definition initialView (ds : list Deal) (saved : Stored) : ViewState :=
  {| deals := ds; searchTerm := ""; leadOwnerFilter := "all";
     filters := clearedFilters; sortBy := "modified_at"; sortOrder := desc;
     selectedDeals := ∅; currentPage := 1;
     columnWidths := defaultColumnWidths; isResizing := None;
     startX := 0; startWidth := 0; storedWidths := saved;
     toasts := []; consoleErrors := []; calls := [] |}.

(** ** FilterEngine: the predicate of [deals.filter(...)] *)

(** [x || ''] on an optional string. *)
Definition or_empty (x : option string) : string :=
  match x with Some v => v | None => "" end.

(** [x || 0] on an optional number. *)
Definition or_zero (x : option Z) : Z :=
  match x with Some v => v | None => 0 end.

(** [String(x || '')] on an optional number: zero is falsy, like a
    missing value. *)
Definition num_or_empty (x : option Z) : string :=
  match x with
  | Some v => if v =? 0 then "" else Js.String_of_num v
  | None => ""
  end.

(** [x?.toLowerCase().includes(t)]: a missing field gives [undefined],
    which the disjunction reads as false. *)
Definition field_includes (x : option string) (t : string) : bool :=
  match x with
  | Some v => Js.str_includes (Js.toLowerCase v) t
  | None => false
  end.

Definition allSearchTerms (s : ViewState) : string :=
  Js.toLowerCase
    (Js.join " " (List.filter Js.truthy_str [searchTerm s; filterSearchTerm (filters s)])).

Definition matchesSearch (s : ViewState) (deal : Deal) : bool :=
  let t := allSearchTerms s in
  negb (Js.truthy_str t)
  || field_includes (deal_name deal) t
  || field_includes (project_name deal) t
  || field_includes (lead_name deal) t
  || field_includes (customer_name deal) t
  || field_includes (region deal) t.

Definition matchesLeadOwnerDropdown (s : ViewState) (deal : Deal) : bool :=
  String.eqb (leadOwnerFilter s) "all"
  || match lead_owner deal with
     | Some o => String.eqb o (leadOwnerFilter s)
     | None => false
     end.

(** The six multi-select dimensions. *)
Inductive Dimension : Type :=
| DimStage | DimRegion | DimLeadOwner | DimPriority | DimProbability | DimHandoff.

(** The allowed-set of a dimension in the filter state. *)
Definition allowed (dim : Dimension) (f : AdvancedFilterState) : list string :=
  match dim with
  | DimStage => stages f
  | DimRegion => regions f
  | DimLeadOwner => leadOwners f
  | DimPriority => priorities f
  | DimProbability => probabilities f
  | DimHandoff => handoffStatuses f
  end.

(** The value a record shows to a dimension. *)
Definition dimValue (dim : Dimension) (deal : Deal) : string :=
  match dim with
  | DimStage => stage deal
  | DimRegion => or_empty (region deal)
  | DimLeadOwner => or_empty (lead_owner deal)
  | DimPriority => num_or_empty (priority deal)
  | DimProbability => num_or_empty (probability deal)
  | DimHandoff => or_empty (handoff_status deal)
  end.

(** [filters.xs.length === 0 || filters.xs.includes(value)]. *)
Definition matchesDimension (dim : Dimension) (f : AdvancedFilterState) (deal : Deal) : bool :=
  (Nat.eqb (length (allowed dim f)) 0) || Js.arr_includes (allowed dim f) (dimValue dim deal).

Definition matchesProbabilityRange (f : AdvancedFilterState) (deal : Deal) : bool :=
  let dealProbability := or_zero (probability deal) in
  (fst (probabilityRange f) <=? dealProbability) && (dealProbability <=? snd (probabilityRange f)).

Definition dealPasses (s : ViewState) (deal : Deal) : bool :=
  matchesSearch s deal
  && matchesLeadOwnerDropdown s deal
  && matchesDimension DimStage (filters s) deal
  && matchesDimension DimRegion (filters s) deal
  && matchesDimension DimLeadOwner (filters s) deal
  && matchesDimension DimPriority (filters s) deal
  && matchesDimension DimProbability (filters s) deal
  && matchesDimension DimHandoff (filters s) deal
  && matchesProbabilityRange (filters s) deal.

Definition filteredDeals (s : ViewState) : list Deal :=
  List.filter (dealPasses s) (deals s).

(** ** SortEngine: the comparator of [.sort(...)] *)

(** The value compared for a record: a number, the time value of a [Date]
    ([None] is NaN), or a lower-cased string. *)
Inductive SortValue : Type :=
| SNum (n : Z)
| SDate (t : option Z)
| SStr (v : string).

(** [a[sortBy]] on the numeric, date and text fields of a record. *)
Definition numField (key : string) (d : Deal) : option Z :=
  if String.eqb key "priority" then priority d
  else if String.eqb key "probability" then probability d
  else if String.eqb key "project_duration" then project_duration d
  else if String.eqb key "total_contract_value" then total_contract_value d
  else if String.eqb key "total_revenue" then total_revenue d
  else None.

Definition dateField (key : string) (d : Deal) : option DateString :=
  if String.eqb key "expected_closing_date" then expected_closing_date d
  else if String.eqb key "start_date" then start_date d
  else if String.eqb key "end_date" then end_date d
  else if String.eqb key "created_at" then created_at d
  else if String.eqb key "modified_at" then modified_at d
  else if String.eqb key "proposal_due_date" then proposal_due_date d
  else None.

Definition textField (key : string) (d : Deal) : option string :=
  if String.eqb key "id" then Some (id d)
  else if String.eqb key "deal_name" then deal_name d
  else if String.eqb key "project_name" then project_name d
  else if String.eqb key "lead_name" then lead_name d
  else if String.eqb key "customer_name" then customer_name d
  else if String.eqb key "region" then region d
  else if String.eqb key "lead_owner" then lead_owner d
  else if String.eqb key "stage" then Some (stage d)
  else if String.eqb key "handoff_status" then handoff_status d
  else None.

(** [new Date(typeof v === 'string' ? v : 0)], as its time value. *)
Definition newDate (v : option DateString) : option Z :=
  match v with
  | Some (ValidDate t) => Some t
  | Some InvalidDate => None
  | None => Some 0
  end.

Definition numericKeys : list string := ["priority"; "probability"; "project_duration"].
Definition currencyKeys : list string := ["total_contract_value"; "total_revenue"].
Definition dateKeys : list string :=
  ["expected_closing_date"; "start_date"; "end_date"; "created_at"; "modified_at";
   "proposal_due_date"].

(** [aValue] (and [bValue]) of the comparator. *)
Definition sortValue (key : string) (d : Deal) : SortValue :=
  if Js.arr_includes numericKeys key then SNum (or_zero (numField key d))
  else if Js.arr_includes currencyKeys key then SNum (or_zero (numField key d))
  else if Js.arr_includes dateKeys key then SDate (newDate (dateField key d))
  else SStr (Js.toLowerCase (or_empty (textField key d))).

(** [x < y]: numbers by value, dates by time value (false as soon as one
    is NaN), strings by code unit. *)
Definition js_lt (x y : SortValue) : bool :=
  match x, y with
  | SNum a, SNum b => a <? b
  | SDate (Some a), SDate (Some b) => a <? b
  | SStr a, SStr b => String.ltb a b
  | _, _ => false
  end.

Definition js_gt (x y : SortValue) : bool := js_lt y x.

Definition compareDeals (key : string) (order : SortOrder) (a b : Deal) : Z :=
  let aValue := sortValue key a in
  let bValue := sortValue key b in
  match order with
  | asc => if js_lt aValue bValue then -1 else if js_gt aValue bValue then 1 else 0
  | desc => if js_gt aValue bValue then -1 else if js_lt aValue bValue then 1 else 0
  end.

Definition filteredAndSortedDeals (s : ViewState) : list Deal :=
  Js.sort (compareDeals (sortBy s) (sortOrder s)) (filteredDeals s).

(** ** Paginator *)

Definition pageCount (n p : Z) : Z := Js.ceil_div n p.

Definition totalPages (s : ViewState) : Z :=
  pageCount (Z.of_nat (length (filteredAndSortedDeals s))) itemsPerPage.

Definition pageSlice {A} (l : list A) (p page : Z) : list A :=
  let startIndex := (page - 1) * p in
  Js.slice l startIndex (startIndex + p).

Definition paginatedDeals (s : ViewState) : list Deal :=
  pageSlice (filteredAndSortedDeals s) itemsPerPage (currentPage s).

(** ** SelectionSet and bulk actions *)

Definition handleSelectAll (checked : bool) (s : ViewState) : ViewState :=
  if checked
  then setSelectedDeals (list_to_set (map id (filteredAndSortedDeals s))) s
  else setSelectedDeals ∅ s.

Definition handleSelectDeal (dealId : string) (checked : bool) (s : ViewState) : ViewState :=
  if checked
  then setSelectedDeals ({[dealId]} ∪ selectedDeals s) s
  else setSelectedDeals (selectedDeals s ∖ {[dealId]}) s.

(** [Array.from(selectedDeals)] is [elements]: the same identifiers, the
    order left open. *)
Definition handleBulkDelete (s : ViewState) : ViewState :=
  if Nat.eqb (size (selectedDeals s)) 0 then s
  else
    let n := Z.of_nat (size (selectedDeals s)) in
    setToasts
      (toasts s ++
       [{| title := "Deals deleted";
           description := "Successfully deleted " ++ Js.String_of_num n ++ " deals";
           variant := None |}])
      (setSelectedDeals ∅
         (setCalls (calls s ++ [OnDeleteDeals (elements (selectedDeals s))]) s)).

(** The identifiers of the rows rendered on the current page. *)
Definition visibleIds (s : ViewState) : list string := map id (paginatedDeals s).

(** ** InlineEditDispatcher *)

Definition updatedToast : Toast :=
  {| title := "Deal updated"; description := "Field updated successfully"; variant := None |}.

Definition updateFailedToast : Toast :=
  {| title := "Update failed"; description := "Failed to update deal field";
     variant := Some "destructive" |}.

(** [handleInlineEdit]: one call to [onUpdateDeal], awaited inside
    [try]; the parent's callback is the argument [onUpdateDeal]. *)
Definition handleInlineEdit
    (onUpdateDeal : string → string → EditValue → UpdateOutcome)
    (dealId field : string) (value : EditValue) (s : ViewState) : ViewState :=
  let s1 := setCalls (calls s ++ [OnUpdateDeal dealId field value]) s in
  match onUpdateDeal dealId field value with
  | Resolved => setToasts (toasts s1 ++ [updatedToast]) s1
  | Rejected => setToasts (toasts s1 ++ [updateFailedToast]) s1
  end.

(** A notice names a field when the field's name occurs in its title or
    in its description. *)
Definition toastNames (t : Toast) (field : string) : bool :=
  Js.str_includes (title t) field || Js.str_includes (description t) field.

(** ** ColumnConfigStore: widths, resize gesture, persistence *)

(** [columnWidths[field] || 120]. *)
Definition widthOf (s : ViewState) (field : string) : Z :=
  match columnWidths s !! field with
  | Some w => if w =? 0 then 120 else w
  | None => 120
  end.

(** [isResizing] is truthy: a field is set and it is not the empty string. *)
Definition resizingField (s : ViewState) : option string :=
  match isResizing s with
  | Some f => if Js.truthy_str f then Some f else None
  | None => None
  end.

Definition handleMouseDown (clientX : Z) (field : string) (s : ViewState) : ViewState :=
  setStartWidth (widthOf s field) (setStartX clientX (setIsResizing (Some field) s)).

Definition handleMouseMove (clientX : Z) (s : ViewState) : ViewState :=
  match resizingField s with
  | None => s
  | Some f =>
      let deltaX := clientX - startX s in
      let newWidth := Z.max 80 (startWidth s + deltaX) in
      setColumnWidths (<[f := newWidth]> (columnWidths s)) s
  end.

Definition handleMouseUp (s : ViewState) : ViewState :=
  match resizingField s with
  | None => s
  | Some _ => setIsResizing None (setStoredWidths (ParsedWidths (columnWidths s)) s)
  end.

(** The mount effect that loads the saved widths. *)
Definition loadColumnWidths (s : ViewState) : ViewState :=
  match storedWidths s with
  | NoItem => s
  | Malformed _ =>
      setConsoleErrors (consoleErrors s ++ ["Failed to parse saved column widths:"]) s
  | ParsedWidths parsed => setColumnWidths parsed s
  end.

(** Loading as a merge over the defaults: the saved entry wins where there
    is one, the default stays elsewhere, fields without a default are
    dropped.  This is the specification's reading, kept here to be
    compared with [loadColumnWidths]. *)
Definition mergeOverDefaults (saved : gmap string Z) : gmap string Z :=
  map_imap (fun k d => Some (default d (saved !! k))) defaultColumnWidths.

(** ** Events and the transition function *)

Inductive Event : Type :=
| SetSearchTerm (v : string)
| SetLeadOwnerFilter (v : string)
| SetFilters (f : AdvancedFilterState)
| ClearAllFilters
| ClickHeader (field : string)
| ClickPrevious
| ClickNext
| NewDeals (ds : list Deal)
| SelectAll (checked : bool)
| SelectDeal (dealId : string) (checked : bool)
| BulkDelete
| ClearSelection
| MouseDown (clientX : Z) (field : string)
| MouseMove (clientX : Z)
| MouseUp.

(** The header's [onClick]. *)
Definition clickHeader (field : string) (s : ViewState) : ViewState :=
  if String.eqb (sortBy s) field
  then setSortOrder (match sortOrder s with asc => desc | desc => asc end) s
  else setSortOrder desc (setSortBy field s).

(** The two page buttons.  They are rendered only when [totalPages > 0],
    and a disabled button does not fire. *)
Definition clickPrevious (s : ViewState) : ViewState :=
  if (0 <? totalPages s) && negb (currentPage s =? 1)
  then setCurrentPage (Z.max 1 (currentPage s - 1)) s
  else s.

Definition clickNext (s : ViewState) : ViewState :=
  if (0 <? totalPages s) && negb (currentPage s =? totalPages s)
  then setCurrentPage (Z.min (totalPages s) (currentPage s + 1)) s
  else s.

Definition clearAllFilters (s : ViewState) : ViewState :=
  setSearchTerm "" (setFilters clearedFilters s).

(** What the event's handler does to the hooks. *)
Definition handle (e : Event) (s : ViewState) : ViewState :=
  match e with
  | SetSearchTerm v => setSearchTerm v s
  | SetLeadOwnerFilter v => setLeadOwnerFilter v s
  | SetFilters f => setFilters f s
  | ClearAllFilters => clearAllFilters s
  | ClickHeader field => clickHeader field s
  | ClickPrevious => clickPrevious s
  | ClickNext => clickNext s
  | NewDeals ds => setDeals ds s
  | SelectAll checked => handleSelectAll checked s
  | SelectDeal dealId checked => handleSelectDeal dealId checked s
  | BulkDelete => handleBulkDelete s
  | ClearSelection => setSelectedDeals ∅ s
  | MouseDown x field => handleMouseDown x field s
  | MouseMove x => handleMouseMove x s
  | MouseUp => handleMouseUp s
  end.

(** The event hands the [filters] hook a new object. *)
Definition replacesFilters (e : Event) : bool :=
  match e with
  | SetFilters _ | ClearAllFilters => true
  | _ => false
  end.

(** The effect with dependencies [[filters, searchTerm, leadOwnerFilter]]:
    it runs after a render in which one of them is no longer the same
    value (for [filters], the same object). *)
Definition resetPageEffect (e : Event) (before after : ViewState) : ViewState :=
  if replacesFilters e
     || negb (String.eqb (searchTerm before) (searchTerm after))
     || negb (String.eqb (leadOwnerFilter before) (leadOwnerFilter after))
  then setCurrentPage 1 after
  else after.

Definition step (s : ViewState) (e : Event) : ViewState :=
  resetPageEffect e s (handle e s).

Definition run (s : ViewState) (es : list Event) : ViewState :=
  fold_left step es s.

(** ** The predicate with one dimension left out

    The same conjunction as [dealPasses], without the conjunct of the
    dimension [skip]: what "omitting that dimension" means. *)

Definition dim_eqb (a b : Dimension) : bool :=
  match a, b with
  | DimStage, DimStage | DimRegion, DimRegion | DimLeadOwner, DimLeadOwner
  | DimPriority, DimPriority | DimProbability, DimProbability
  | DimHandoff, DimHandoff => true
  | _, _ => false
  end.

Definition matchesUnless (skip dim : Dimension) (f : AdvancedFilterState) (deal : Deal) : bool :=
  dim_eqb skip dim || matchesDimension dim f deal.

Definition dealPassesExcept (skip : Dimension) (s : ViewState) (deal : Deal) : bool :=
  matchesSearch s deal
  && matchesLeadOwnerDropdown s deal
  && matchesUnless skip DimStage (filters s) deal
  && matchesUnless skip DimRegion (filters s) deal
  && matchesUnless skip DimLeadOwner (filters s) deal
  && matchesUnless skip DimPriority (filters s) deal
  && matchesUnless skip DimProbability (filters s) deal
  && matchesUnless skip DimHandoff (filters s) deal
  && matchesProbabilityRange (filters s) deal.

(** ** Ties

    Two records tie on a sort field when neither value is [<] the other:
    the comparator then returns [0], in either direction. *)
Definition keysTie (key : string) (a b : Deal) : bool :=
  negb (js_lt (sortValue key a) (sortValue key b))
  && negb (js_lt (sortValue key b) (sortValue key a)).

(** ** Sample data *)

Definition blankDeal (i : string) : Deal :=
  {| id := i; deal_name := None; project_name := None; lead_name := None;
     customer_name := None; region := None; lead_owner := None; stage := "Lead";
     handoff_status := None; priority := None; probability := None;
     project_duration := None; total_contract_value := None; total_revenue := None;
     expected_closing_date := None; start_date := None; end_date := None;
     created_at := None; modified_at := None; proposal_due_date := None |}.

(** [n] records [d1 .. dn]. *)
Definition sampleDeals (n : nat) : list Deal :=
  map (fun k => blankDeal ("d" ++ pretty (Z.of_nat k))) (seq 1 n).

Definition view30 : ViewState := initialView (sampleDeals 30) NoItem.

(** A record whose [modified_at] is the given date string. *)
Definition modifiedDeal (i : string) (m : option DateString) : Deal :=
  {| id := i; deal_name := None; project_name := None; lead_name := None;
     customer_name := None; region := None; lead_owner := None; stage := "Lead";
     handoff_status := None; priority := None; probability := None;
     project_duration := None; total_contract_value := None; total_revenue := None;
     expected_closing_date := None; start_date := None; end_date := None;
     created_at := None; modified_at := m; proposal_due_date := None |}.

(** A record with the given contract value. *)
Definition valuedDeal (i : string) (v : option Z) : Deal :=
  {| id := i; deal_name := None; project_name := None; lead_name := None;
     customer_name := None; region := None; lead_owner := None; stage := "Lead";
     handoff_status := None; priority := None; probability := None;
     project_duration := None; total_contract_value := v; total_revenue := None;
     expected_closing_date := None; start_date := None; end_date := None;
     created_at := None; modified_at := None; proposal_due_date := None |}.

(** A record with the given probability. *)
Definition probableDeal (i : string) (p : option Z) : Deal :=
  {| id := i; deal_name := None; project_name := None; lead_name := None;
     customer_name := None; region := None; lead_owner := None; stage := "Lead";
     handoff_status := None; priority := None; probability := p;
     project_duration := None; total_contract_value := None; total_revenue := None;
     expected_closing_date := None; start_date := None; end_date := None;
     created_at := None; modified_at := None; proposal_due_date := None |}.

(** Four records, two of value 100 and two of value 50, sorted by value
    in descending order: the 100s first, each pair in input order. *)
Definition tiedView : ViewState :=
  setSortOrder desc
    (setSortBy "total_contract_value"
       (initialView
          [valuedDeal "a" (Some 50); valuedDeal "b" (Some 100);
           valuedDeal "c" (Some 50); valuedDeal "d" (Some 100)] NoItem)).

Definition valueIs (v : Z) (d : Deal) : bool := or_zero (total_contract_value d) =? v.

(** A record in the given stage. *)
Definition stagedDeal (i st : string) : Deal :=
  {| id := i; deal_name := None; project_name := None; lead_name := None;
     customer_name := None; region := None; lead_owner := None; stage := st;
     handoff_status := None; priority := None; probability := None;
     project_duration := None; total_contract_value := None; total_revenue := None;
     expected_closing_date := None; start_date := None; end_date := None;
     created_at := None; modified_at := None; proposal_due_date := None |}.

Definition stagedView (allowedStages : list string) : ViewState :=
  setFilters
    {| stages := allowedStages; regions := []; leadOwners := []; priorities := [];
       probabilities := []; handoffStatuses := []; filterSearchTerm := "";
       probabilityRange := (0, 100) |}
    (initialView
       [stagedDeal "r1" "A"; stagedDeal "r2" "A"; stagedDeal "r3" "B";
        stagedDeal "r4" "C"; stagedDeal "r5" "A"] NoItem).

(** A resize of the stage column under way: pressed at x = 500. *)
Definition resizingView : ViewState :=
  handleMouseDown 500 "stage" (initialView [] NoItem).

(** The cleared filter with the probability range [lo, 100]. *)
Definition rangeFrom (lo : Z) : AdvancedFilterState :=
  {| stages := []; regions := []; leadOwners := []; priorities := [];
     probabilities := []; handoffStatuses := []; filterSearchTerm := "";
     probabilityRange := (lo, 100) |}.

(** The cleared filter with the probability range [lo, hi]. *)
Definition rangeBetween (lo hi : Z) : AdvancedFilterState :=
  {| stages := []; regions := []; leadOwners := []; priorities := [];
     probabilities := []; handoffStatuses := []; filterSearchTerm := "";
     probabilityRange := (lo, hi) |}.

(** The 30-record view after one click on Next: page 2. *)
Definition view30page2 : ViewState := run view30 [ClickNext].

(** Three records by modification date: unparsable, the epoch, later. *)
Definition badDateDeal : Deal := modifiedDeal "bad" (Some InvalidDate).
Definition epochDeal : Deal := modifiedDeal "epoch" (Some (ValidDate 0)).
Definition lateDeal : Deal := modifiedDeal "late" (Some (ValidDate 1000)).

(** A second record of the later date, and the view of the four records
    as it opens: sorted by modification date, latest first. *)
Definition late2Deal : Deal := modifiedDeal "late2" (Some (ValidDate 1000)).

Definition datedView : ViewState :=
  initialView [epochDeal; lateDeal; badDateDeal; late2Deal] NoItem.

Definition notEpoch (d : Deal) : bool := negb (String.eqb (id d) "epoch").

(** The place a binary insertion gives an element in a sorted list, said
    directly: in front of the first element that the comparator puts
    strictly after it, behind the ones it ties with. *)
Fixpoint insert_right {A} (cmp : A → A → Z) (x : A) (l : list A) : list A :=
  match l with
  | [] => [x]
  | y :: r => if cmp x y <? 0 then x :: y :: r else y :: insert_right cmp x r
  end.

(** [a] stands somewhere before [b] in the list. *)
Definition precedes {A} (a b : A) (l : list A) : Prop :=
  ∃ l1 l2 l3, l = (l1 ++ a :: l2 ++ b :: l3)%list.

(** A caller whose update always fails. *)
Definition rejectAll (dealId field : string) (value : EditValue) : UpdateOutcome :=
  Rejected.

(** A saved width map with one known field and one the view does not have. *)
Definition partialSaved : gmap string Z :=
  list_to_map [("project_name", 300); ("legacy_column", 99)].

(** ** The text search with the lower-casing left open *)

(** The filter predicate once more, with [toLowerCase] standing for
    [String.prototype.toLowerCase] as the engine has it (it folds the
    letters outside ASCII too); at [Js.toLowerCase] the definitions are
    the ones above. *)
Module Folded.
Section Fold.
Variable toLowerCase : string → string.

Definition field_includes (x : option string) (t : string) : bool :=
  match x with
  | Some v => Js.str_includes (toLowerCase v) t
  | None => false
  end.

Definition allSearchTerms (s : ViewState) : string :=
  toLowerCase
    (Js.join " " (List.filter Js.truthy_str [searchTerm s; filterSearchTerm (filters s)])).

Definition matchesSearch (s : ViewState) (deal : Deal) : bool :=
  let t := allSearchTerms s in
  negb (Js.truthy_str t)
  || field_includes (deal_name deal) t
  || field_includes (project_name deal) t
  || field_includes (lead_name deal) t
  || field_includes (customer_name deal) t
  || field_includes (region deal) t.

Definition dealPasses (s : ViewState) (deal : Deal) : bool :=
  matchesSearch s deal
  && matchesLeadOwnerDropdown s deal
  && matchesDimension DimStage (filters s) deal
  && matchesDimension DimRegion (filters s) deal
  && matchesDimension DimLeadOwner (filters s) deal
  && matchesDimension DimPriority (filters s) deal
  && matchesDimension DimProbability (filters s) deal
  && matchesDimension DimHandoff (filters s) deal
  && matchesProbabilityRange (filters s) deal.

Definition filteredDeals (s : ViewState) : list Deal :=
  List.filter (dealPasses s) (deals s).
End Fold.
End Folded.

(** ** The rest of the list view *)

(** [Array.from(new Set(arr))]: the first occurrence of every value, in
    the order of the array. *)
Fixpoint uniqueAfter (seen arr : list string) : list string :=
  match arr with
  | [] => []
  | x :: r =>
      if Js.arr_includes seen x then uniqueAfter seen r
      else x :: uniqueAfter (x :: seen) r
  end.

Definition unique (arr : list string) : list string := uniqueAfter [] arr.

(** [arr.filter(Boolean)] on optional strings: the strings that are
    present and not empty. *)
Fixpoint truthyStrings (arr : list (option string)) : list string :=
  match arr with
  | [] => []
  | Some v :: r => if Js.truthy_str v then v :: truthyStrings r else truthyStrings r
  | None :: r => truthyStrings r
  end.

(** [String(x)] on an optional number: a missing one prints as
    ['undefined'].  (A column that holds [null] instead prints as ['null'];
    the record type has no such value, and nothing below is stated of the
    options of the two numeric dimensions beyond what holds with it.) *)
Definition String_of_optnum (x : option Z) : string :=
  match x with Some v => Js.String_of_num v | None => "undefined" end.

Definition definedStrings (arr : list string) : list string :=
  List.filter (fun p => negb (String.eqb p "undefined")) arr.

(** The five lists of [availableOptions]. *)
Definition availableRegions (ds : list Deal) : list string :=
  unique (truthyStrings (map region ds)).

Definition availableLeadOwners (ds : list Deal) : list string :=
  unique (truthyStrings (map lead_owner ds)).

Definition availablePriorities (ds : list Deal) : list string :=
  unique (definedStrings (map (fun d => String_of_optnum (priority d)) ds)).

Definition availableProbabilities (ds : list Deal) : list string :=
  unique (definedStrings (map (fun d => String_of_optnum (probability d)) ds)).

Definition availableHandoffStatuses (ds : list Deal) : list string :=
  unique (truthyStrings (map handoff_status ds)).

(** The options offered for a dimension of the advanced filter ([None]
    for the stage, whose options are the fixed enumeration). *)
Definition availableFor (dim : Dimension) (ds : list Deal) : option (list string) :=
  match dim with
  | DimStage => None
  | DimRegion => Some (availableRegions ds)
  | DimLeadOwner => Some (availableLeadOwners ds)
  | DimPriority => Some (availablePriorities ds)
  | DimProbability => Some (availableProbabilities ds)
  | DimHandoff => Some (availableHandoffStatuses ds)
  end.

(** [getActiveFiltersCount]. *)
Definition getActiveFiltersCount (f : AdvancedFilterState) : Z :=
  let one (b : bool) : Z := if b then 1 else 0 in
  one (Nat.ltb 0 (length (stages f)))
  + one (Nat.ltb 0 (length (regions f)))
  + one (Nat.ltb 0 (length (leadOwners f)))
  + one (Nat.ltb 0 (length (priorities f)))
  + one (Nat.ltb 0 (length (probabilities f)))
  + one (Nat.ltb 0 (length (handoffStatuses f)))
  + one (Js.truthy_str (filterSearchTerm f))
  + one ((0 <? fst (probabilityRange f)) || (snd (probabilityRange f) <? 100)).

(** [hasActiveFilters]: it decides whether the Clear All button shows. *)
Definition hasActiveFilters (s : ViewState) : bool :=
  (0 <? getActiveFiltersCount (filters s)) || Js.truthy_str (searchTerm s).

(** The [localStorage] entry ['deals-filters'], read like the widths. *)
Inductive StoredFilters : Type :=
| NoFilters
| MalformedFilters (raw : string)
| ParsedFilters (parsed : AdvancedFilterState).

(** [{ ...filters, searchTerm }]: the object the save effect writes. *)
Definition filtersWithSearch (s : ViewState) : AdvancedFilterState :=
  {| stages := stages (filters s); regions := regions (filters s);
     leadOwners := leadOwners (filters s); priorities := priorities (filters s);
     probabilities := probabilities (filters s);
     handoffStatuses := handoffStatuses (filters s);
     filterSearchTerm := searchTerm s;
     probabilityRange := probabilityRange (filters s) |}.

Definition saveFilters (s : ViewState) : StoredFilters :=
  ParsedFilters (filtersWithSearch s).

(** The mount effect that restores the filters:
    [setFilters(parsed); setSearchTerm(parsed.searchTerm || "")]. *)
Definition loadFilters (saved : StoredFilters) (s : ViewState) : ViewState :=
  match saved with
  | NoFilters => s
  | MalformedFilters _ =>
      setConsoleErrors (consoleErrors s ++ ["Failed to parse saved filters:"]) s
  | ParsedFilters parsed => setSearchTerm (filterSearchTerm parsed) (setFilters parsed s)
  end.

(** The header checkbox:
    [selectedDeals.size === paginatedDeals.length && paginatedDeals.length > 0]. *)
Definition headerChecked (s : ViewState) : bool :=
  Nat.eqb (size (selectedDeals s)) (length (paginatedDeals s))
  && Nat.ltb 0 (length (paginatedDeals s)).

(** [deals.filter(deal => selectedDeals.has(deal.id))]: the records handed
    to the export. *)
Definition selectedDealObjects (s : ViewState) : list Deal :=
  List.filter (fun deal => bool_decide (id deal ∈ selectedDeals s)) (deals s).

(** The footer line "Showing X to Y of N deals". *)
Definition showingFrom (s : ViewState) : Z :=
  if Nat.eqb (length (filteredAndSortedDeals s)) 0 then 0
  else (currentPage s - 1) * itemsPerPage + 1.

Definition showingTo (s : ViewState) : Z :=
  Z.min (currentPage s * itemsPerPage) (Z.of_nat (length (filteredAndSortedDeals s))).

(** [getFieldType]: the editor an inline cell opens. *)
Inductive FieldType : Type :=
| TText | TNumber | TDate | TSelect | TTextarea | TBoolean
| TStage | TPriority | TCurrency | TUserSelect.

Definition getFieldType (key : string) : FieldType :=
  if String.eqb key "stage" then TStage
  else if String.eqb key "priority" then TPriority
  else if String.eqb key "lead_owner" then TUserSelect
  else if Js.arr_includes ["total_contract_value"; "total_revenue"] key then TCurrency
  else if Js.arr_includes
            ["expected_closing_date"; "start_date"; "end_date"; "proposal_due_date"] key
       then TDate
  else if Js.arr_includes ["probability"; "project_duration"] key then TNumber
  else TText.

(** The column descriptors and [visibleColumns]. *)
Record DealColumnConfig : Type := mkColumn {
  field : string;
  label : string;
  visible : bool;
  order : Z
}.

Definition initialColumns : list DealColumnConfig :=
  [mkColumn "project_name" "Project" true 0;
   mkColumn "customer_name" "Customer" true 1;
   mkColumn "lead_name" "Lead Name" true 2;
   mkColumn "stage" "Stage" true 3;
   mkColumn "priority" "Priority" true 4;
   mkColumn "total_contract_value" "Value" true 5;
   mkColumn "probability" "Probability" true 6;
   mkColumn "expected_closing_date" "Expected Close" true 7;
   mkColumn "region" "Region" false 8;
   mkColumn "project_duration" "Duration" false 9;
   mkColumn "start_date" "Start Date" false 10;
   mkColumn "end_date" "End Date" false 11;
   mkColumn "proposal_due_date" "Proposal Due" false 12;
   mkColumn "total_revenue" "Total Revenue" false 13;
   mkColumn "lead_owner" "Lead Owner" true 14].

Definition compareColumns (a b : DealColumnConfig) : Z := order a - order b.

Definition visibleColumns (columns : list DealColumnConfig) : list DealColumnConfig :=
  Js.sort compareColumns (List.filter visible columns).

(** Two records are in sort order when the second does not come strictly
    first: ascending, its value is not less; descending, not greater. *)
Definition inSortOrder (key : string) (dir : SortOrder) (a b : Deal) : Prop :=
  match dir with
  | asc => js_lt (sortValue key b) (sortValue key a) = false
  | desc => js_lt (sortValue key a) (sortValue key b) = false
  end.

(** For one sort field every record yields the same kind of value. *)
Definition sameKind (x y : SortValue) : Prop :=
  match x, y with
  | SNum _, SNum _ | SDate _, SDate _ | SStr _, SStr _ => True
  | _, _ => False
  end.

(** The events whose handler writes the selection. *)
Definition setsSelection (e : Event) : bool :=
  match e with
  | SelectAll _ | SelectDeal _ _ | BulkDelete | ClearSelection => true
  | _ => false
  end.

(** A record has nothing to show to a dimension: the field is missing or
    empty or, for the two numeric dimensions, zero. *)
Definition lacksValue (dim : Dimension) (d : Deal) : Prop :=
  match dim with
  | DimStage => stage d = ""
  | DimRegion => region d = None ∨ region d = Some ""
  | DimLeadOwner => lead_owner d = None ∨ lead_owner d = Some ""
  | DimPriority => priority d = None ∨ priority d = Some 0
  | DimProbability => probability d = None ∨ probability d = Some 0
  | DimHandoff => handoff_status d = None ∨ handoff_status d = Some ""
  end.

(** The cleared filter with the given allowed regions. *)
Definition regionFilter (allowedRegions : list string) : AdvancedFilterState :=
  {| stages := []; regions := allowedRegions; leadOwners := []; priorities := [];
     probabilities := []; handoffStatuses := []; filterSearchTerm := "";
     probabilityRange := (0, 100) |}.

(** A record in the given region. *)
Definition regionDeal (i : string) (r : option string) : Deal :=
  {| id := i; deal_name := None; project_name := None; lead_name := None;
     customer_name := None; region := r; lead_owner := None; stage := "Lead";
     handoff_status := None; priority := None; probability := None;
     project_duration := None; total_contract_value := None; total_revenue := None;
     expected_closing_date := None; start_date := None; end_date := None;
     created_at := None; modified_at := None; proposal_due_date := None |}.

(** A record with the given name. *)
Definition namedDeal (i : string) (n : string) : Deal :=
  {| id := i; deal_name := Some n; project_name := None; lead_name := None;
     customer_name := None; region := None; lead_owner := None; stage := "Lead";
     handoff_status := None; priority := None; probability := None;
     project_duration := None; total_contract_value := None; total_revenue := None;
     expected_closing_date := None; start_date := None; end_date := None;
     created_at := None; modified_at := None; proposal_due_date := None |}.

(** ** The calculator keypad ([Index]): typing a number

    The state of the calculator; [Num] stands for the numbers it holds,
    which the keys modelled here only pass along or reset. *)
Section Calculator.
Context {Num : Type}.

Record CalcState : Type := mkCalc {
  display : string;
  previousValue : option Num;
  operator : option string;
  waitingForOperand : bool
}.

Definition inputDigit (digit : string) (st : CalcState) : CalcState :=
  if waitingForOperand st
  then {| display := digit; previousValue := previousValue st;
          operator := operator st; waitingForOperand := false |}
  else {| display := if String.eqb (display st) "0" then digit else display st ++ digit;
          previousValue := previousValue st; operator := operator st;
          waitingForOperand := waitingForOperand st |}.

Definition inputDecimal (st : CalcState) : CalcState :=
  if waitingForOperand st
  then {| display := "0."; previousValue := previousValue st;
          operator := operator st; waitingForOperand := false |}
  else if negb (Js.str_includes (display st) ".")
       then {| display := display st ++ "."; previousValue := previousValue st;
               operator := operator st; waitingForOperand := waitingForOperand st |}
       else st.

Definition clear (st : CalcState) : CalcState :=
  {| display := "0"; previousValue := None; operator := None;
     waitingForOperand := false |}.

(** The keys that type a number: the ten digit buttons, the decimal
    point and AC. *)
Inductive Key : Type :=
| KeyDigit (digit : string)
| KeyDecimal
| KeyClear.

Definition press (st : CalcState) (k : Key) : CalcState :=
  match k with
  | KeyDigit digit => inputDigit digit st
  | KeyDecimal => inputDecimal st
  | KeyClear => clear st
  end.

Definition typed (st : CalcState) (keys : list Key) : CalcState :=
  fold_left press keys st.

End Calculator.

(** The digits the buttons pass to [inputDigit]. *)
Definition digitKeys : list string := ["0"; "1"; "2"; "3"; "4"; "5"; "6"; "7"; "8"; "9"].

Definition fromKeypad (k : @Key) : Prop :=
  match k with
  | KeyDigit digit => In digit digitKeys
  | _ => True
  end.

(** A display that reads as a decimal numeral: digits with at most one
    point, a digit first, and no zero in front of another digit. *)
Definition isDigit (c : ascii) : bool :=
  (Nat.leb 48 (nat_of_ascii c) && Nat.leb (nat_of_ascii c) 57)%bool.

Definition isPoint (c : ascii) : bool := Ascii.eqb c ".".

Fixpoint points (s : string) : nat :=
  match s with
  | EmptyString => 0
  | String c r => if isPoint c then S (points r) else points r
  end.

Fixpoint digitsAndPoints (s : string) : bool :=
  match s with
  | EmptyString => true
  | String c r => (isDigit c || isPoint c) && digitsAndPoints r
  end.

Definition startsWell (s : string) : bool :=
  match s with
  | EmptyString => false
  | String c EmptyString => isDigit c
  | String c (String c' _) => isDigit c && (negb (Ascii.eqb c "0") || isPoint c')
  end.

Definition isNumeral (s : string) : bool :=
  digitsAndPoints s && Nat.leb (points s) 1 && startsWell s.

(** ** The task notification function ([send-task-notification])

    The handler talks to the database, the token endpoint and the mail
    API.  What those answer is collected in a [World]; the handler is a
    function of the request and the world, and returns the response
    together with the calls it made, in order. *)

Record TaskNotificationRequest : Type := mkTaskRequest {
  taskId : option string;
  notificationType : option string;
  recipientUserId : option string;
  taskTitle : option string;
  taskDescription : option string;
  taskDueDate : option string;
  taskPriority : option string;
  updatedByName : option string;
  assigneeName : option string
}.

(** [await req.json()]: the parsed body, or the error it throws. *)
Inductive BodyResult : Type :=
| BodyJson (r : TaskNotificationRequest)
| BodyThrows (msg : string).

Record HttpRequest : Type := mkHttpRequest {
  method : string;
  jsonBody : BodyResult
}.

Record Profile : Type := mkProfile {
  full_name : option string;
  emailId : option string
}.

Record Prefs : Type := mkPrefs {
  email_notifications : option bool;
  task_reminders : option bool
}.

(** What [fetch] does: a response that is [ok] (with the token, for the
    token endpoint), a response that is not, or a thrown error. *)
Inductive FetchResult : Type :=
| FetchOk (payload : string)
| FetchNotOk (status : Z) (text : string)
| FetchThrows (msg : string).

Record World : Type := mkWorld {
  createClientThrows : option string;
  profileData : option Profile;
  profileError : bool;
  prefsData : option Prefs;
  adminProfileData : option Profile;
  env_APP_URL : option string;
  env_AZURE_SENDER_EMAIL : option string;
  env_AZURE_EMAIL_TENANT_ID : option string;
  env_AZURE_EMAIL_CLIENT_ID : option string;
  env_AZURE_EMAIL_CLIENT_SECRET : option string;
  tokenFetch : FetchResult;
  sendFetch : FetchResult
}.

Inductive Action : Type :=
| ConsoleLog (msg : string)
| ConsoleError (msg : string)
| SelectProfile (userId : string)
| SelectPreferences (userId : string)
| SelectFirstProfile
| TokenRequest (tenantId clientId clientSecret : string)
| SendMail (accessToken sender recipient recipientName subject content : string).

Inductive ResponseBody : Type :=
| NoBody
| ErrorBody (error : string)
| ResultBody (success : bool) (message : string).

Record Response : Type := mkResponse {
  status : Z;
  contentTypeJson : bool;
  body : ResponseBody
}.

(** A value that is there and truthy: a non-empty string. *)
Definition truthyOpt (x : option string) : option string :=
  match x with
  | Some v => if Js.truthy_str v then Some v else None
  | None => None
  end.

(** [${x}] in a template for an optional string. *)
Definition interpolate (x : option string) : string :=
  match x with Some v => v | None => "undefined" end.

Definition getEmailSubject (type taskTitle : string) : string :=
  if String.eqb type "task_assigned" then "📋 New Task Assigned: " ++ taskTitle
  else if String.eqb type "status_in_progress" then "🔄 Task In Progress: " ++ taskTitle
  else if String.eqb type "status_completed" then "✅ Task Completed: " ++ taskTitle
  else if String.eqb type "status_cancelled" then "❌ Task Cancelled: " ++ taskTitle
  else if String.eqb type "status_open" then "📝 Task Reopened: " ++ taskTitle
  else "📋 Task Update: " ++ taskTitle.

(** A computation of the handler: the calls made, and a value or the
    message of the error thrown. *)
Inductive Outcome (A : Type) : Type :=
| Returned (a : A)
| Thrown (msg : string).
Arguments Returned {A} a.
Arguments Thrown {A} msg.

Definition getAccessToken (w : World) : list Action * Outcome string :=
  match truthyOpt (env_AZURE_EMAIL_TENANT_ID w), truthyOpt (env_AZURE_EMAIL_CLIENT_ID w),
        truthyOpt (env_AZURE_EMAIL_CLIENT_SECRET w) with
  | Some tenantId, Some clientId, Some clientSecret =>
      match tokenFetch w with
      | FetchOk token => ([TokenRequest tenantId clientId clientSecret], Returned token)
      | FetchNotOk st _ =>
          ([TokenRequest tenantId clientId clientSecret; ConsoleError "Azure token error:"],
           Thrown ("Failed to get Azure access token: " ++ Js.String_of_num st))
      | FetchThrows msg => ([TokenRequest tenantId clientId clientSecret], Thrown msg)
      end
  | _, _, _ => ([], Thrown "Azure email credentials not configured")
  end.

Definition sendEmailViaGraph (w : World)
    (accessToken recipient recipientName subject content sender : string)
    : list Action * Outcome unit :=
  let name := if Js.truthy_str recipientName then recipientName else recipient in
  let call := SendMail accessToken sender recipient name subject content in
  match sendFetch w with
  | FetchOk _ => ([call], Returned tt)
  | FetchNotOk st _ =>
      ([call; ConsoleError "Graph API error:"],
       Thrown ("Failed to send email via Graph API: " ++ Js.String_of_num st))
  | FetchThrows msg => ([call], Thrown msg)
  end.

Definition jsonResponse (st : Z) (b : ResponseBody) : Response :=
  {| status := st; contentTypeJson := true; body := b |}.

(** The [catch] block. *)
Definition caught (msg : string) : list Action * Response :=
  ([ConsoleError "Error in send-task-notification:"], jsonResponse 500 (ErrorBody msg)).

Definition defaultAppUrl : string := "https://narvjcteixgjclvjvlbn.lovable.app".

(** [prefs && (prefs.email_notifications === false ||
    prefs.task_reminders === false)]: the user has switched task mails off. *)
Definition optedOut (w : World) : bool :=
  match prefsData w with
  | Some prefs =>
      match email_notifications prefs, task_reminders prefs with
      | Some false, _ | _, Some false => true
      | _, _ => false
      end
  | None => false
  end.

Section Handler.
(** [generateEmailHtml]: the markup of the message, with a due date the
    engine formats for the locale.  The handler only passes it on. *)
Variable generateEmailHtml :
  string → string → string → option string → option string → option string →
  option string → option string → string → string.

Definition handler (req : HttpRequest) (w : World) : list Action * Response :=
  if String.eqb (method req) "OPTIONS"
  then ([], {| status := 200; contentTypeJson := false; body := NoBody |})
  else
    match jsonBody req with
    | BodyThrows msg => caught msg
    | BodyJson r =>
        let log1 :=
          ConsoleLog ("Processing task notification: " ++ interpolate (notificationType r)
                      ++ " for task " ++ interpolate (taskId r)
                      ++ " to user " ++ interpolate (recipientUserId r)) in
        match truthyOpt (taskId r), truthyOpt (notificationType r),
              truthyOpt (recipientUserId r), truthyOpt (taskTitle r) with
        | Some _, Some type, Some userId, Some title =>
            match createClientThrows w with
            | Some msg => (log1 :: fst (caught msg), snd (caught msg))
            | None =>
                match profileError w, profileData w with
                | false, Some profile =>
                    match truthyOpt (emailId profile) with
                    | None =>
                        ([log1; SelectProfile userId;
                          ConsoleLog ("No email found for user " ++ userId)],
                         jsonResponse 200 (ResultBody false "Recipient has no email"))
                    | Some recipientEmail =>
                        if optedOut w
                        then
                          ([log1; SelectProfile userId; SelectPreferences userId;
                            ConsoleLog ("User " ++ userId
                                        ++ " has task email notifications disabled")],
                           jsonResponse 200 (ResultBody false "User has notifications disabled"))
                        else
                          let appUrl :=
                            match truthyOpt (env_APP_URL w) with
                            | Some u => u
                            | None => defaultAppUrl
                            end in
                          let name := or_empty (truthyOpt (full_name profile)) in
                          let emailHtml :=
                            generateEmailHtml type title name (taskDescription r)
                              (taskDueDate r) (taskPriority r) (updatedByName r)
                              (assigneeName r) appUrl in
                          let emailSubject := getEmailSubject type title in
                          let lookup :=
                            match truthyOpt (env_AZURE_SENDER_EMAIL w) with
                            | Some e => ([], Some e)
                            | None =>
                                ([SelectFirstProfile],
                                 match adminProfileData w with
                                 | Some admin => truthyOpt (emailId admin)
                                 | None => None
                                 end)
                            end in
                          let before :=
                            ([log1; SelectProfile userId; SelectPreferences userId]
                             ++ fst lookup)%list in
                          match snd lookup with
                          | None =>
                              ((before ++ [ConsoleError "No sender email configured"])%list,
                               jsonResponse 500 (ErrorBody "Sender email not configured"))
                          | Some senderEmail =>
                              match getAccessToken w with
                              | (calls1, Thrown msg) =>
                                  ((before ++ calls1 ++ fst (caught msg))%list, snd (caught msg))
                              | (calls1, Returned accessToken) =>
                                  match sendEmailViaGraph w accessToken recipientEmail name
                                          emailSubject emailHtml senderEmail with
                                  | (calls2, Thrown msg) =>
                                      ((before ++ calls1 ++ calls2 ++ fst (caught msg))%list,
                                       snd (caught msg))
                                  | (calls2, Returned _) =>
                                      ((before ++ calls1 ++ calls2
                                        ++ [ConsoleLog ("Task notification email sent successfully to "
                                                        ++ recipientEmail)%string])%list,
                                       jsonResponse 200
                                         (ResultBody true "Notification email sent"))
                                  end
                              end
                          end
                    end
                | _, _ =>
                    ([log1; SelectProfile userId;
                      ConsoleError "Failed to fetch recipient profile:"],
                     jsonResponse 404 (ErrorBody "Recipient not found"))
                end
            end
        | _, _, _, _ =>
            ([log1], jsonResponse 400 (ErrorBody "Missing required fields"))
        end
    end.

End Handler.

(** The mail calls in a trace. *)
Definition isSendMail (a : Action) : bool :=
  match a with SendMail _ _ _ _ _ _ => true | _ => false end.

(** The token requests in a trace. *)
Definition isTokenRequest (a : Action) : bool :=
  match a with TokenRequest _ _ _ => true | _ => false end.

Definition isExternalCall (a : Action) : bool :=
  match a with ConsoleLog _ | ConsoleError _ => false | _ => true end.

(** The calls that leave for the token endpoint or the mail API. *)
Definition reachesAzure (a : Action) : bool :=
  match a with
  | TokenRequest _ _ _ | SendMail _ _ _ _ _ _ => true
  | _ => false
  end.

(** The four fields the handler requires, all present and not empty. *)
Definition hasRequiredFields (r : TaskNotificationRequest) : bool :=
  match truthyOpt (taskId r), truthyOpt (notificationType r),
        truthyOpt (recipientUserId r), truthyOpt (taskTitle r) with
  | Some _, Some _, Some _, Some _ => true
  | _, _, _, _ => false
  end.

(** The address the profile lookup yields for the recipient. *)
Definition recipientOf (w : World) : option string :=
  match profileError w, profileData w with
  | false, Some profile => truthyOpt (emailId profile)
  | _, _ => None
  end.

(** The sender: the configured address, else the first profile's. *)
Definition senderOf (w : World) : option string :=
  match truthyOpt (env_AZURE_SENDER_EMAIL w) with
  | Some e => Some e
  | None =>
      match adminProfileData w with
      | Some admin => truthyOpt (emailId admin)
      | None => None
      end
  end.

Definition hasCredentials (w : World) : bool :=
  match truthyOpt (env_AZURE_EMAIL_TENANT_ID w), truthyOpt (env_AZURE_EMAIL_CLIENT_ID w),
        truthyOpt (env_AZURE_EMAIL_CLIENT_SECRET w) with
  | Some _, Some _, Some _ => true
  | _, _, _ => false
  end.

(** A request and a world in which the mail goes out. *)
Definition sampleTask : TaskNotificationRequest :=
  {| taskId := Some "t1"; notificationType := Some "task_assigned";
     recipientUserId := Some "u1"; taskTitle := Some "Call back";
     taskDescription := None; taskDueDate := None; taskPriority := Some "high";
     updatedByName := Some "Ana"; assigneeName := None |}.

Definition sampleRequest : HttpRequest :=
  {| method := "POST"; jsonBody := BodyJson sampleTask |}.

Definition sampleWorld (prefs : option Prefs) : World :=
  {| createClientThrows := None;
     profileData := Some {| full_name := Some "Bo"; emailId := Some "bo@example.com" |};
     profileError := false;
     prefsData := prefs;
     adminProfileData := None;
     env_APP_URL := None;
     env_AZURE_SENDER_EMAIL := Some "crm@example.com";
     env_AZURE_EMAIL_TENANT_ID := Some "tenant";
     env_AZURE_EMAIL_CLIENT_ID := Some "client";
     env_AZURE_EMAIL_CLIENT_SECRET := Some "secret";
     tokenFetch := FetchOk "token";
     sendFetch := FetchOk "" |}.

(** A stand-in for the markup. *)
Definition plainHtml (type title name : string)
    (description dueDate priority updatedBy assignee : option string) (appUrl : string)
    : string :=
  title.

(** * Properties *)

(** ** Sanity checks of the embedding on small inputs *)

Example toLowerCase_example : Js.toLowerCase "Acme GmbH" = "acme gmbh".
Proof. reflexivity. Qed.

Example str_includes_example :
  Js.str_includes "acme gmbh" "gmb" = true ∧ Js.str_includes "acme" "x" = false
  ∧ Js.str_includes "" "" = true.
Proof. repeat split; reflexivity. Qed.

Example ceil_div_examples :
  Js.ceil_div 30 25 = 2 ∧ Js.ceil_div 25 25 = 1 ∧ Js.ceil_div 26 25 = 2 ∧ Js.ceil_div 0 25 = 0.
Proof. repeat split; reflexivity. Qed.

Example String_of_num_examples :
  Js.String_of_num 40 = "40" ∧ Js.String_of_num (-5) = "-5"
  ∧ num_or_empty (Some 0) = "" ∧ num_or_empty None = "".
Proof. repeat split; reflexivity. Qed.

Example slice_examples :
  Js.slice [1; 2; 3; 4; 5] 1 3 = [2; 3]
  ∧ Js.slice [1; 2; 3; 4; 5] 3 10 = [4; 5]
  ∧ Js.slice [1; 2; 3; 4; 5] 7 9 = []
  ∧ Js.slice [1; 2; 3; 4; 5] (-2) 5 = [4; 5].
Proof. repeat split; reflexivity. Qed.

(** The scenario of the specification: values [100, undefined, 50] sorted
    ascending by value give [undefined, 50, 100]. *)
Example sort_scenario :
  map id (Js.sort (compareDeals "total_contract_value" asc)
            [valuedDeal "a" (Some 100); valuedDeal "b" None; valuedDeal "c" (Some 50)])
  = ["b"; "c"; "a"].
Proof. reflexivity. Qed.

Example view30_page1 :
  visibleIds view30 = map (fun k => "d" ++ pretty (Z.of_nat k)) (seq 1 25).
Proof. vm_compute. reflexivity. Qed.

(** ** The built-in sort: length, content, stability *)

Section SortFacts.
Context {A : Type} (cmp : A → A → Z).

Lemma insert_sorted_length (x : A) (l : list A) :
  length (Js.insert_sorted cmp x l) = S (length l).
Proof.
  induction l as [|y r IH]; simpl; [reflexivity|].
  destruct (cmp x y <=? 0); simpl; [reflexivity | now rewrite IH].
Qed.

Lemma sort_length (l : list A) : length (Js.sort cmp l) = length l.
Proof.
  induction l as [|x r IH]; simpl; [reflexivity|].
  now rewrite insert_sorted_length, IH.
Qed.

Lemma insert_sorted_perm (x : A) (l : list A) :
  Permutation (Js.insert_sorted cmp x l) (x :: l).
Proof.
  induction l as [|y r IH]; simpl; [reflexivity|].
  destruct (cmp x y <=? 0); [reflexivity|].
  rewrite IH. apply perm_swap.
Qed.

Lemma sort_perm (l : list A) : Permutation (Js.sort cmp l) l.
Proof.
  induction l as [|x r IH]; simpl; [reflexivity|].
  now rewrite insert_sorted_perm, IH.
Qed.

(** A class of elements no two of which the comparator separates keeps
    its order: insertion never carries one of them across another. *)
Lemma insert_sorted_filter (P : A → bool) (x : A) (l : list A) :
  (∀ a b, P a = true → P b = true → cmp a b <= 0) →
  List.filter P (Js.insert_sorted cmp x l) = List.filter P (x :: l).
Proof.
  intros Htie. induction l as [|y r IH]; [reflexivity|].
  cbn [Js.insert_sorted]. destruct (Z.leb_spec (cmp x y) 0) as [Hle|Hgt]; [reflexivity|].
  cbn [List.filter] in *. rewrite IH.
  destruct (P x) eqn:Px, (P y) eqn:Py; try reflexivity.
  specialize (Htie x y Px Py). lia.
Qed.

Lemma sort_filter (P : A → bool) (l : list A) :
  (∀ a b, P a = true → P b = true → cmp a b <= 0) →
  List.filter P (Js.sort cmp l) = List.filter P l.
Proof.
  intros Htie. induction l as [|x r IH]; [reflexivity|].
  cbn [Js.sort]. rewrite insert_sorted_filter by exact Htie.
  cbn [List.filter]. now rewrite IH.
Qed.

End SortFacts.

(** ** The page count and the page slice *)

Lemma ceil_div_opp (n p : Z) : 0 < p → Js.ceil_div n p = - ((- n) / p).
Proof.
  intros Hp. destruct p as [|q|q]; try lia.
  unfold Js.ceil_div, Qround.Qceiling, Qround.Qfloor, QArith_base.Qdiv,
    QArith_base.Qinv, QArith_base.Qmult, QArith_base.Qopp, QArith_base.inject_Z.
  cbn. now rewrite Z.mul_1_r.
Qed.

Lemma ceil_div_bounds (n p : Z) :
  0 < p → (Js.ceil_div n p - 1) * p < n <= Js.ceil_div n p * p.
Proof.
  intros Hp. rewrite ceil_div_opp by exact Hp.
  pose proof (Z.div_mod (- n) p ltac:(lia)) as Hdm.
  pose proof (Z.mod_pos_bound (- n) p Hp) as Hmod.
  nia.
Qed.

Lemma slice_page {A} (l : list A) (p k : Z) :
  0 < p → 1 <= k →
  pageSlice l p k = firstn (Z.to_nat p) (skipn (Z.to_nat ((k - 1) * p)) l).
Proof.
  intros Hp Hk. unfold pageSlice, Js.slice, Js.rel_index.
  set (len := Z.of_nat (length l)).
  assert (Hs : 0 <= (k - 1) * p) by nia.
  destruct (Z.ltb_spec ((k - 1) * p) 0) as [?|_]; [lia|].
  destruct (Z.ltb_spec ((k - 1) * p + p) 0) as [?|_]; [lia|].
  destruct (Z.le_gt_cases len ((k - 1) * p)) as [Hout|Hin].
  - (* the page starts beyond the end: both sides are empty *)
    rewrite !Z.min_r by lia. rewrite Z.sub_diag.
    rewrite (skipn_all2 (n := Z.to_nat ((k - 1) * p))) by (subst len; lia).
    now rewrite firstn_nil.
  - rewrite (Z.min_l ((k - 1) * p)) by lia.
    destruct (Z.le_gt_cases ((k - 1) * p + p) len) as [Hfull|Hshort].
    + rewrite Z.min_l by lia. f_equal. lia.
    + rewrite Z.min_r by lia.
      rewrite !firstn_all2; [reflexivity | |];
        rewrite length_skipn; subst len; lia.
Qed.

(** ** Paginator *)

(** C2: the derived totalPages of the empty view is 0, not at least 1. *)
Lemma empty_view_has_zero_pages :
  totalPages (initialView [] NoItem) = 0 ∧ ¬ (1 <= totalPages (initialView [] NoItem)).
Proof.
  assert (E : totalPages (initialView [] NoItem) = 0) by reflexivity.
  split; [exact E | rewrite E; lia].
Qed.

(** C2 (as amended): for a list of n records and a page size p > 0, the
    page count t is the ceiling of n/p, that is (t-1)p < n <= tp; it is 0
    for the empty list and at least 1 otherwise; page k (k >= 1) holds the
    p records after the first (k-1)p; and 30 records with page size 25
    give 2 pages, the first 25 records and the 5 remaining ones. *)
Theorem page_count_and_pages {A} (l : list A) (p : Z) :
  0 < p →
  let n := Z.of_nat (length l) in
  let t := pageCount n p in
  (t - 1) * p < n <= t * p
  ∧ (l = [] → t = 0)
  ∧ (l ≠ [] → 1 <= t)
  ∧ (∀ k, 1 <= k →
       pageSlice l p k = firstn (Z.to_nat p) (skipn (Z.to_nat ((k - 1) * p)) l))
  ∧ (length l = 30%nat → p = 25 →
       t = 2 ∧ pageSlice l p 1 = firstn 25 l ∧ pageSlice l p 2 = skipn 25 l
       ∧ length (pageSlice l p 2) = 5%nat).
Proof.
  intros Hp n t.
  pose proof (ceil_div_bounds n p Hp) as Hb. fold (pageCount n p) in Hb. fold t in Hb.
  split; [exact Hb|]. split; [|split; [|split]].
  - intros ->. subst n t. cbn in Hb |- *. nia.
  - intros Hne. assert (0 < n) by (subst n; destruct l; [congruence | cbn; lia]). nia.
  - intros k Hk. now apply slice_page.
  - intros Hlen ->. assert (Hn : n = 30) by (subst n; lia).
    assert (Ht : t = 2) by lia.
    rewrite !slice_page by lia.
    replace (Z.to_nat ((1 - 1) * 25)) with 0%nat by lia.
    replace (Z.to_nat ((2 - 1) * 25)) with 25%nat by lia.
    replace (Z.to_nat 25) with 25%nat by lia.
    assert (Hrest : length (skipn 25 l) = 5%nat) by (rewrite length_skipn; lia).
    rewrite (firstn_all2 (n := 25) (skipn 25 l)) by lia.
    cbn [skipn]. auto.
Qed.

Lemma page_count_and_pages_witness :
  pageCount 30 25 = 2
  ∧ map id (pageSlice (sampleDeals 30) 25 2) = ["d26"; "d27"; "d28"; "d29"; "d30"].
Proof.
  pose proof (page_count_and_pages (sampleDeals 30) 25 ltac:(lia)) as H.
  cbv zeta in H. destruct H as (_ & _ & _ & _ & H).
  destruct (H eq_refl eq_refl) as (Ht & _ & H2 & _).
  split; [exact Ht | rewrite H2; vm_compute; reflexivity].
Defined.

(** ** FilterEngine *)

(** The scenario of the specification: stages A, A, B, C, A filtered by
    the stage set {A} give the three A records in their original order. *)
Example stage_filter_scenario :
  map id (filteredDeals (stagedView ["A"])) = ["r1"; "r2"; "r5"].
Proof. reflexivity. Qed.

Lemma empty_allowed_matches (dim : Dimension) (f : AdvancedFilterState) (deal : Deal) :
  allowed dim f = [] → matchesDimension dim f deal = true.
Proof. intros H. unfold matchesDimension. now rewrite H. Qed.

Lemma dealPasses_except (s : ViewState) (dim : Dimension) (deal : Deal) :
  allowed dim (filters s) = [] → dealPasses s deal = dealPassesExcept dim s deal.
Proof.
  intros H. pose proof (empty_allowed_matches dim (filters s) deal H) as Hm.
  unfold dealPasses, dealPassesExcept, matchesUnless.
  destruct dim; cbn [dim_eqb orb]; rewrite Hm; reflexivity.
Qed.

(** C6: when the allowed-set of a dimension (stage, region, owner,
    priority, probability bucket, handoff status) is empty, every record
    passes that dimension's test, and the filter result, and with it the
    sorted result, is the one obtained with that dimension's conjunct left
    out of the predicate. *)
Theorem empty_allowed_set_is_no_constraint (s : ViewState) (dim : Dimension) :
  allowed dim (filters s) = [] →
  (∀ deal, matchesDimension dim (filters s) deal = true)
  ∧ filteredDeals s = List.filter (dealPassesExcept dim s) (deals s)
  ∧ filteredAndSortedDeals s
    = Js.sort (compareDeals (sortBy s) (sortOrder s))
        (List.filter (dealPassesExcept dim s) (deals s)).
Proof.
  intros H.
  assert (Hf : filteredDeals s = List.filter (dealPassesExcept dim s) (deals s)).
  { unfold filteredDeals. apply List.filter_ext. intros d. now apply dealPasses_except. }
  split; [intros d; now apply empty_allowed_matches|].
  split; [exact Hf|]. unfold filteredAndSortedDeals. now rewrite Hf.
Qed.

Lemma empty_allowed_set_is_no_constraint_witness :
  map id (filteredDeals (stagedView [])) = ["r1"; "r2"; "r3"; "r4"; "r5"]
  ∧ filteredDeals (stagedView [])
    = List.filter (dealPassesExcept DimStage (stagedView [])) (deals (stagedView [])).
Proof.
  split; [reflexivity|].
  apply (empty_allowed_set_is_no_constraint (stagedView []) DimStage). reflexivity.
Defined.

(** C10: a record without a probability is compared as probability 0
    against both bounds of the range: with the range from -10 to -5 the
    lower bound is at most 0 and the record is excluded all the same. *)
Lemma range_below_zero_excludes_the_missing :
  fst (probabilityRange (rangeBetween (-10) (-5))) <= 0
  ∧ matchesProbabilityRange (rangeBetween (-10) (-5)) (probableDeal "x" None) = false
  ∧ filteredDeals (setFilters (rangeBetween (-10) (-5))
                     (initialView [probableDeal "x" None] NoItem)) = [].
Proof. split; [cbn; lia | split; reflexivity]. Qed.

(** C10 (as amended): a record whose probability is missing, or is 0, is
    compared as probability 0: it passes the range test exactly when the
    lower bound is at most 0 and the upper bound is at least 0, so a range
    whose lower bound is above 0 excludes it; and a record the range test
    rejects is not in the filter result. *)
Theorem missing_probability_counts_as_zero (f : AdvancedFilterState) (deal : Deal) :
  probability deal = None ∨ probability deal = Some 0 →
  (matchesProbabilityRange f deal = true
   ↔ fst (probabilityRange f) <= 0 ∧ 0 <= snd (probabilityRange f))
  ∧ (0 < fst (probabilityRange f) → matchesProbabilityRange f deal = false)
  ∧ (matchesProbabilityRange f deal = false →
       ∀ s, filters s = f → dealPasses s deal = false
                            ∧ ¬ In deal (filteredDeals s)).
Proof.
  intros Hp.
  assert (Hz : or_zero (probability deal) = 0) by (destruct Hp as [-> | ->]; reflexivity).
  unfold matchesProbabilityRange. rewrite Hz.
  destruct (probabilityRange f) as [lo hi] eqn:Hr; cbn [fst snd].
  split; [|split].
  - rewrite andb_true_iff, !Z.leb_le. reflexivity.
  - intros Hlo. destruct (Z.leb_spec lo 0); [lia | reflexivity].
  - intros Hfail s Hs.
    assert (Hd : dealPasses s deal = false).
    { unfold dealPasses, matchesProbabilityRange.
      rewrite Hs, Hr, Hz. cbn [fst snd]. rewrite Hfail. apply andb_false_r. }
    split; [exact Hd|].
    unfold filteredDeals. rewrite List.filter_In. intros [_ Hpass]. congruence.
Qed.

Lemma missing_probability_counts_as_zero_witness :
  matchesProbabilityRange (rangeFrom 10) (probableDeal "x" None) = false
  ∧ matchesProbabilityRange (rangeFrom 0) (probableDeal "x" None) = true.
Proof.
  pose proof (missing_probability_counts_as_zero (rangeFrom 10) (probableDeal "x" None)
                (or_introl eq_refl)) as (_ & H10 & _).
  pose proof (missing_probability_counts_as_zero (rangeFrom 0) (probableDeal "x" None)
                (or_introl eq_refl)) as (H0 & _ & _).
  split.
  - apply H10. cbn. lia.
  - apply H0; cbn; lia.
Defined.

(** ** ColumnConfigStore: the resize gesture *)

(** C9: while a resize is active on a field, a pointer move to pointerX
    sets that field's width to max(80, startWidth + (pointerX - startX));
    a request below 80 gives exactly 80; the other widths are untouched. *)
Theorem resize_clamps_to_80 (s : ViewState) (f : string) (pointerX : Z) :
  isResizing s = Some f → f ≠ "" →
  let s' := handleMouseMove pointerX s in
  let w := Z.max 80 (startWidth s + (pointerX - startX s)) in
  columnWidths s' !! f = Some w
  ∧ widthOf s' f = w
  ∧ 80 <= w
  ∧ (startWidth s + (pointerX - startX s) < 80 → columnWidths s' !! f = Some 80)
  ∧ (∀ g, g ≠ f → columnWidths s' !! g = columnWidths s !! g).
Proof.
  intros Hres Hf s' w.
  assert (Hrf : resizingField s = Some f).
  { unfold resizingField. rewrite Hres. destruct f; [congruence | reflexivity]. }
  assert (Hcw : columnWidths s' = <[f := w]> (columnWidths s)).
  { subst s' w. unfold handleMouseMove. rewrite Hrf. reflexivity. }
  assert (Hw : 80 <= w) by (subst w; lia).
  assert (Hlook : columnWidths s' !! f = Some w) by (rewrite Hcw; apply lookup_insert_eq).
  split; [exact Hlook|]. split; [|split; [exact Hw|split]].
  - unfold widthOf. rewrite Hlook. destruct (Z.eqb_spec w 0); [lia | reflexivity].
  - intros Hlow. rewrite Hlook. f_equal. subst w. lia.
  - intros g Hg. rewrite Hcw. now apply lookup_insert_ne.
Qed.

Lemma resize_clamps_to_80_witness :
  widthOf resizingView "stage" = 120
  ∧ widthOf (handleMouseMove 300 resizingView) "stage" = 80
  ∧ widthOf (handleMouseMove 530 resizingView) "stage" = 150.
Proof.
  split; [reflexivity|]. split.
  - apply (resize_clamps_to_80 resizingView "stage" 300); [reflexivity | discriminate].
  - apply (resize_clamps_to_80 resizingView "stage" 530); [reflexivity | discriminate].
Defined.

(** ** SelectionSet *)

Lemma select_all_selects_filtered (s : ViewState) (x : string) :
  x ∈ selectedDeals (handleSelectAll true s) ↔ x ∈ map id (filteredAndSortedDeals s).
Proof. cbn. apply elem_of_list_to_set. Qed.

(** When everything fits on one page, the page is the whole sorted list
    and select-all selects exactly the rows shown. *)
Lemma select_all_on_a_single_page (s : ViewState) (x : string) :
  (length (filteredAndSortedDeals s) <= 25)%nat → currentPage s = 1 →
  paginatedDeals s = filteredAndSortedDeals s
  ∧ (x ∈ selectedDeals (handleSelectAll true s) ↔ x ∈ visibleIds s).
Proof.
  intros Hlen Hcp.
  assert (Hp : paginatedDeals s = filteredAndSortedDeals s).
  { unfold paginatedDeals. rewrite Hcp, slice_page by (unfold itemsPerPage; lia).
    cbn [skipn Z.to_nat Z.sub Z.mul Z.add Z.opp Z.pos_sub].
    apply firstn_all2. unfold itemsPerPage. lia. }
  split; [exact Hp|]. unfold visibleIds. rewrite Hp. apply select_all_selects_filtered.
Qed.

(** C1: with 30 records and nothing filtered, page 1 shows 25 rows, yet
    select-all selects all 30 identifiers: d26, which is on page 2, is
    selected, and the bulk delete that follows hands all 30 to the
    caller. *)
Theorem select_all_reaches_beyond_the_page :
  let s' := handleSelectAll true view30 in
  length (visibleIds view30) = 25%nat
  ∧ Js.arr_includes (visibleIds view30) "d26" = false
  ∧ size (selectedDeals s') = 30%nat
  ∧ "d26" ∈ selectedDeals s'
  ∧ ∃ ids, calls (handleBulkDelete s') = [OnDeleteDeals ids]
           ∧ length ids = 30%nat ∧ Js.arr_includes ids "d26" = true.
Proof.
  cbv zeta. split; [vm_compute; reflexivity|]. split; [vm_compute; reflexivity|].
  split; [vm_compute; reflexivity|].
  split; [apply (bool_decide_unpack _); vm_compute; exact I|].
  eexists. split; [vm_compute; reflexivity|]. split; vm_compute; reflexivity.
Qed.

(** ** Pagination state *)

Lemma totalPages_filtered (s : ViewState) :
  totalPages s = pageCount (Z.of_nat (length (filteredDeals s))) itemsPerPage.
Proof. unfold totalPages, filteredAndSortedDeals. now rewrite sort_length. Qed.

Lemma filteredDeals_ext (s s' : ViewState) :
  deals s' = deals s → searchTerm s' = searchTerm s →
  leadOwnerFilter s' = leadOwnerFilter s → filters s' = filters s →
  filteredDeals s' = filteredDeals s.
Proof.
  intros Hd Ht Ho Hf. unfold filteredDeals. rewrite Hd.
  apply List.filter_ext. intros d.
  unfold dealPasses, matchesSearch, allSearchTerms, matchesLeadOwnerDropdown.
  now rewrite Ht, Ho, Hf.
Qed.

Lemma totalPages_ext (s s' : ViewState) :
  deals s' = deals s → searchTerm s' = searchTerm s →
  leadOwnerFilter s' = leadOwnerFilter s → filters s' = filters s →
  totalPages s' = totalPages s.
Proof.
  intros. rewrite !totalPages_filtered. f_equal. f_equal. f_equal.
  now apply filteredDeals_ext.
Qed.

(** Case analysis on the tests inside the handlers. *)
Ltac handler_cases :=
  unfold clickHeader, handleSelectAll, handleSelectDeal, handleBulkDelete,
    handleMouseMove, handleMouseUp;
  repeat match goal with
         | |- context [if ?b then _ else _] => destruct b
         | |- context [match ?b with Some _ => _ | None => _ end] => destruct b
         end;
  cbn; auto.

(** What a handler leaves alone. *)
Lemma handle_filter_inputs (e : Event) (s : ViewState) :
  (deals (handle e s) = match e with NewDeals ds => ds | _ => deals s end)
  ∧ (searchTerm (handle e s)
     = match e with SetSearchTerm v => v | ClearAllFilters => "" | _ => searchTerm s end)
  ∧ (leadOwnerFilter (handle e s)
     = match e with SetLeadOwnerFilter v => v | _ => leadOwnerFilter s end)
  ∧ (filters (handle e s)
     = match e with SetFilters f => f | ClearAllFilters => clearedFilters | _ => filters s end).
Proof.
  destruct e; cbn; unfold clickPrevious, clickNext; handler_cases.
Qed.

Lemma handle_currentPage (e : Event) (s : ViewState) :
  currentPage (handle e s)
  = match e with
    | ClickPrevious => currentPage (clickPrevious s)
    | ClickNext => currentPage (clickNext s)
    | _ => currentPage s
    end.
Proof.
  destruct e; cbn; handler_cases.
Qed.

Lemma resetPageEffect_currentPage (e : Event) (s t : ViewState) :
  currentPage (resetPageEffect e s t) = 1 ∨
  (replacesFilters e = false ∧ searchTerm t = searchTerm s
   ∧ leadOwnerFilter t = leadOwnerFilter s ∧ resetPageEffect e s t = t).
Proof.
  unfold resetPageEffect.
  destruct (replacesFilters e); [left; reflexivity|].
  destruct (String.eqb_spec (searchTerm s) (searchTerm t)); [|left; reflexivity].
  destruct (String.eqb_spec (leadOwnerFilter s) (leadOwnerFilter t)); [|left; reflexivity].
  right. cbn. auto.
Qed.

Lemma resetPageEffect_filter_inputs (e : Event) (s t : ViewState) :
  deals (resetPageEffect e s t) = deals t
  ∧ searchTerm (resetPageEffect e s t) = searchTerm t
  ∧ leadOwnerFilter (resetPageEffect e s t) = leadOwnerFilter t
  ∧ filters (resetPageEffect e s t) = filters t
  ∧ sortBy (resetPageEffect e s t) = sortBy t
  ∧ sortOrder (resetPageEffect e s t) = sortOrder t.
Proof. unfold resetPageEffect. destruct (_ || _ || _); cbn; auto 10. Qed.

Lemma clickPrevious_range (s : ViewState) :
  1 <= currentPage s →
  1 <= currentPage (clickPrevious s) <= currentPage s.
Proof.
  intros H. unfold clickPrevious. destruct (_ && _); cbn; lia.
Qed.

Lemma clickNext_range (s : ViewState) :
  1 <= currentPage s →
  1 <= currentPage (clickNext s)
  ∧ (currentPage s <= Z.max 1 (totalPages s) →
     currentPage (clickNext s) <= Z.max 1 (totalPages s)).
Proof.
  intros H. unfold clickNext.
  destruct (Z.ltb_spec 0 (totalPages s)); cbn [andb]; [|cbn; lia].
  destruct (_ =? _); cbn; lia.
Qed.

(** A step keeps currentPage at or above 1. *)
Lemma step_page_lower (s : ViewState) (e : Event) :
  1 <= currentPage s → 1 <= currentPage (step s e).
Proof.
  intros Hlo. unfold step.
  pose proof (handle_currentPage e s) as Hcp.
  pose proof (clickPrevious_range s Hlo) as Hprev.
  pose proof (clickNext_range s Hlo) as [Hnext _].
  destruct (resetPageEffect_currentPage e s (handle e s)) as [-> | (_ & _ & _ & ->)];
    [lia|].
  rewrite Hcp. destruct e; lia.
Qed.

(** A step that does not replace the record collection keeps currentPage
    at or below max(1, totalPages): either the page is reset, or the
    inputs of the filter, and with them totalPages, are what they were. *)
Lemma step_page_upper (s : ViewState) (e : Event) :
  1 <= currentPage s → (∀ ds, e ≠ NewDeals ds) →
  currentPage s <= Z.max 1 (totalPages s) →
  currentPage (step s e) <= Z.max 1 (totalPages (step s e)).
Proof.
  intros Hlo Hnew Hhi. unfold step.
  destruct (handle_filter_inputs e s) as (Hd & _ & _ & Hf).
  pose proof (handle_currentPage e s) as Hcp.
  pose proof (clickPrevious_range s Hlo) as Hprev.
  pose proof (clickNext_range s Hlo) as [_ Hnext].
  destruct (resetPageEffect_currentPage e s (handle e s)) as [-> | (He & Et & Eo & ->)];
    [lia|].
  assert (Etp : totalPages (handle e s) = totalPages s).
  { apply totalPages_ext; try assumption.
    - rewrite Hd. destruct e; try reflexivity. now destruct (Hnew ds).
    - rewrite Hf. destruct e; try reflexivity; discriminate He. }
  rewrite Etp, Hcp. destruct e; try exact Hhi; [lia | now apply Hnext].
Qed.

(** Along any sequence of events in which the caller does not replace the
    record collection, currentPage stays within [1, max(1, totalPages)]. *)
Lemma run_page_in_range (es : list Event) (s : ViewState) :
  Forall (fun e => ∀ ds, e ≠ NewDeals ds) es →
  1 <= currentPage s <= Z.max 1 (totalPages s) →
  1 <= currentPage (run s es) <= Z.max 1 (totalPages (run s es)).
Proof.
  unfold run. revert s. induction es as [|e es IH]; intros s Hes [Hlo Hhi]; [cbn; lia|].
  inversion Hes as [|e' es' He Hrest]; subst.
  cbn [fold_left]. apply IH; [exact Hrest|].
  split; [now apply step_page_lower | now apply step_page_upper].
Qed.

(** C3 (as amended): from a state with currentPage >= 1, every event
    leaves currentPage >= 1; a change of the filter state, the search term
    or the lead-owner selection resets it to 1; a click on a column header
    changes the sort only and leaves both currentPage and totalPages as
    they were; and every event other than the arrival of a new record
    collection keeps currentPage <= max(1, totalPages). *)
Theorem page_stays_in_range (s : ViewState) (e : Event) :
  1 <= currentPage s →
  let s' := step s e in
  1 <= currentPage s'
  ∧ (filters s' ≠ filters s ∨ searchTerm s' ≠ searchTerm s
     ∨ leadOwnerFilter s' ≠ leadOwnerFilter s → currentPage s' = 1)
  ∧ (∀ field, e = ClickHeader field →
       currentPage s' = currentPage s ∧ totalPages s' = totalPages s)
  ∧ ((∀ ds, e ≠ NewDeals ds) →
     currentPage s <= Z.max 1 (totalPages s) →
     currentPage s' <= Z.max 1 (totalPages s')).
Proof.
  intros Hlo s'. subst s'.
  split; [now apply step_page_lower|].
  split; [|split; [|intros Hnew Hhi; now apply step_page_upper]]; unfold step.
  - (* a changed dependency of the effect resets the page *)
    destruct (handle_filter_inputs e s) as (_ & _ & _ & Hf).
    destruct (resetPageEffect_filter_inputs e s (handle e s)) as (_ & Rt & Ro & Rf & _ & _).
    rewrite Rf, Rt, Ro.
    destruct (resetPageEffect_currentPage e s (handle e s)) as [-> | (He & Et & Eo & _)];
      [reflexivity|].
    intros [Hne | [Hne | Hne]]; try congruence.
    exfalso. apply Hne. rewrite Hf. destruct e; try reflexivity; discriminate He.
  - (* the header click touches the sort state only *)
    intros field ->. cbn [handle]. split.
    + unfold resetPageEffect, clickHeader. cbn [replacesFilters orb].
      destruct (String.eqb (sortBy s) field); cbn; rewrite !String.eqb_refl; reflexivity.
    + destruct (handle_filter_inputs (ClickHeader field) s) as (Hd & Ht & Ho & Hf).
      destruct (resetPageEffect_filter_inputs (ClickHeader field) s
                  (handle (ClickHeader field) s)) as (Rd & Rt & Ro & Rf & _ & _).
      cbn [handle] in *. apply totalPages_ext; congruence.
Qed.

Lemma page_stays_in_range_witness :
  currentPage view30page2 = 2
  ∧ currentPage (step view30page2 (SetSearchTerm "d1")) = 1.
Proof.
  assert (H2 : currentPage view30page2 = 2) by (vm_compute; reflexivity).
  split; [exact H2|].
  assert (Hlo : 1 <= currentPage view30page2) by (rewrite H2; lia).
  pose proof (page_stays_in_range view30page2 (SetSearchTerm "d1") Hlo) as (_ & Hreset & _).
  apply Hreset. right. left. vm_compute. discriminate.
Defined.

(** C3: on page 2 of 30 records, a click on the Stage header changes the
    sort field and leaves currentPage at 2, not 1; and when the caller
    then passes only 25 records, totalPages becomes 1 while currentPage
    stays 2, above max(1, totalPages), and the page shown is empty. *)
Lemma sort_click_keeps_the_page :
  1 <= currentPage view30page2 <= Z.max 1 (totalPages view30page2)
  ∧ sortBy (step view30page2 (ClickHeader "stage")) ≠ sortBy view30page2
  ∧ currentPage (step view30page2 (ClickHeader "stage")) ≠ 1
  ∧ totalPages (step view30page2 (NewDeals (sampleDeals 25))) = 1
  ∧ ¬ (currentPage (step view30page2 (NewDeals (sampleDeals 25)))
       <= Z.max 1 (totalPages (step view30page2 (NewDeals (sampleDeals 25)))))
  ∧ paginatedDeals (step view30page2 (NewDeals (sampleDeals 25))) = [].
Proof.
  assert (H2 : currentPage view30page2 = 2) by (vm_compute; reflexivity).
  assert (Ht : totalPages view30page2 = 2) by (vm_compute; reflexivity).
  assert (Hc : currentPage (step view30page2 (ClickHeader "stage")) = 2)
    by (vm_compute; reflexivity).
  assert (Hn : currentPage (step view30page2 (NewDeals (sampleDeals 25))) = 2)
    by (vm_compute; reflexivity).
  assert (Hnt : totalPages (step view30page2 (NewDeals (sampleDeals 25))) = 1)
    by (vm_compute; reflexivity).
  rewrite H2, Ht, Hc, Hn, Hnt.
  split; [lia|]. split; [vm_compute; discriminate|]. split; [lia|].
  split; [reflexivity|]. split; [lia|]. vm_compute. reflexivity.
Qed.

(** ** SortEngine: missing values *)

Lemma sortValue_numeric (key : string) (d : Deal) :
  Js.arr_includes numericKeys key || Js.arr_includes currencyKeys key = true →
  sortValue key d = SNum (or_zero (numField key d)).
Proof.
  intros H. unfold sortValue.
  destruct (Js.arr_includes numericKeys key); [reflexivity|].
  cbn [orb] in H. now rewrite H.
Qed.

Lemma sortValue_date (key : string) (d : Deal) :
  Js.arr_includes dateKeys key = true →
  sortValue key d = SDate (newDate (dateField key d)).
Proof.
  intros H. unfold dateKeys in H. cbn [Js.arr_includes] in H.
  repeat (apply orb_prop in H as [H | H]); try discriminate;
    apply String.eqb_eq in H; subst key; reflexivity.
Qed.

Lemma compareDeals_sortValue (key : string) (order : SortOrder) (a a' b b' : Deal) :
  sortValue key a = sortValue key a' → sortValue key b = sortValue key b' →
  compareDeals key order a b = compareDeals key order a' b'.
Proof. intros Ha Hb. unfold compareDeals. now rewrite Ha, Hb. Qed.

(** C4: a record whose modification date is an unparsable string does not
    compare as the epoch: the epoch record sorts before a later one, the
    unparsable one ties with it and stays behind it. *)
Lemma unparsable_date_is_not_epoch :
  compareDeals "modified_at" asc epochDeal lateDeal = -1
  ∧ compareDeals "modified_at" asc badDateDeal lateDeal = 0
  ∧ map id (Js.sort (compareDeals "modified_at" asc) [lateDeal; epochDeal]) = ["epoch"; "late"]
  ∧ map id (Js.sort (compareDeals "modified_at" asc) [lateDeal; badDateDeal]) = ["late"; "bad"]
  ∧ map id (Js.sort_v8 (compareDeals "modified_at" asc) [lateDeal; epochDeal])
    = ["epoch"; "late"]
  ∧ map id (Js.sort_v8 (compareDeals "modified_at" asc) [lateDeal; badDateDeal])
    = ["late"; "bad"].
Proof. repeat split; reflexivity. Qed.

(** ** InlineEditDispatcher *)

(** C7: a rejected edit of the probability cell raises the notice "Update
    failed" / "Failed to update deal field", which does not contain the
    field's name; the rejected edit of another field raises the very same
    notice. *)
Lemma failure_notice_does_not_name_the_field :
  toasts (handleInlineEdit rejectAll "d1" "probability" (ENumber 40) view30)
    = [updateFailedToast]
  ∧ toastNames updateFailedToast "probability" = false
  ∧ toasts (handleInlineEdit rejectAll "d1" "stage" (EText "Won") view30)
    = toasts (handleInlineEdit rejectAll "d1" "probability" (ENumber 40) view30).
Proof. repeat split; reflexivity. Qed.

(** C7 (as amended): when the caller's update rejects a submitted edit,
    the fixed notice "Update failed" is appended, whatever the field; the
    callback has been called once, with the submitted record, field and
    value; nothing else in the state changes, so the records, the sorted
    list and the page shown are what they were. *)
Theorem rejected_edit_changes_nothing
    (onUpdateDeal : string → string → EditValue → UpdateOutcome)
    (dealId field : string) (value : EditValue) (s : ViewState) :
  onUpdateDeal dealId field value = Rejected →
  let s' := handleInlineEdit onUpdateDeal dealId field value s in
  toasts s' = (toasts s ++ [updateFailedToast])%list
  ∧ calls s' = (calls s ++ [OnUpdateDeal dealId field value])%list
  ∧ setToasts (toasts s) (setCalls (calls s) s') = s
  ∧ deals s' = deals s
  ∧ filteredAndSortedDeals s' = filteredAndSortedDeals s
  ∧ paginatedDeals s' = paginatedDeals s.
Proof.
  intros Hrej s'. subst s'. unfold handleInlineEdit. rewrite Hrej.
  destruct s; repeat split; reflexivity.
Qed.

Lemma rejected_edit_changes_nothing_witness :
  toasts (handleInlineEdit rejectAll "d1" "stage" (EText "Won") view30) = [updateFailedToast]
  ∧ calls (handleInlineEdit rejectAll "d1" "stage" (EText "Won") view30)
    = [OnUpdateDeal "d1" "stage" (EText "Won")].
Proof.
  pose proof (rejected_edit_changes_nothing rejectAll "d1" "stage" (EText "Won") view30
                eq_refl) as (Ht & Hc & _).
  split; [exact Ht | exact Hc].
Defined.

(** ** ColumnConfigStore: loading the saved widths *)

(** C8: a saved map with a width for the project column only replaces the
    whole width map: the project column gets 300, the customer column
    falls to the 120 fallback instead of its default 150, the loaded map
    is not the merge over the defaults, and the entry of a field the view
    does not have is kept. *)
Lemma saved_widths_replace_the_defaults :
  widthOf (initialView [] (ParsedWidths partialSaved)) "customer_name" = 150
  ∧ widthOf (loadColumnWidths (initialView [] (ParsedWidths partialSaved))) "project_name" = 300
  ∧ widthOf (loadColumnWidths (initialView [] (ParsedWidths partialSaved))) "customer_name" = 120
  ∧ mergeOverDefaults partialSaved !! "customer_name" = Some 150
  ∧ columnWidths (loadColumnWidths (initialView [] (ParsedWidths partialSaved)))
    ≠ mergeOverDefaults partialSaved
  ∧ columnWidths (loadColumnWidths (initialView [] (ParsedWidths partialSaved)))
      !! "legacy_column" = Some 99
  ∧ mergeOverDefaults partialSaved !! "legacy_column" = None.
Proof.
  split; [vm_compute; reflexivity|]. split; [vm_compute; reflexivity|].
  split; [vm_compute; reflexivity|]. split; [vm_compute; reflexivity|].
  split; [|split; vm_compute; reflexivity].
  intros E. apply (f_equal (fun m : gmap string Z => m !! "customer_name")) in E.
  vm_compute in E. discriminate E.
Qed.

(** What a finished resize writes is what the next load reads back. *)
Lemma saved_widths_round_trip (s : ViewState) (f : string) :
  isResizing s = Some f → f ≠ "" →
  storedWidths (handleMouseUp s) = ParsedWidths (columnWidths s)
  ∧ isResizing (handleMouseUp s) = None
  ∧ columnWidths (loadColumnWidths (handleMouseUp s)) = columnWidths s.
Proof.
  intros Hres Hf. unfold handleMouseUp, resizingField. rewrite Hres.
  destruct f; [congruence|]. cbn. auto.
Qed.

(** C8 (as amended): at startup a saved text that parses replaces the
    width map as a whole: a field it gives a non-zero width gets that
    width, a field it does not mention is shown at the 120 fallback, and
    its other entries stay in the map; a saved text that does not parse
    leaves the widths as they are (the defaults, at startup) and adds one
    line to the console and no notice; and when nothing is saved the
    state is unchanged. *)
Theorem load_replaces_or_keeps_defaults (s : ViewState) :
  let s' := loadColumnWidths s in
  (∀ parsed, storedWidths s = ParsedWidths parsed →
     columnWidths s' = parsed
     ∧ (∀ f w, parsed !! f = Some w → w ≠ 0 → widthOf s' f = w)
     ∧ (∀ f, parsed !! f = None → widthOf s' f = 120)
     ∧ consoleErrors s' = consoleErrors s ∧ toasts s' = toasts s)
  ∧ (∀ raw, storedWidths s = Malformed raw →
       columnWidths s' = columnWidths s
       ∧ (∀ f, widthOf s' f = widthOf s f)
       ∧ consoleErrors s' = (consoleErrors s ++ ["Failed to parse saved column widths:"])%list
       ∧ toasts s' = toasts s)
  ∧ (storedWidths s = NoItem → s' = s).
Proof.
  intros s'. subst s'. unfold loadColumnWidths. split; [|split].
  - intros parsed ->. cbn. split; [reflexivity|].
    split; [|split; [|split; reflexivity]].
    + intros f w Hf Hw. unfold widthOf. cbn. rewrite Hf.
      destruct (Z.eqb_spec w 0); [contradiction | reflexivity].
    + intros f Hf. unfold widthOf. cbn. now rewrite Hf.
  - intros raw ->. cbn. repeat split; reflexivity.
  - intros ->. reflexivity.
Qed.

Lemma load_replaces_or_keeps_defaults_witness :
  columnWidths (loadColumnWidths (initialView [] (Malformed "{oops"))) = defaultColumnWidths
  ∧ consoleErrors (loadColumnWidths (initialView [] (Malformed "{oops")))
    = ["Failed to parse saved column widths:"]
  ∧ widthOf (loadColumnWidths (initialView [] (ParsedWidths partialSaved))) "stage" = 120.
Proof.
  pose proof (load_replaces_or_keeps_defaults (initialView [] (Malformed "{oops")))
    as (_ & Hbad & _).
  pose proof (load_replaces_or_keeps_defaults (initialView [] (ParsedWidths partialSaved)))
    as (Hok & _ & _).
  destruct (Hbad "{oops" eq_refl) as (Hw & _ & Hc & _).
  destruct (Hok partialSaved eq_refl) as (_ & _ & Hnone & _).
  split; [exact Hw|]. split; [exact Hc|].
  apply Hnone. vm_compute. reflexivity.
Defined.

(** * Further properties of the list view *)

(** ** The built-in sort puts its input in order *)

Section SortOrderFacts.
Context {A : Type} (cmp : A → A → Z) (Q : A → Prop).
Hypothesis cmp_total : ∀ a b, Q a → Q b → cmp a b <= 0 ∨ cmp b a <= 0.
Hypothesis cmp_trans : ∀ a b c, Q a → Q b → Q c → cmp a b <= 0 → cmp b c <= 0 → cmp a c <= 0.

Lemma insert_sorted_Forall (P : A → Prop) (x : A) (l : list A) :
  P x → Forall P l → Forall P (Js.insert_sorted cmp x l).
Proof.
  intros Hx Hl. induction Hl as [|y r Hy Hr IH]; cbn; [auto|].
  destruct (cmp x y <=? 0); auto.
Qed.

Lemma sort_Forall (P : A → Prop) (l : list A) :
  Forall P l → Forall P (Js.sort cmp l).
Proof.
  induction 1 as [|x r Hx Hr IH]; cbn; [constructor|].
  now apply insert_sorted_Forall.
Qed.

Lemma insert_sorted_ordered (x : A) (l : list A) :
  Q x → Forall Q l →
  StronglySorted (fun a b => cmp a b <= 0) l →
  StronglySorted (fun a b => cmp a b <= 0) (Js.insert_sorted cmp x l).
Proof.
  intros Qx Ql Hs. induction Hs as [|y r Hr IH Hy]; cbn.
  - repeat constructor.
  - inversion Ql as [|y' r' Qy Qr]; subst.
    destruct (Z.leb_spec (cmp x y) 0) as [Hle|Hgt].
    + constructor; [now constructor|]. constructor; [exact Hle|].
      rewrite Forall_forall in Hy, Qr |- *. intros z Hz.
      apply (cmp_trans x y z); auto.
    + constructor; [now apply IH|].
      apply insert_sorted_Forall; [|exact Hy].
      destruct (cmp_total x y Qx Qy); [lia | assumption].
Qed.

Lemma sort_ordered (l : list A) :
  Forall Q l → StronglySorted (fun a b => cmp a b <= 0) (Js.sort cmp l).
Proof.
  induction 1 as [|x r Qx Qr IH]; cbn; [constructor|].
  apply insert_sorted_ordered; [exact Qx | now apply sort_Forall | exact IH].
Qed.

End SortOrderFacts.

(** ** The comparator is an order *)

Lemma ascii_compare_lt_trans (a b c : ascii) :
  Ascii.compare a b = Lt → Ascii.compare b c = Lt → Ascii.compare a c = Lt.
Proof.
  unfold Ascii.compare. rewrite !N.compare_lt_iff. apply N.lt_trans.
Qed.

Lemma ascii_compare_refl (a : ascii) : Ascii.compare a a = Eq.
Proof. unfold Ascii.compare. apply N.compare_refl. Qed.

Lemma string_compare_lt_trans (a b c : string) :
  String.compare a b = Lt → String.compare b c = Lt → String.compare a c = Lt.
Proof.
  revert b c. induction a as [|x a IH]; intros [|y b] [|z c]; cbn; try congruence.
  destruct (Ascii.compare x y) eqn:Hxy, (Ascii.compare y z) eqn:Hyz; try congruence.
  - apply Ascii.compare_eq_iff in Hxy, Hyz. subst.
    rewrite ascii_compare_refl. apply IH.
  - apply Ascii.compare_eq_iff in Hxy. subst. now rewrite Hyz.
  - apply Ascii.compare_eq_iff in Hyz. subst. now rewrite Hxy.
  - now rewrite (ascii_compare_lt_trans x y z Hxy Hyz).
Qed.

Lemma string_ltb_asym (a b : string) : String.ltb a b = true → String.ltb b a = false.
Proof.
  unfold String.ltb. rewrite (String.compare_antisym b a).
  destruct (String.compare a b); cbn; congruence.
Qed.

(** [b < a] false and [c < b] false give [c < a] false. *)
Lemma string_not_ltb_trans (a b c : string) :
  String.ltb b a = false → String.ltb c b = false → String.ltb c a = false.
Proof.
  unfold String.ltb. intros Hba Hcb.
  destruct (String.compare c a) eqn:Hca; try reflexivity. exfalso.
  destruct (String.compare b a) eqn:Eba; try discriminate.
  - apply String.compare_eq_iff in Eba. subst. now rewrite Hca in Hcb.
  - destruct (String.compare c b) eqn:Ecb; try discriminate.
    + apply String.compare_eq_iff in Ecb. subst. congruence.
    + (* a < b < c < a *)
      assert (Hab : String.compare a b = Lt)
        by (rewrite String.compare_antisym, Eba; reflexivity).
      assert (Hbc : String.compare b c = Lt)
        by (rewrite String.compare_antisym, Ecb; reflexivity).
      pose proof (string_compare_lt_trans a b c Hab Hbc) as Hac.
      rewrite String.compare_antisym, Hca in Hac. discriminate.
Qed.

Lemma js_lt_asym (x y : SortValue) : js_lt x y = true → js_lt y x = false.
Proof.
  destruct x as [a|[a|]|a], y as [b|[b|]|b]; cbn; try congruence;
    try (intros H; apply Z.ltb_lt in H; apply Z.ltb_ge; lia).
  apply string_ltb_asym.
Qed.

Lemma sortValue_sameKind (key : string) (a b : Deal) :
  sameKind (sortValue key a) (sortValue key b).
Proof.
  unfold sortValue.
  destruct (Js.arr_includes numericKeys key); [exact I|].
  destruct (Js.arr_includes currencyKeys key); [exact I|].
  destruct (Js.arr_includes dateKeys key); exact I.
Qed.

Lemma js_not_lt_trans (x y z : SortValue) :
  sameKind x y → sameKind y z → y ≠ SDate None →
  js_lt y x = false → js_lt z y = false → js_lt z x = false.
Proof.
  destruct x as [a|[a|]|a], y as [b|[b|]|b], z as [c|[c|]|c]; cbn;
    try tauto; try congruence; intros _ _ _.
  - rewrite !Z.ltb_ge. lia.
  - rewrite !Z.ltb_ge. lia.
  - apply string_not_ltb_trans.
Qed.

Lemma compareDeals_le (key : string) (dir : SortOrder) (a b : Deal) :
  compareDeals key dir a b <= 0 ↔ inSortOrder key dir a b.
Proof.
  unfold compareDeals, inSortOrder, js_gt.
  destruct dir;
    destruct (js_lt (sortValue key a) (sortValue key b)) eqn:Hab;
    destruct (js_lt (sortValue key b) (sortValue key a)) eqn:Hba;
    try (apply js_lt_asym in Hab; congruence);
    split; intros; try lia; congruence.
Qed.

Lemma sortValue_invalid (key : string) (d : Deal) :
  sortValue key d = SDate None → dateField key d = Some InvalidDate.
Proof.
  unfold sortValue.
  destruct (Js.arr_includes numericKeys key); [discriminate|].
  destruct (Js.arr_includes currencyKeys key); [discriminate|].
  destruct (Js.arr_includes dateKeys key); [|discriminate].
  destruct (dateField key d) as [[t|]|]; cbn; congruence.
Qed.

Lemma StronglySorted_weaken {A} (R R' : A → A → Prop) (l : list A) :
  (∀ a b, R a b → R' a b) → StronglySorted R l → StronglySorted R' l.
Proof.
  intros HR. induction 1 as [|x r Hr IH Hx]; constructor; [exact IH|].
  eapply Forall_impl; [exact Hx|]. auto.
Qed.

(** ** SortEngine: where the records without a value go *)

Lemma sort_in_order (key : string) (dir : SortOrder) (l : list Deal) :
  Forall (fun d => sortValue key d ≠ SDate None) l →
  StronglySorted (inSortOrder key dir) (Js.sort (compareDeals key dir) l).
Proof.
  intros Hvalid.
  apply (StronglySorted_weaken (fun a b => compareDeals key dir a b <= 0)).
  { intros a b. apply compareDeals_le. }
  apply (sort_ordered _ (fun d => sortValue key d ≠ SDate None)); [| |exact Hvalid].
  - intros a b _ _. rewrite !compareDeals_le. unfold inSortOrder.
    destruct dir; destruct (js_lt (sortValue key a) (sortValue key b)) eqn:Hab;
      [left; now apply js_lt_asym | right; reflexivity
      |right; now apply js_lt_asym | left; reflexivity].
  - intros a b c _ Qb _. rewrite !compareDeals_le. unfold inSortOrder.
    destruct dir; intros H1 H2;
      apply (js_not_lt_trans _ (sortValue key b)); auto using sortValue_sameKind.
Qed.

Lemma StronglySorted_precedes {A} (R : A → A → Prop) (a b : A) (l : list A) :
  StronglySorted R l → precedes a b l → R a b.
Proof.
  intros Hs (l1 & l2 & l3 & ->).
  induction l1 as [|x l1 IH]; cbn in Hs; apply StronglySorted_inv in Hs as [Hs Hall].
  - rewrite List.Forall_forall in Hall. apply Hall.
    apply in_or_app. right. left. reflexivity.
  - apply IH, Hs.
Qed.

(** In a list whose sort values are all comparable, a record is never
    placed behind one that the chosen direction puts strictly after it. *)
Lemma never_behind (key : string) (dir : SortOrder) (l : list Deal) (first second : Deal) :
  Forall (fun d => sortValue key d ≠ SDate None) l →
  js_lt (sortValue key second) (sortValue key first)
  = match dir with asc => true | desc => false end →
  js_lt (sortValue key first) (sortValue key second)
  = match dir with asc => false | desc => true end →
  ¬ precedes first second (Js.sort (compareDeals key dir) l).
Proof.
  intros Hvalid H1 H2 Hp.
  pose proof (StronglySorted_precedes _ _ _ _ (sort_in_order key dir l Hvalid) Hp) as Hord.
  unfold inSortOrder in Hord. destruct dir; congruence.
Qed.

(** C4 (as amended): on a numeric sort field (priority, probability,
    duration, contract value, revenue) a record without the field has the
    sort value 0 and compares exactly like a record whose field is 0; on a
    date sort field a record without the field has the time value 0 and
    compares exactly like a record dated at the epoch.  So in the sorted
    list, the dates of the sort field all being parsable, a record without
    the field is never behind a record with a value above 0 (a date after
    the epoch) when the order is ascending, and never before one when it
    is descending. *)
Theorem missing_sort_field_defaults
    (key : string) (order : SortOrder) (d d0 other : Deal) (l : list Deal) :
  (Js.arr_includes numericKeys key || Js.arr_includes currencyKeys key = true →
   numField key d = None → numField key d0 = Some 0 →
   sortValue key d = SNum 0
   ∧ compareDeals key order d other = compareDeals key order d0 other
   ∧ compareDeals key order other d = compareDeals key order other d0
   ∧ (∀ v, 0 < v → numField key other = Some v →
        ¬ precedes other d (Js.sort (compareDeals key asc) l)
        ∧ ¬ precedes d other (Js.sort (compareDeals key desc) l)))
  ∧ (Js.arr_includes dateKeys key = true →
     dateField key d = None → dateField key d0 = Some (ValidDate 0) →
     sortValue key d = SDate (Some 0)
     ∧ compareDeals key order d other = compareDeals key order d0 other
     ∧ compareDeals key order other d = compareDeals key order other d0
     ∧ (Forall (fun x => dateField key x ≠ Some InvalidDate) l →
        ∀ t, 0 < t → dateField key other = Some (ValidDate t) →
          ¬ precedes other d (Js.sort (compareDeals key asc) l)
          ∧ ¬ precedes d other (Js.sort (compareDeals key desc) l))).
Proof.
  split.
  - intros Hk Hd Hd0.
    assert (Hv : sortValue key d = SNum 0) by (rewrite sortValue_numeric, Hd; auto).
    assert (Hv0 : sortValue key d0 = SNum 0) by (rewrite sortValue_numeric, Hd0; auto).
    split; [exact Hv|].
    split; [apply compareDeals_sortValue; congruence|].
    split; [apply compareDeals_sortValue; congruence|].
    intros v Hpos Ho.
    assert (Hvo : sortValue key other = SNum v) by (rewrite sortValue_numeric, Ho; auto).
    assert (Hvalid : Forall (fun x => sortValue key x ≠ SDate None) l).
    { apply List.Forall_forall. intros x _. now rewrite sortValue_numeric. }
    split; apply never_behind; try exact Hvalid; rewrite Hv, Hvo; cbn [js_lt];
      first [apply Z.ltb_lt | apply Z.ltb_ge]; lia.
  - intros Hk Hd Hd0.
    assert (Hv : sortValue key d = SDate (Some 0)) by (rewrite sortValue_date, Hd; auto).
    assert (Hv0 : sortValue key d0 = SDate (Some 0)) by (rewrite sortValue_date, Hd0; auto).
    split; [exact Hv|].
    split; [apply compareDeals_sortValue; congruence|].
    split; [apply compareDeals_sortValue; congruence|].
    intros Hparse t Hpos Ho.
    assert (Hvo : sortValue key other = SDate (Some t))
      by (rewrite sortValue_date, Ho; auto).
    assert (Hvalid : Forall (fun x => sortValue key x ≠ SDate None) l).
    { eapply Forall_impl; [exact Hparse|].
      intros x Hx Hnan. cbn in Hx. apply Hx. now apply sortValue_invalid. }
    split; apply never_behind; try exact Hvalid; rewrite Hv, Hvo; cbn [js_lt];
      first [apply Z.ltb_lt | apply Z.ltb_ge]; lia.
Qed.

Lemma missing_sort_field_defaults_witness :
  sortValue "total_contract_value" (valuedDeal "b" None) = SNum 0
  ∧ sortValue "modified_at" (modifiedDeal "m" None) = SDate (Some 0)
  ∧ map id (Js.sort (compareDeals "modified_at" asc)
              [lateDeal; modifiedDeal "m" None; epochDeal]) = ["m"; "epoch"; "late"]
  ∧ ¬ precedes lateDeal (modifiedDeal "m" None)
        (Js.sort (compareDeals "modified_at" asc)
           [lateDeal; modifiedDeal "m" None; epochDeal]).
Proof.
  pose proof (missing_sort_field_defaults "total_contract_value" asc
                (valuedDeal "b" None) (valuedDeal "z" (Some 0)) (valuedDeal "a" (Some 100))
                [])
    as (Hnum & _).
  pose proof (missing_sort_field_defaults "modified_at" asc
                (modifiedDeal "m" None) epochDeal lateDeal
                [lateDeal; modifiedDeal "m" None; epochDeal]) as (_ & Hdate).
  destruct (Hnum eq_refl eq_refl eq_refl) as (Hn & _).
  destruct (Hdate eq_refl eq_refl eq_refl) as (Hd & _ & _ & Hlist).
  split; [exact Hn|]. split; [exact Hd|]. split; [reflexivity|].
  apply (Hlist ltac:(repeat constructor; discriminate) 1000 ltac:(lia) eq_refl).
Defined.

(** ** SortEngine: stability, and the sort as V8 runs it *)

Section SortV8Facts.
Context {A : Type} (cmp : A → A → Z) (Q : A → Prop).
Hypothesis cmp_swap : ∀ a b, cmp b a = - cmp a b.
Hypothesis cmp_trans :
  ∀ a b c, Q a → Q b → Q c → cmp a b <= 0 → cmp b c <= 0 → cmp a c <= 0.

Lemma cmp_lt_le_trans (a b c : A) :
  Q a → Q b → Q c → cmp a b < 0 → cmp b c <= 0 → cmp a c < 0.
Proof.
  intros Qa Qb Qc Hab Hbc.
  destruct (Z.lt_ge_cases (cmp a c) 0) as [|Hge]; [assumption|exfalso].
  assert (Hca : cmp c a <= 0) by (rewrite (cmp_swap a c); lia).
  pose proof (cmp_trans b c a Qb Qc Qa Hbc Hca) as Hba.
  rewrite (cmp_swap a b) in Hba. lia.
Qed.

Lemma cmp_total_swap (a b : A) : cmp a b <= 0 ∨ cmp b a <= 0.
Proof. rewrite (cmp_swap a b). lia. Qed.

(** In a sorted list the elements that come strictly after [x] are a
    suffix, the others a prefix. *)
Lemma sorted_after_suffix (x : A) (p : list A) (mid : nat) :
  Q x → Forall Q p → StronglySorted (fun a b => cmp a b <= 0) p →
  (mid < length p)%nat → (cmp x (nth mid p x) <? 0) = true →
  Forall (fun y => (cmp x y <? 0) = true) (skipn mid p).
Proof.
  intros Qx Qp Hs. revert mid.
  induction Hs as [|y r Hr IH Hy]; intros mid Hmid Hlt; [cbn in Hmid; lia|].
  inversion Qp as [|y' r' Qy Qr]; subst.
  destruct mid as [|m]; cbn in Hlt |- *.
  - constructor; [exact Hlt|].
    apply Z.ltb_lt in Hlt.
    rewrite List.Forall_forall in Hy, Qr |- *. intros z Hz.
    apply Z.ltb_lt. apply (cmp_lt_le_trans x y z); auto.
  - apply IH; [exact Qr | cbn in Hmid; lia | exact Hlt].
Qed.

Lemma sorted_before_prefix (x : A) (p : list A) (mid : nat) :
  Q x → Forall Q p → StronglySorted (fun a b => cmp a b <= 0) p →
  (mid < length p)%nat → (cmp x (nth mid p x) <? 0) = false →
  Forall (fun y => (cmp x y <? 0) = false) (firstn (S mid) p).
Proof.
  intros Qx Qp Hs. revert mid.
  induction Hs as [|y r Hr IH Hy]; intros mid Hmid Hge; [cbn in Hmid; lia|].
  inversion Qp as [|y' r' Qy Qr]; subst.
  destruct mid as [|m].
  - cbn in Hge |- *. constructor; [exact Hge | constructor].
  - cbn [nth] in Hge. cbn [firstn]. cbn [length] in Hmid.
    constructor; [|apply IH; [exact Qr | lia | exact Hge]].
    apply Z.ltb_ge. apply Z.ltb_ge in Hge.
    destruct (Z.lt_ge_cases (cmp x y) 0) as [Hlt|]; [exfalso|lia].
    assert (Hin : In (nth m r x) r) by (apply nth_In; lia).
    rewrite List.Forall_forall in Hy, Qr.
    pose proof (cmp_lt_le_trans x y (nth m r x) Qx Qy (Qr _ Hin) Hlt (Hy _ Hin)). lia.
Qed.

Lemma binarySearch_split (x : A) (p : list A) (fuel left right : nat) :
  Q x → Forall Q p → StronglySorted (fun a b => cmp a b <= 0) p →
  (right - left < fuel)%nat → (left <= right)%nat → (right <= length p)%nat →
  Forall (fun y => (cmp x y <? 0) = false) (firstn left p) →
  Forall (fun y => (cmp x y <? 0) = true) (skipn right p) →
  Forall (fun y => (cmp x y <? 0) = false)
    (firstn (Js.binarySearch cmp fuel x p left right) p)
  ∧ Forall (fun y => (cmp x y <? 0) = true)
      (skipn (Js.binarySearch cmp fuel x p left right) p).
Proof.
  intros Qx Qp Hs. revert left right.
  induction fuel as [|fuel IH]; intros left right Hfuel Hlr Hlen Hleft Hright; [lia|].
  cbn [Js.binarySearch].
  destruct (Nat.ltb_spec left right) as [Hlt|Hge].
  - set (mid := (left + (right - left) / 2)%nat) in *.
    assert (Hmid : (left <= mid ∧ mid < right)%nat).
    { pose proof (Nat.div_mod_eq (right - left) 2) as Hdiv.
      pose proof (Nat.mod_upper_bound (right - left) 2 ltac:(lia)) as Hmod.
      unfold mid. lia. }
    destruct (cmp x (nth mid p x) <? 0) eqn:Hcmp.
    + apply IH; try lia; [exact Hleft|].
      apply sorted_after_suffix; auto; lia.
    + apply IH; try lia; [|exact Hright].
      apply sorted_before_prefix; auto; lia.
  - assert (left = right) by lia. subst. auto.
Qed.

Lemma insert_at_split (x : A) (p : list A) (k : nat) :
  Forall (fun y => (cmp x y <? 0) = false) (firstn k p) →
  Forall (fun y => (cmp x y <? 0) = true) (skipn k p) →
  (firstn k p ++ x :: skipn k p)%list = insert_right cmp x p.
Proof.
  revert k. induction p as [|y r IH]; intros k Hfalse Htrue.
  - now rewrite firstn_nil, skipn_nil.
  - destruct k as [|k]; cbn in Hfalse, Htrue |- *.
    + inversion Htrue as [|? ? Hy _]; subst. now rewrite Hy.
    + inversion Hfalse as [|? ? Hy Hr]; subst. rewrite Hy. f_equal. now apply IH.
Qed.

(** On a sorted list the binary insertion is [insert_right]. *)
Lemma binaryInsert_sorted (x : A) (p : list A) :
  Q x → Forall Q p → StronglySorted (fun a b => cmp a b <= 0) p →
  Js.binaryInsert cmp p x = insert_right cmp x p.
Proof.
  intros Qx Qp Hs. unfold Js.binaryInsert.
  destruct (binarySearch_split x p (S (length p)) 0 (length p) Qx Qp Hs)
    as [Hfalse Htrue]; try lia.
  - constructor.
  - rewrite skipn_all. constructor.
  - now apply insert_at_split.
Qed.

(** Putting one element in from the left and another from the right can
    be done in either order. *)
Lemma insert_right_insert_sorted (a x : A) (p : list A) :
  Q a → Q x → Forall Q p →
  insert_right cmp x (Js.insert_sorted cmp a p)
  = Js.insert_sorted cmp a (insert_right cmp x p).
Proof.
  intros Qa Qx Qp. induction Qp as [|y r Qy Qr IH].
  - cbn. pose proof (cmp_swap a x).
    destruct (Z.ltb_spec (cmp x a) 0), (Z.leb_spec (cmp a x) 0); try lia; reflexivity.
  - cbn [Js.insert_sorted insert_right].
    destruct (Z.leb_spec (cmp a y) 0) as [Hay|Hay];
      destruct (Z.ltb_spec (cmp x y) 0) as [Hxy|Hxy];
      cbn [Js.insert_sorted insert_right].
    + pose proof (cmp_swap a x).
      destruct (Z.ltb_spec (cmp x a) 0), (Z.leb_spec (cmp a x) 0); try lia.
      * destruct (Z.leb_spec (cmp a y) 0); [reflexivity | lia].
      * destruct (Z.ltb_spec (cmp x y) 0); [reflexivity | lia].
    + destruct (Z.ltb_spec (cmp x a) 0) as [Hxa|Hxa].
      * pose proof (cmp_lt_le_trans x a y Qx Qa Qy Hxa Hay). lia.
      * destruct (Z.ltb_spec (cmp x y) 0); [lia|].
        destruct (Z.leb_spec (cmp a y) 0); [reflexivity | lia].
    + destruct (Z.ltb_spec (cmp x y) 0); [|lia].
      destruct (Z.leb_spec (cmp a x) 0) as [Hax|Hax].
      * pose proof (cmp_trans a x y Qa Qx Qy Hax ltac:(lia)). lia.
      * destruct (Z.leb_spec (cmp a y) 0); [lia | reflexivity].
    + destruct (Z.ltb_spec (cmp x y) 0); [lia|].
      destruct (Z.leb_spec (cmp a y) 0); [lia|]. now rewrite IH.
Qed.

Lemma insert_right_sort (x : A) (pre : list A) :
  Q x → Forall Q pre →
  insert_right cmp x (Js.sort cmp pre) = Js.sort cmp (pre ++ [x]).
Proof.
  intros Qx Qpre. induction Qpre as [|a r Qa Qr IH]; [reflexivity|].
  cbn [Js.sort app]. rewrite <- IH.
  apply insert_right_insert_sorted; auto. now apply sort_Forall.
Qed.

Lemma fold_binaryInsert (rest pre : list A) :
  Forall Q pre → Forall Q rest →
  fold_left (Js.binaryInsert cmp) rest (Js.sort cmp pre) = Js.sort cmp (pre ++ rest).
Proof.
  intros Qpre Qrest. revert pre Qpre.
  induction Qrest as [|x r Qx Qr IH]; intros pre Qpre.
  - now rewrite app_nil_r.
  - cbn [fold_left].
    rewrite binaryInsert_sorted; auto using sort_Forall.
    + rewrite insert_right_sort by assumption.
      rewrite IH by (apply Forall_app; auto).
      now rewrite <- app_assoc.
    + apply (sort_ordered cmp Q); auto. intros a b _ _. apply cmp_total_swap.
Qed.

(** A run that does not descend is sorted as it stands. *)
Lemma sort_ascending_run (prev : A) (l : list A) :
  Js.sort cmp (prev :: firstn (Js.run_rest cmp false prev l) l)
  = prev :: firstn (Js.run_rest cmp false prev l) l.
Proof.
  revert prev. induction l as [|x r IH]; intros prev; [reflexivity|].
  cbn [Js.run_rest]. destruct (Z.ltb_spec (cmp x prev) 0) as [Hlt|Hge]; [reflexivity|].
  cbn [firstn]. cbn [Js.sort] in IH |- *. rewrite IH. cbn [Js.insert_sorted].
  pose proof (cmp_swap x prev).
  destruct (Z.leb_spec (cmp prev x) 0); [reflexivity | lia].
Qed.

(** A run that descends strictly lies below its first element. *)
Lemma descending_run_below (prev : A) (l : list A) :
  Q prev → Forall Q l →
  Forall (fun y => cmp y prev < 0) (firstn (Js.run_rest cmp true prev l) l).
Proof.
  intros Qprev Ql. revert prev Qprev.
  induction Ql as [|x r Qx Qr IH]; intros prev Qprev; [constructor|].
  cbn [Js.run_rest]. destruct (Z.leb_spec 0 (cmp x prev)) as [Hge|Hlt]; [constructor|].
  cbn [firstn]. constructor; [exact Hlt|].
  specialize (IH x Qx).
  assert (Qf : Forall Q (firstn (Js.run_rest cmp true x r) r)) by now apply Forall_take.
  rewrite List.Forall_forall in IH, Qf |- *. intros y Hy.
  apply (cmp_lt_le_trans y x prev); auto. lia.
Qed.

Lemma insert_sorted_last (a : A) (p : list A) :
  Forall (fun y => cmp y a < 0) p → Js.insert_sorted cmp a p = (p ++ [a])%list.
Proof.
  induction 1 as [|y r Hy Hr IH]; [reflexivity|].
  cbn. pose proof (cmp_swap y a). destruct (Z.leb_spec (cmp a y) 0); [lia|].
  now rewrite IH.
Qed.

(** Sorting a run that descends strictly reverses it. *)
Lemma sort_descending_run (prev : A) (l : list A) :
  Q prev → Forall Q l →
  Js.sort cmp (prev :: firstn (Js.run_rest cmp true prev l) l)
  = rev (prev :: firstn (Js.run_rest cmp true prev l) l).
Proof.
  intros Qprev Ql.
  pose proof (descending_run_below prev l Qprev Ql) as Hbelow.
  revert prev Qprev Hbelow.
  induction Ql as [|x r Qx Qr IH]; intros prev Qprev Hbelow; [reflexivity|].
  cbn [Js.run_rest] in Hbelow |- *.
  destruct (Z.leb_spec 0 (cmp x prev)) as [Hge|Hlt]; [reflexivity|].
  cbn [firstn] in Hbelow |- *.
  change (Js.sort cmp (prev :: x :: firstn (Js.run_rest cmp true x r) r))
    with (Js.insert_sorted cmp prev
            (Js.sort cmp (x :: firstn (Js.run_rest cmp true x r) r))).
  rewrite IH by (auto using descending_run_below).
  rewrite insert_sorted_last; [reflexivity|].
  apply Forall_rev. exact Hbelow.
Qed.

(** On a comparator that is antisymmetric and transitive on the elements
    of the array, the sort as V8 runs it returns the list of the stable
    insertion sort. *)
Lemma sort_v8_sort (l : list A) :
  Forall Q l → Js.sort_v8 cmp l = Js.sort cmp l.
Proof.
  intros Ql. unfold Js.sort_v8, Js.countAndMakeRun.
  destruct l as [|a0 [|a1 r]]; [reflexivity | reflexivity |].
  inversion Ql as [|? ? Q0 Qt]; subst.
  set (n := Js.run_rest cmp (cmp a1 a0 <? 0) a1 r).
  change (2 + n)%nat with (S (S n)).
  assert (Hrun : (if cmp a1 a0 <? 0
                  then rev (firstn (S (S n)) (a0 :: a1 :: r))
                  else firstn (S (S n)) (a0 :: a1 :: r))
                 = Js.sort cmp (firstn (S (S n)) (a0 :: a1 :: r))).
  { unfold n. destruct (Z.ltb_spec (cmp a1 a0) 0) as [Hlt|Hge].
    - pose proof (sort_descending_run a0 (a1 :: r) Q0 Qt) as H.
      cbn [Js.run_rest] in H.
      destruct (Z.leb_spec 0 (cmp a1 a0)); [lia|]. symmetry. exact H.
    - pose proof (sort_ascending_run a0 (a1 :: r)) as H.
      cbn [Js.run_rest] in H.
      destruct (Z.ltb_spec (cmp a1 a0) 0); [lia|]. symmetry. exact H. }
  rewrite Hrun.
  rewrite fold_binaryInsert by (first [now apply Forall_take | now apply Forall_drop]).
  now rewrite firstn_skipn.
Qed.

End SortV8Facts.

Lemma compareDeals_swap (key : string) (dir : SortOrder) (a b : Deal) :
  compareDeals key dir b a = - compareDeals key dir a b.
Proof.
  unfold compareDeals, js_gt.
  destruct (js_lt (sortValue key a) (sortValue key b)) eqn:Hab;
    destruct (js_lt (sortValue key b) (sortValue key a)) eqn:Hba;
    try (apply js_lt_asym in Hab; congruence);
    destruct dir; reflexivity.
Qed.

Lemma compareDeals_trans (key : string) (dir : SortOrder) (a b c : Deal) :
  sortValue key b ≠ SDate None →
  compareDeals key dir a b <= 0 → compareDeals key dir b c <= 0 →
  compareDeals key dir a c <= 0.
Proof.
  intros Qb. rewrite !compareDeals_le. unfold inSortOrder.
  destruct dir; intros H1 H2;
    apply (js_not_lt_trans _ (sortValue key b)); auto using sortValue_sameKind.
Qed.

Lemma sort_v8_compareDeals (key : string) (dir : SortOrder) (l : list Deal) :
  Forall (fun d => dateField key d ≠ Some InvalidDate) l →
  Js.sort_v8 (compareDeals key dir) l = Js.sort (compareDeals key dir) l.
Proof.
  intros Hparse.
  apply (sort_v8_sort _ (fun d => sortValue key d ≠ SDate None)).
  - intros a b. apply compareDeals_swap.
  - intros a b c _ Qb _. now apply compareDeals_trans.
  - eapply Forall_impl; [exact Hparse|].
    intros d Hd Hnan. cbn in Hd. apply Hd. now apply sortValue_invalid.
Qed.

(** On lists whose sort values are all comparable the two models of the
    built-in sort return the same list: an ascending run, a descending
    run, ties around a smaller value. *)
Example sort_v8_agrees_on_comparable_keys :
  Js.sort_v8 (compareDeals "total_contract_value" desc) (filteredDeals tiedView)
  = Js.sort (compareDeals "total_contract_value" desc) (filteredDeals tiedView)
  ∧ Js.sort_v8 (compareDeals "total_contract_value" asc) (filteredDeals tiedView)
    = Js.sort (compareDeals "total_contract_value" asc) (filteredDeals tiedView)
  ∧ Js.sort_v8 (compareDeals "modified_at" desc) [epochDeal; lateDeal; late2Deal]
    = Js.sort (compareDeals "modified_at" desc) [epochDeal; lateDeal; late2Deal]
  ∧ map id (Js.sort_v8 (compareDeals "modified_at" asc)
              [lateDeal; epochDeal; late2Deal; modifiedDeal "m" None])
    = ["epoch"; "m"; "late"; "late2"]
  ∧ map id (Js.sort (compareDeals "modified_at" asc)
              [lateDeal; epochDeal; late2Deal; modifiedDeal "m" None])
    = ["epoch"; "m"; "late"; "late2"].
Proof. repeat split; reflexivity. Qed.

(** C5: on the view as it opens (sorted by modification date, latest
    first) over the records epoch, late, bad, late2, where bad has a date
    string that does not parse and late and late2 share a date, the three
    records other than epoch tie pairwise, yet the comparator puts late2
    before epoch while bad ties with both: it is not consistent, and the
    sort as V8 runs it returns late, late2, epoch, bad, with late2 moved in
    front of bad, against their order in the input. *)
Lemma unparsable_date_breaks_tie_order :
  sortBy datedView = "modified_at" ∧ sortOrder datedView = desc
  ∧ map id (filteredDeals datedView) = ["epoch"; "late"; "bad"; "late2"]
  ∧ (keysTie "modified_at" lateDeal badDateDeal = true
     ∧ keysTie "modified_at" badDateDeal late2Deal = true
     ∧ keysTie "modified_at" lateDeal late2Deal = true)
  ∧ (compareDeals "modified_at" desc late2Deal badDateDeal = 0
     ∧ compareDeals "modified_at" desc badDateDeal epochDeal = 0
     ∧ compareDeals "modified_at" desc late2Deal epochDeal = -1)
  ∧ map id (Js.sort_v8 (compareDeals (sortBy datedView) (sortOrder datedView))
              (filteredDeals datedView))
    = ["late"; "late2"; "epoch"; "bad"]
  ∧ map id (List.filter notEpoch (filteredDeals datedView)) = ["late"; "bad"; "late2"]
  ∧ List.filter notEpoch
      (Js.sort_v8 (compareDeals (sortBy datedView) (sortOrder datedView))
         (filteredDeals datedView))
    ≠ List.filter notEpoch (filteredDeals datedView).
Proof.
  repeat split; try reflexivity.
  vm_compute. discriminate.
Qed.

(** C5 (as amended): when no record of the filtered list has an unparsable
    date in the sort field, any class of records that tie pairwise on the
    sort field (neither value is less than the other) appears in the
    sorted list in the order it had in the filtered input, for every sort
    field and in both directions; and the list is a function of the input
    alone: the run detection and binary insertion of V8 ([Js.sort_v8])
    return the very same list. *)
Theorem sort_is_stable (s : ViewState) (tie : Deal → bool) :
  Forall (fun d => dateField (sortBy s) d ≠ Some InvalidDate) (filteredDeals s) →
  (∀ a b, tie a = true → tie b = true → keysTie (sortBy s) a b = true) →
  List.filter tie (filteredAndSortedDeals s) = List.filter tie (filteredDeals s)
  ∧ Js.sort_v8 (compareDeals (sortBy s) (sortOrder s)) (filteredDeals s)
    = filteredAndSortedDeals s
  ∧ List.filter tie (Js.sort_v8 (compareDeals (sortBy s) (sortOrder s)) (filteredDeals s))
    = List.filter tie (filteredDeals s).
Proof.
  intros Hparse Htie.
  assert (Hstable : List.filter tie (filteredAndSortedDeals s)
                    = List.filter tie (filteredDeals s)).
  { unfold filteredAndSortedDeals. apply sort_filter.
    intros a b Ha Hb.
    pose proof (Htie a b Ha Hb) as Hab. unfold keysTie in Hab.
    apply andb_prop in Hab as [H1 H2].
    apply negb_true_iff in H1. apply negb_true_iff in H2.
    unfold compareDeals, js_gt. rewrite H1, H2.
    destruct (sortOrder s); lia. }
  assert (Hsame : Js.sort_v8 (compareDeals (sortBy s) (sortOrder s)) (filteredDeals s)
                  = filteredAndSortedDeals s)
    by (now apply sort_v8_compareDeals).
  split; [exact Hstable|]. split; [exact Hsame|]. now rewrite Hsame.
Qed.

Lemma sort_is_stable_witness :
  map id (filteredAndSortedDeals tiedView) = ["b"; "d"; "a"; "c"]
  ∧ List.filter (valueIs 50) (filteredAndSortedDeals tiedView)
    = List.filter (valueIs 50) (filteredDeals tiedView)
  ∧ Js.sort_v8 (compareDeals (sortBy tiedView) (sortOrder tiedView)) (filteredDeals tiedView)
    = filteredAndSortedDeals tiedView.
Proof.
  split; [vm_compute; reflexivity|].
  destruct (sort_is_stable tiedView (valueIs 50)) as (Hstable & Hsame & _).
  - repeat constructor; discriminate.
  - intros a b Ha Hb. unfold valueIs in Ha, Hb.
    apply Z.eqb_eq in Ha. apply Z.eqb_eq in Hb.
    unfold keysTie. cbn. rewrite Ha, Hb. reflexivity.
  - split; [exact Hstable | exact Hsame].
Defined.

(** ** SortEngine: the order of the list shown *)

(** X1: when no record of the filtered list has an unparsable date in the
    sort field, the list shown is in order: ascending, no record is
    followed (at any distance) by one with a smaller value; descending, by
    one with a greater value. *)
Theorem sorted_list_is_in_order (s : ViewState) :
  Forall (fun d => dateField (sortBy s) d ≠ Some InvalidDate) (filteredDeals s) →
  StronglySorted (inSortOrder (sortBy s) (sortOrder s)) (filteredAndSortedDeals s).
Proof.
  intros Hvalid. unfold filteredAndSortedDeals.
  set (key := sortBy s). set (dir := sortOrder s).
  apply (StronglySorted_weaken (fun a b => compareDeals key dir a b <= 0)).
  { intros a b. apply compareDeals_le. }
  apply (sort_ordered _ (fun d => sortValue key d ≠ SDate None)).
  - (* any two records compare one way or the other *)
    intros a b _ _. rewrite !compareDeals_le. unfold inSortOrder.
    destruct dir; destruct (js_lt (sortValue key a) (sortValue key b)) eqn:Hab;
      [left; now apply js_lt_asym | right; reflexivity
      |right; now apply js_lt_asym | left; reflexivity].
  - (* and the comparison chains *)
    intros a b c _ Qb _. rewrite !compareDeals_le. unfold inSortOrder.
    destruct dir; intros H1 H2.
    + apply (js_not_lt_trans _ (sortValue key b)); auto using sortValue_sameKind.
    + apply (js_not_lt_trans _ (sortValue key b)); auto using sortValue_sameKind.
  - eapply Forall_impl; [exact Hvalid|].
    intros d Hd Hnan. cbn in Hd. apply Hd. now apply sortValue_invalid.
Qed.

Lemma sorted_list_is_in_order_witness :
  StronglySorted (inSortOrder "total_contract_value" desc) (filteredAndSortedDeals tiedView).
Proof.
  apply (sorted_list_is_in_order tiedView).
  repeat constructor; discriminate.
Defined.

(** X2: the comparator is antisymmetric and the descending comparator is
    the ascending one negated: swapping the two records, or the direction,
    negates the result, and a record ties with itself. *)
Theorem comparator_mirrors (key : string) (dir : SortOrder) (a b : Deal) :
  compareDeals key dir b a = - compareDeals key dir a b
  ∧ compareDeals key desc a b = - compareDeals key asc a b
  ∧ compareDeals key dir a a = 0.
Proof.
  unfold compareDeals, js_gt.
  destruct (js_lt (sortValue key a) (sortValue key b)) eqn:Hab;
    destruct (js_lt (sortValue key b) (sortValue key a)) eqn:Hba;
    try (apply js_lt_asym in Hab; congruence);
    destruct (js_lt (sortValue key a) (sortValue key a)) eqn:Haa;
    try (pose proof (js_lt_asym _ _ Haa); congruence);
    destruct dir; repeat split; reflexivity.
Qed.

(** ** Pages *)

Lemma pages_concat {A} (p m : nat) (l : list A) :
  (length l <= m * p)%nat →
  concat (map (fun k => firstn p (skipn (k * p) l)) (seq 0 m)) = l.
Proof.
  revert l. induction m as [|m IH]; intros l Hlen.
  - destruct l; [reflexivity | cbn in Hlen; lia].
  - cbn [seq map concat]. rewrite <- seq_shift, map_map. cbn [Nat.mul skipn].
    transitivity (firstn p l ++ skipn p l)%list; [|apply firstn_skipn]. f_equal.
    etransitivity; [|apply (IH (skipn p l)); rewrite length_skipn; lia].
    f_equal. apply map_ext. intros k.
    rewrite skipn_skipn. do 2 f_equal. lia.
Qed.

(** X3: the pages 1 .. totalPages, one after the other, are the whole
    filtered and sorted list: paging drops no record and repeats none. *)
Theorem pages_cover_the_list (s : ViewState) :
  concat (map (fun k => pageSlice (filteredAndSortedDeals s) itemsPerPage (Z.of_nat k))
            (seq 1 (Z.to_nat (totalPages s))))
  = filteredAndSortedDeals s.
Proof.
  unfold totalPages. set (l := filteredAndSortedDeals s).
  pose proof (ceil_div_bounds (Z.of_nat (length l)) itemsPerPage ltac:(reflexivity)) as Hb.
  fold (pageCount (Z.of_nat (length l)) itemsPerPage) in Hb.
  set (t := pageCount (Z.of_nat (length l)) itemsPerPage) in *.
  rewrite <- seq_shift, map_map.
  etransitivity; [|apply (pages_concat 25 (Z.to_nat t) l)].
  - f_equal. apply map_ext. intros k.
    rewrite slice_page by (unfold itemsPerPage; lia).
    unfold itemsPerPage.
    replace (Z.to_nat ((Z.of_nat (S k) - 1) * 25)) with (k * 25)%nat by lia.
    reflexivity.
  - unfold itemsPerPage in Hb. lia.
Qed.

Lemma pageSlice_length {A} (l : list A) (p k : Z) :
  0 < p → 1 <= k →
  Z.of_nat (length (pageSlice l p k))
  = Z.max 0 (Z.min p (Z.of_nat (length l) - (k - 1) * p)).
Proof.
  intros Hp Hk. rewrite slice_page by assumption.
  rewrite length_firstn, length_skipn. nia.
Qed.

(** The number of rows on the current page. *)
Lemma paginatedDeals_length (s : ViewState) :
  1 <= currentPage s →
  Z.of_nat (length (paginatedDeals s))
  = Z.max 0 (Z.min 25 (Z.of_nat (length (filteredAndSortedDeals s))
                       - 25 * (currentPage s - 1))).
Proof.
  intros Hk. unfold paginatedDeals.
  rewrite pageSlice_length by (unfold itemsPerPage; lia). unfold itemsPerPage. lia.
Qed.

(** X4: on page k >= 1 the view shows min(25, n - 25(k-1)) rows, none
    when that is negative; so the page is empty exactly when k is beyond
    totalPages, it never has more than 25 rows, and every page before the
    last has exactly 25. *)
Theorem page_row_count (s : ViewState) :
  1 <= currentPage s →
  let n := Z.of_nat (length (filteredAndSortedDeals s)) in
  let rows := Z.of_nat (length (paginatedDeals s)) in
  rows = Z.max 0 (Z.min 25 (n - 25 * (currentPage s - 1)))
  ∧ rows <= 25
  ∧ (paginatedDeals s = [] ↔ totalPages s < currentPage s)
  ∧ (currentPage s < totalPages s → rows = 25).
Proof.
  intros Hk n rows.
  assert (Hrows : rows = Z.max 0 (Z.min 25 (n - 25 * (currentPage s - 1))))
    by (subst rows n; now apply paginatedDeals_length).
  assert (Hb : (totalPages s - 1) * 25 < n <= totalPages s * 25)
    by (apply (ceil_div_bounds n 25); lia).
  split; [exact Hrows|]. split; [lia|]. split; [|lia].
  split.
  - intros Hnil. assert (rows = 0) by (subst rows; now rewrite Hnil). lia.
  - intros Hbeyond. assert (H0 : rows = 0) by lia.
    subst rows. destruct (paginatedDeals s); [reflexivity | cbn in H0; lia].
Qed.

Lemma page_row_count_witness :
  length (paginatedDeals view30page2) = 5%nat.
Proof.
  assert (Hcp : 1 <= currentPage view30page2) by (vm_compute; discriminate).
  pose proof (page_row_count view30page2 Hcp) as (Hrows & _).
  apply Nat2Z.inj. rewrite Hrows. vm_compute. reflexivity.
Defined.

(** X5: while currentPage is between 1 and totalPages, the footer line
    "Showing X to Y of N" counts the rows on the page: 1 <= X <= Y <= N
    and Y - X + 1 is the number of rows shown.  When currentPage is beyond
    totalPages and the list is not empty, the line shows X above Y. *)
Theorem showing_range_counts_rows (s : ViewState) :
  1 <= currentPage s →
  (currentPage s <= totalPages s →
   1 <= showingFrom s <= showingTo s
   ∧ showingTo s <= Z.of_nat (length (filteredAndSortedDeals s))
   ∧ showingTo s - showingFrom s + 1 = Z.of_nat (length (paginatedDeals s)))
  ∧ (totalPages s < currentPage s → filteredAndSortedDeals s ≠ [] →
     showingTo s < showingFrom s).
Proof.
  intros Hk.
  pose proof (paginatedDeals_length s Hk) as Hrows.
  set (n := Z.of_nat (length (filteredAndSortedDeals s))) in *.
  assert (Hb : (totalPages s - 1) * 25 < n <= totalPages s * 25)
    by (apply (ceil_div_bounds n 25); lia).
  unfold showingFrom, showingTo, itemsPerPage in *. fold n.
  destruct (Nat.eqb_spec (length (filteredAndSortedDeals s)) 0) as [H0|Hpos].
  - assert (n = 0) by (subst n; lia). split; [lia|].
    intros _ Hne. destruct (filteredAndSortedDeals s); [congruence | discriminate H0].
  - assert (0 < n) by (subst n; lia). split; intros; lia.
Qed.

Lemma showing_range_counts_rows_witness :
  showingTo view30page2 - showingFrom view30page2 + 1
  = Z.of_nat (length (paginatedDeals view30page2)).
Proof.
  assert (Hcp : currentPage view30page2 = 2) by (vm_compute; reflexivity).
  assert (Htp : totalPages view30page2 = 2) by (vm_compute; reflexivity).
  apply (showing_range_counts_rows view30page2); rewrite ?Hcp, ?Htp; lia.
Defined.

Lemma setCurrentPage_back (s : ViewState) (q : Z) :
  setCurrentPage (currentPage s) (setCurrentPage q s) = s.
Proof. destruct s; reflexivity. Qed.

(** X6: on a page that is not the last, Next followed by Previous comes
    back to the same state; Previous on page 1 and Next on the last page
    change nothing. *)
Theorem next_then_previous (s : ViewState) :
  1 <= currentPage s →
  (currentPage s < totalPages s → clickPrevious (clickNext s) = s)
  ∧ (currentPage s = 1 → clickPrevious s = s)
  ∧ (currentPage s = totalPages s → clickNext s = s).
Proof.
  intros Hlo. split; [|split].
  - intros Hlt.
    assert (Hn : clickNext s = setCurrentPage (currentPage s + 1) s).
    { unfold clickNext.
      destruct (Z.ltb_spec 0 (totalPages s)); [|lia].
      destruct (Z.eqb_spec (currentPage s) (totalPages s)); [lia|].
      cbn [andb negb]. f_equal. lia. }
    rewrite Hn. unfold clickPrevious.
    assert (Ht : totalPages (setCurrentPage (currentPage s + 1) s) = totalPages s)
      by (apply totalPages_ext; destruct s; reflexivity).
    rewrite Ht.
    replace (currentPage (setCurrentPage (currentPage s + 1) s)) with (currentPage s + 1)
      by (destruct s; reflexivity).
    destruct (Z.ltb_spec 0 (totalPages s)); [|lia].
    destruct (Z.eqb_spec (currentPage s + 1) 1); [lia|].
    cbn [andb negb].
    replace (Z.max 1 (currentPage s + 1 - 1)) with (currentPage s) by lia.
    apply setCurrentPage_back.
  - intros H1. unfold clickPrevious. rewrite H1. cbn. now rewrite andb_false_r.
  - intros Hlast. unfold clickNext. rewrite Hlast, Z.eqb_refl. cbn.
    now rewrite andb_false_r.
Qed.

Lemma next_then_previous_witness :
  clickPrevious (clickNext view30) = view30.
Proof.
  assert (Hcp : currentPage view30 = 1) by reflexivity.
  assert (Htp : totalPages view30 = 2) by (vm_compute; reflexivity).
  apply (next_then_previous view30); rewrite ?Hcp, ?Htp; lia.
Defined.

(** ** Selection *)

(** The events that set the selection. *)
Lemma step_selectedDeals (s : ViewState) (e : Event) :
  selectedDeals (step s e)
  = match e with
    | SelectAll checked => selectedDeals (handleSelectAll checked s)
    | SelectDeal dealId checked => selectedDeals (handleSelectDeal dealId checked s)
    | BulkDelete => selectedDeals (handleBulkDelete s)
    | ClearSelection => ∅
    | _ => selectedDeals s
    end.
Proof.
  unfold step, resetPageEffect.
  destruct (_ || _ || _); destruct e; cbn;
    unfold clickPrevious, clickNext, clearAllFilters; handler_cases.
Qed.

Lemma handleBulkDelete_spec (s : ViewState) :
  (selectedDeals s = ∅ → handleBulkDelete s = s)
  ∧ (selectedDeals s ≠ ∅ →
     calls (handleBulkDelete s) = (calls s ++ [OnDeleteDeals (elements (selectedDeals s))])%list
     ∧ selectedDeals (handleBulkDelete s) = ∅
     ∧ deals (handleBulkDelete s) = deals s).
Proof.
  unfold handleBulkDelete. split.
  - intros ->. reflexivity.
  - intros Hne. destruct (Nat.eqb_spec (size (selectedDeals s)) 0) as [H0|_].
    + apply size_empty_inv in H0. apply leibniz_equiv in H0. contradiction.
    + cbn. auto.
Qed.

(** X7: a bulk delete with nothing selected does nothing at all.  With a
    selection it calls onDeleteDeals once, with every selected identifier
    exactly once and no other, empties the selection and raises one notice
    giving the number of identifiers passed. *)
Theorem bulk_delete_passes_the_selection (s : ViewState) :
  (selectedDeals s = ∅ → handleBulkDelete s = s)
  ∧ (selectedDeals s ≠ ∅ →
     ∃ ids,
       calls (handleBulkDelete s) = (calls s ++ [OnDeleteDeals ids])%list
       ∧ NoDup ids
       ∧ (∀ x, x ∈ ids ↔ x ∈ selectedDeals s)
       ∧ selectedDeals (handleBulkDelete s) = ∅
       ∧ toasts (handleBulkDelete s)
         = (toasts s ++
            [{| title := "Deals deleted";
                description :=
                  "Successfully deleted " ++ Js.String_of_num (Z.of_nat (length ids))
                  ++ " deals";
                variant := None |}])%list).
Proof.
  destruct (handleBulkDelete_spec s) as [Hempty Hsel].
  split; [exact Hempty|]. intros Hne.
  destruct (Hsel Hne) as (Hc & Hs & _).
  exists (elements (selectedDeals s)).
  split; [exact Hc|]. split; [apply NoDup_elements|].
  split; [intros x; apply elem_of_elements|]. split; [exact Hs|].
  unfold handleBulkDelete. destruct (Nat.eqb_spec (size (selectedDeals s)) 0) as [H0|_].
  - apply size_empty_inv in H0. apply leibniz_equiv in H0. contradiction.
  - reflexivity.
Qed.

Lemma bulk_delete_passes_the_selection_witness :
  selectedDeals (handleBulkDelete (handleSelectDeal "d3" true view30)) = ∅.
Proof.
  destruct (bulk_delete_passes_the_selection (handleSelectDeal "d3" true view30))
    as [_ Hsel].
  destruct Hsel as (ids & _ & _ & _ & Hs & _); [|exact Hs].
  cbn. intros E. apply (f_equal size) in E. vm_compute in E. discriminate E.
Defined.

Lemma resetPageEffect_calls (e : Event) (s t : ViewState) :
  calls (resetPageEffect e s t) = calls t
  ∧ selectedDeals (resetPageEffect e s t) = selectedDeals t.
Proof. unfold resetPageEffect. destruct (_ || _ || _); cbn; auto. Qed.

(** X8: only select-all, a row checkbox, the bulk delete and Clear
    selection change the selection.  Any other event, a new filter, a new
    sort, another page, a new record collection from the caller, leaves it
    as it is, so an identifier stays selected when its record is filtered
    out or deleted, and the next bulk delete passes it to the caller. *)
Theorem selection_outlives_the_records (s : ViewState) (e : Event) (x : string) :
  setsSelection e = false → x ∈ selectedDeals s →
  selectedDeals (step s e) = selectedDeals s
  ∧ ∃ ids,
      calls (step (step s e) BulkDelete)
      = (calls (step s e) ++ [OnDeleteDeals ids])%list
      ∧ x ∈ ids.
Proof.
  intros He Hx.
  assert (Hsel : selectedDeals (step s e) = selectedDeals s).
  { rewrite step_selectedDeals. destruct e; try reflexivity; discriminate He. }
  split; [exact Hsel|].
  assert (Hne : selectedDeals (step s e) ≠ ∅).
  { rewrite Hsel. intros E. rewrite E in Hx. now apply not_elem_of_empty in Hx. }
  destruct (proj2 (handleBulkDelete_spec (step s e)) Hne) as [Hc _].
  exists (elements (selectedDeals (step s e))). split.
  - unfold step at 1. cbn [handle].
    pose proof (resetPageEffect_calls BulkDelete (step s e) (handleBulkDelete (step s e)))
      as [Hr _].
    rewrite Hr. exact Hc.
  - apply elem_of_elements. now rewrite Hsel.
Qed.

Lemma selection_outlives_the_records_witness :
  selectedDeals (step (handleSelectDeal "d3" true view30) (NewDeals []))
  = selectedDeals (handleSelectDeal "d3" true view30).
Proof.
  apply (selection_outlives_the_records (handleSelectDeal "d3" true view30)
           (NewDeals []) "d3"); [reflexivity | cbn].
  apply elem_of_union_l, elem_of_singleton. reflexivity.
Defined.

Lemma setSelectedDeals_twice (s : ViewState) (X Y : gset string) :
  setSelectedDeals X (setSelectedDeals Y s) = setSelectedDeals X s.
Proof. destruct s; reflexivity. Qed.

Lemma setSelectedDeals_same (s : ViewState) : setSelectedDeals (selectedDeals s) s = s.
Proof. destruct s; reflexivity. Qed.

Lemma selection_add_remove (X : gset string) (x : string) :
  x ∉ X → ({[x]} ∪ X) ∖ {[x]} = X.
Proof.
  intros Hx. apply set_eq. intros y.
  rewrite elem_of_difference, elem_of_union, elem_of_singleton.
  split; [tauto|]. intros Hy. split; [tauto|]. congruence.
Qed.

(** X9: ticking the checkbox of a row that is not selected adds one
    identifier, and unticking it again restores the state; ticking a row
    that is already selected, or unticking one that is not, changes
    nothing. *)
Theorem tick_then_untick (s : ViewState) (x : string) :
  (x ∉ selectedDeals s →
   handleSelectDeal x false (handleSelectDeal x true s) = s
   ∧ size (selectedDeals (handleSelectDeal x true s)) = S (size (selectedDeals s))
   ∧ handleSelectDeal x false s = s)
  ∧ (x ∈ selectedDeals s → handleSelectDeal x true s = s).
Proof.
  unfold handleSelectDeal. split.
  - intros Hx. split; [|split].
    + rewrite setSelectedDeals_twice.
      replace (selectedDeals (setSelectedDeals ({[x]} ∪ selectedDeals s) s) ∖ {[x]})
        with (selectedDeals s); [apply setSelectedDeals_same|].
      replace (selectedDeals (setSelectedDeals ({[x]} ∪ selectedDeals s) s))
        with ({[x]} ∪ selectedDeals s) by (destruct s; reflexivity).
      symmetry. now apply selection_add_remove.
    + replace (selectedDeals (setSelectedDeals ({[x]} ∪ selectedDeals s) s))
        with ({[x]} ∪ selectedDeals s) by (destruct s; reflexivity).
      rewrite size_union by now apply disjoint_singleton_l.
      now rewrite size_singleton.
    + replace (selectedDeals s ∖ {[x]}) with (selectedDeals s);
        [apply setSelectedDeals_same|].
      symmetry. now apply difference_disjoint_L, disjoint_singleton_r.
  - intros Hx. replace ({[x]} ∪ selectedDeals s) with (selectedDeals s);
      [apply setSelectedDeals_same|].
    symmetry. now apply subseteq_union_1_L, singleton_subseteq_l.
Qed.

Lemma tick_then_untick_witness :
  handleSelectDeal "d3" false (handleSelectDeal "d3" true view30) = view30.
Proof.
  apply (tick_then_untick view30 "d3"). cbn. apply not_elem_of_empty.
Defined.

Lemma handleSelectAll_paginatedDeals (s : ViewState) (checked : bool) :
  paginatedDeals (handleSelectAll checked s) = paginatedDeals s
  ∧ filteredAndSortedDeals (handleSelectAll checked s) = filteredAndSortedDeals s.
Proof. destruct s, checked; split; reflexivity. Qed.

Lemma selectAll_size (s : ViewState) :
  NoDup (map id (filteredDeals s)) →
  size (selectedDeals (handleSelectAll true s)) = length (filteredAndSortedDeals s).
Proof.
  intros Hnd. cbn. rewrite size_list_to_set.
  - now rewrite length_map.
  - unfold filteredAndSortedDeals.
    assert (Hp : Permutation
                   (map id (Js.sort (compareDeals (sortBy s) (sortOrder s)) (filteredDeals s)))
                   (map id (filteredDeals s)))
      by (apply Permutation_map, sort_perm).
    rewrite Hp. exact Hnd.
Qed.

(** X10: with distinct identifiers, right after select-all the header
    checkbox shows checked exactly when the page shown holds the whole
    filtered list and that list is not empty; with more records than the
    page shows it stays unchecked although everything is selected. *)
Theorem header_checkbox_after_select_all (s : ViewState) :
  NoDup (map id (filteredDeals s)) →
  (headerChecked (handleSelectAll true s) = true
   ↔ paginatedDeals s ≠ [] ∧ length (paginatedDeals s) = length (filteredAndSortedDeals s))
  ∧ ((25 < length (filteredAndSortedDeals s))%nat → 1 <= currentPage s →
     headerChecked (handleSelectAll true s) = false).
Proof.
  intros Hnd. unfold headerChecked.
  destruct (handleSelectAll_paginatedDeals s true) as [-> _].
  rewrite (selectAll_size s Hnd).
  assert (Hiff : Nat.eqb (length (filteredAndSortedDeals s)) (length (paginatedDeals s))
                 && Nat.ltb 0 (length (paginatedDeals s)) = true
                 ↔ paginatedDeals s ≠ []
                   ∧ length (paginatedDeals s) = length (filteredAndSortedDeals s)).
  { rewrite andb_true_iff, Nat.eqb_eq, Nat.ltb_lt.
    destruct (paginatedDeals s); cbn; split; intros [? ?]; split;
      try congruence; try lia. }
  split; [exact Hiff|].
  intros Hmany Hcp.
  pose proof (paginatedDeals_length s Hcp) as Hrows.
  apply not_true_is_false. rewrite Hiff. intros [_ Heq]. lia.
Qed.

Lemma header_checkbox_after_select_all_witness :
  headerChecked (handleSelectAll true view30) = false.
Proof.
  apply (header_checkbox_after_select_all view30).
  - apply (bool_decide_unpack _). vm_compute. exact I.
  - vm_compute. lia.
  - vm_compute. discriminate.
Defined.

Lemma filter_by_id_membership (P : Deal → bool) (ds : list Deal) (X : gset string) :
  NoDup (map id ds) →
  (∀ x, x ∈ X ↔ ∃ d, d ∈ List.filter P ds ∧ id d = x) →
  List.filter (fun deal => bool_decide (id deal ∈ X)) ds = List.filter P ds.
Proof.
  intros Hnd HX. apply List.filter_ext_in. intros d Hd.
  apply list_elem_of_In in Hd.
  destruct (P d) eqn:HP.
  - apply bool_decide_eq_true. apply HX. exists d. split; [|reflexivity].
    apply list_elem_of_In, List.filter_In. split; [now apply list_elem_of_In | exact HP].
  - apply bool_decide_eq_false. intros Hin. apply HX in Hin as (d' & Hd' & Hid).
    apply list_elem_of_In, List.filter_In in Hd' as [Hd' HP'].
    apply list_elem_of_In in Hd'.
    assert (d' = d); [|congruence].
    apply list_elem_of_lookup in Hd as [i Hi]. apply list_elem_of_lookup in Hd' as [j Hj].
    assert (i = j); [|congruence].
    apply (NoDup_lookup (map id ds) i j (id d) Hnd);
      rewrite list_lookup_fmap; [rewrite Hi | rewrite Hj]; cbn; congruence.
Qed.

(** X11: with distinct identifiers, after select-all the records handed
    to the export are exactly the filtered records, in the order of the
    caller's collection (not in the sorted order). *)
Theorem export_after_select_all (s : ViewState) :
  NoDup (map id (deals s)) →
  selectedDealObjects (handleSelectAll true s) = filteredDeals s.
Proof.
  intros Hnd. unfold selectedDealObjects.
  replace (deals (handleSelectAll true s)) with (deals s) by (destruct s; reflexivity).
  apply filter_by_id_membership; [exact Hnd|].
  intros x. rewrite select_all_selects_filtered, list_elem_of_fmap.
  unfold filteredAndSortedDeals, filteredDeals.
  split; intros (d & H1 & H2).
  - exists d. split; [|now symmetry].
    now rewrite <- (sort_perm (compareDeals (sortBy s) (sortOrder s))).
  - exists d. split; [now symmetry|].
    now rewrite (sort_perm (compareDeals (sortBy s) (sortOrder s))).
Qed.

Lemma export_after_select_all_witness :
  selectedDealObjects (handleSelectAll true (stagedView ["A"])) = filteredDeals (stagedView ["A"]).
Proof.
  apply (export_after_select_all (stagedView ["A"])).
  apply (bool_decide_unpack _). vm_compute. exact I.
Defined.

(** ** Filters *)

Lemma truthy_str_false (t : string) : Js.truthy_str t = false ↔ t = "".
Proof. destruct t; cbn; split; congruence. Qed.

Lemma getActiveFiltersCount_zero (f : AdvancedFilterState) :
  getActiveFiltersCount f <= 0 ↔
  stages f = [] ∧ regions f = [] ∧ leadOwners f = [] ∧ priorities f = []
  ∧ probabilities f = [] ∧ handoffStatuses f = [] ∧ filterSearchTerm f = ""
  ∧ fst (probabilityRange f) <= 0 ∧ 100 <= snd (probabilityRange f).
Proof.
  unfold getActiveFiltersCount.
  destruct f as [st rg lo pr pb hs term [lo' hi']]; cbn [stages regions leadOwners priorities
    probabilities handoffStatuses filterSearchTerm probabilityRange fst snd].
  destruct (Z.ltb_spec 0 lo'), (Z.ltb_spec hi' 100);
    destruct st, rg, lo, pr, pb, hs, term; cbn;
    (split; [intros Hcount; try lia; repeat split; (reflexivity || lia)
            |intros (?&?&?&?&?&?&?&?&?); try discriminate; lia]).
Qed.

Lemma matchesSearch_no_term (s : ViewState) (d : Deal) :
  searchTerm s = "" → filterSearchTerm (filters s) = "" → matchesSearch s d = true.
Proof.
  intros H1 H2. unfold matchesSearch, allSearchTerms. rewrite H1, H2. reflexivity.
Qed.

(** X12: when the view shows no active filter (the count of the advanced
    filter is 0 and the search box is empty) and the lead-owner selection
    is "all", every record whose probability, taken as 0 when missing, lies
    in 0..100 is in the filtered list. *)
Theorem no_active_filter_hides_nothing (s : ViewState) (d : Deal) :
  hasActiveFilters s = false → leadOwnerFilter s = "all" →
  0 <= or_zero (probability d) <= 100 →
  dealPasses s d = true.
Proof.
  unfold hasActiveFilters. intros Hno Hall Hp.
  apply orb_false_elim in Hno as [Hcount Hterm].
  apply Z.ltb_ge, getActiveFiltersCount_zero in Hcount
    as (Hs & Hr & Ho & Hpr & Hpb & Hh & Hft & Hlo & Hhi).
  apply truthy_str_false in Hterm.
  unfold dealPasses.
  rewrite (matchesSearch_no_term s d Hterm Hft).
  rewrite !empty_allowed_matches by assumption.
  unfold matchesLeadOwnerDropdown, matchesProbabilityRange. rewrite Hall. cbn [String.eqb orb andb].
  apply andb_true_iff. split; [reflexivity|].
  apply andb_true_iff. rewrite !Z.leb_le. lia.
Qed.

Lemma no_active_filter_hides_nothing_witness :
  dealPasses view30 (probableDeal "x" None) = true.
Proof.
  apply (no_active_filter_hides_nothing view30 (probableDeal "x" None));
    [reflexivity | reflexivity | cbn; lia].
Defined.

(** X13: Clear All empties the advanced filter and the search box and
    goes back to page 1, but leaves the lead-owner selection as it is:
    afterwards the list holds the records that pass the lead-owner
    selection and whose probability, taken as 0 when missing, lies in
    0..100, and no filter counts as active. *)
Theorem clear_all_keeps_the_owner_selection (s : ViewState) :
  let s' := step s ClearAllFilters in
  hasActiveFilters s' = false
  ∧ currentPage s' = 1
  ∧ leadOwnerFilter s' = leadOwnerFilter s
  ∧ filteredDeals s'
    = List.filter
        (fun d => matchesLeadOwnerDropdown s d
                  && ((0 <=? or_zero (probability d)) && (or_zero (probability d) <=? 100)))
        (deals s).
Proof.
  cbv zeta. unfold step. cbn [handle replacesFilters resetPageEffect orb].
  unfold clearAllFilters.
  split; [destruct s; reflexivity|]. split; [destruct s; reflexivity|].
  split; [destruct s; reflexivity|].
  unfold filteredDeals.
  replace (deals (setCurrentPage 1 (setSearchTerm "" (setFilters clearedFilters s))))
    with (deals s) by (destruct s; reflexivity).
  apply List.filter_ext. intros d. destruct s.
  unfold dealPasses, matchesDimension, matchesProbabilityRange, matchesLeadOwnerDropdown.
  cbn. rewrite ?andb_true_r. reflexivity.
Qed.

(** ** Free-text search *)

Lemma toLowerCase_app (a b : string) :
  Js.toLowerCase (a ++ b) = Js.toLowerCase a ++ Js.toLowerCase b.
Proof.
  induction a as [|c a IH]; [reflexivity|].
  change (String (Js.lower_ascii c) (Js.toLowerCase (a ++ b))
          = String (Js.lower_ascii c) (Js.toLowerCase a ++ Js.toLowerCase b)).
  now rewrite IH.
Qed.

Lemma toLowerCase_truthy (a : string) :
  Js.truthy_str (Js.toLowerCase a) = Js.truthy_str a.
Proof. destruct a; reflexivity. Qed.

Lemma truthy_app (a b : string) :
  Js.truthy_str a = true → Js.truthy_str (a ++ b) = true.
Proof. destruct a; [discriminate | reflexivity]. Qed.

(** The combined term, by which of the two inputs are filled in. *)
Lemma allSearchTerms_cases (s : ViewState) :
  allSearchTerms s
  = match Js.truthy_str (searchTerm s), Js.truthy_str (filterSearchTerm (filters s)) with
    | true, true =>
        Js.toLowerCase (searchTerm s) ++ " " ++ Js.toLowerCase (filterSearchTerm (filters s))
    | true, false => Js.toLowerCase (searchTerm s)
    | false, true => Js.toLowerCase (filterSearchTerm (filters s))
    | false, false => ""
    end.
Proof.
  unfold allSearchTerms. cbn [List.filter].
  destruct (Js.truthy_str (searchTerm s)), (Js.truthy_str (filterSearchTerm (filters s)));
    cbn [Js.join String.concat]; try reflexivity.
  now rewrite !toLowerCase_app.
Qed.

(** X14: the search does not look at the case of what is typed, however
    the engine folds letters: for a lower-casing that keeps the empty
    string apart and maps over two texts joined by a space (as
    toLowerCase does, and as its ASCII part does), two search-box texts
    with the same lower-case form give the same combined term and the same
    filtered list; and with the ASCII folding the list is the one of the
    view. *)
Theorem search_ignores_term_case
    (toLowerCase : string → string) (s : ViewState) (typed : string) :
  (∀ a, Js.truthy_str (toLowerCase a) = Js.truthy_str a) →
  (∀ a b, toLowerCase (a ++ " " ++ b) = toLowerCase a ++ " " ++ toLowerCase b) →
  toLowerCase typed = toLowerCase (searchTerm s) →
  Folded.allSearchTerms toLowerCase (setSearchTerm typed s)
  = Folded.allSearchTerms toLowerCase s
  ∧ Folded.filteredDeals toLowerCase (setSearchTerm typed s)
    = Folded.filteredDeals toLowerCase s
  ∧ Folded.filteredDeals Js.toLowerCase s = filteredDeals s.
Proof.
  intros Htruthy Hjoin Hlow.
  assert (Hempty : Js.truthy_str typed = Js.truthy_str (searchTerm s))
    by (rewrite <- (Htruthy typed), <- (Htruthy (searchTerm s)), Hlow; reflexivity).
  assert (Hall : Folded.allSearchTerms toLowerCase (setSearchTerm typed s)
                 = Folded.allSearchTerms toLowerCase s).
  { unfold Folded.allSearchTerms.
    replace (searchTerm (setSearchTerm typed s)) with typed by (destruct s; reflexivity).
    replace (filters (setSearchTerm typed s)) with (filters s) by (destruct s; reflexivity).
    cbn [List.filter]. rewrite Hempty.
    destruct (Js.truthy_str (searchTerm s)),
      (Js.truthy_str (filterSearchTerm (filters s)));
      cbn [Js.join String.concat]; rewrite ?Hjoin, ?Hlow; reflexivity. }
  split; [exact Hall|]. split; [|reflexivity].
  unfold Folded.filteredDeals.
  replace (deals (setSearchTerm typed s)) with (deals s) by (destruct s; reflexivity).
  apply List.filter_ext. intros d.
  unfold Folded.dealPasses, Folded.matchesSearch. rewrite Hall.
  destruct s; reflexivity.
Qed.

Lemma search_ignores_term_case_witness :
  filteredDeals (setSearchTerm "ACME" (setSearchTerm "acme" view30))
  = filteredDeals (setSearchTerm "acme" view30).
Proof.
  destruct (search_ignores_term_case Js.toLowerCase (setSearchTerm "acme" view30) "ACME")
    as (_ & Hsame & _).
  - apply toLowerCase_truthy.
  - intros a b. now rewrite !toLowerCase_app.
  - reflexivity.
  - exact Hsame.
Defined.

(** X15: with both search inputs empty every record passes the text test;
    as soon as one of them is filled in, a record that has none of the
    five searched fields (deal name, project, lead, customer, region)
    fails it and is not in the filtered list. *)
Theorem search_needs_a_text_field (s : ViewState) (d : Deal) :
  (searchTerm s = "" → filterSearchTerm (filters s) = "" → matchesSearch s d = true)
  ∧ (searchTerm s ≠ "" ∨ filterSearchTerm (filters s) ≠ "" →
     deal_name d = None → project_name d = None → lead_name d = None →
     customer_name d = None → region d = None →
     matchesSearch s d = false ∧ dealPasses s d = false).
Proof.
  split; [apply matchesSearch_no_term|].
  intros Hterm H1 H2 H3 H4 H5.
  assert (Ht : Js.truthy_str (allSearchTerms s) = true).
  { rewrite allSearchTerms_cases.
    destruct (Js.truthy_str (searchTerm s)) eqn:Ea,
             (Js.truthy_str (filterSearchTerm (filters s))) eqn:Eb.
    - apply truthy_app. now rewrite toLowerCase_truthy.
    - now rewrite toLowerCase_truthy.
    - now rewrite toLowerCase_truthy.
    - apply truthy_str_false in Ea, Eb. tauto. }
  assert (Hm : matchesSearch s d = false).
  { unfold matchesSearch. rewrite Ht, H1, H2, H3, H4, H5. reflexivity. }
  split; [exact Hm|]. unfold dealPasses. now rewrite Hm.
Qed.

Lemma search_needs_a_text_field_witness :
  dealPasses (setSearchTerm "acme" view30) (blankDeal "d1") = false.
Proof.
  apply (search_needs_a_text_field (setSearchTerm "acme" view30) (blankDeal "d1"));
    [left; discriminate | reflexivity..].
Defined.

(** ** The options offered by the advanced filter *)

Lemma arr_includes_In (arr : list string) (x : string) :
  Js.arr_includes arr x = true ↔ In x arr.
Proof.
  induction arr as [|y r IH]; cbn; [split; [discriminate | tauto]|].
  rewrite orb_true_iff, String.eqb_eq, IH. tauto.
Qed.

Lemma arr_includes_not_In (arr : list string) (x : string) :
  Js.arr_includes arr x = false ↔ ¬ In x arr.
Proof.
  rewrite <- arr_includes_In. destruct (Js.arr_includes arr x); split; congruence.
Qed.

Lemma uniqueAfter_In (seen arr : list string) (x : string) :
  In x (uniqueAfter seen arr) ↔ In x arr ∧ ¬ In x seen.
Proof.
  revert seen. induction arr as [|y r IH]; intros seen; cbn; [tauto|].
  destruct (Js.arr_includes seen y) eqn:Hy.
  - apply arr_includes_In in Hy. rewrite IH. split; [tauto|].
    intros [[->|?] ?]; tauto.
  - apply arr_includes_not_In in Hy. cbn. rewrite IH. cbn. split.
    + intros [->|[? ?]]; tauto.
    + intros [[->|?] ?]; [tauto|].
      destruct (String.eqb_spec y x); [tauto|]. right. tauto.
Qed.

Lemma uniqueAfter_NoDup (seen arr : list string) : List.NoDup (uniqueAfter seen arr).
Proof.
  revert seen. induction arr as [|y r IH]; intros seen; cbn; [constructor|].
  destruct (Js.arr_includes seen y); [apply IH|].
  constructor; [|apply IH]. rewrite uniqueAfter_In. cbn. tauto.
Qed.

Lemma unique_In (arr : list string) (x : string) : In x (unique arr) ↔ In x arr.
Proof. unfold unique. rewrite uniqueAfter_In. cbn. tauto. Qed.

Lemma truthyStrings_In (arr : list (option string)) (v : string) :
  In v (truthyStrings arr) ↔ In (Some v) arr ∧ v ≠ "".
Proof.
  induction arr as [|[w|] r IH]; cbn.
  - tauto.
  - destruct w as [|c w]; cbn.
    + rewrite IH. split; [tauto|]. intros [[E|?] ?]; [congruence | tauto].
    + rewrite IH. split.
      * intros [<-|[? ?]]; [split; [now left | discriminate] | tauto].
      * intros [[E|?] ?]; [left; congruence | tauto].
  - rewrite IH. split; [tauto|]. intros [[E|?] ?]; [discriminate | tauto].
Qed.

Lemma definedStrings_In (arr : list string) (v : string) :
  In v (definedStrings arr) ↔ In v arr ∧ v ≠ "undefined".
Proof.
  unfold definedStrings. rewrite List.filter_In, negb_true_iff, String.eqb_neq. tauto.
Qed.

Lemma pretty_N_go_length (x : N) (acc : string) :
  (String.length acc <= String.length (pretty_N_go x acc))%nat.
Proof.
  revert acc. induction (N.lt_wf_0 x) as [x _ IH]. intros acc.
  destruct (N.eq_dec x 0%N) as [->|Hx]; [now rewrite pretty_N_go_0|].
  rewrite pretty_N_go_step by lia.
  etransitivity; [|apply IH; apply N.div_lt; lia]. cbn. lia.
Qed.

Lemma String_of_num_not_empty (n : Z) : Js.String_of_num n ≠ "".
Proof.
  assert (Hpos : ∀ p : positive, pretty p ≠ "").
  { intros p E. unfold pretty, pretty_positive, pretty, pretty_N in E.
    destruct (decide (N.pos p = 0%N)) as [?|_]; [lia|].
    pose proof (pretty_N_go_length (N.pos p `div` 10)
                  (String (pretty_N_char (N.pos p `mod` 10)) "")) as Hlen.
    rewrite <- pretty_N_go_step in Hlen by lia. rewrite E in Hlen. cbn in Hlen. lia. }
  unfold Js.String_of_num, pretty, pretty_Z.
  destruct n as [|p|p]; [discriminate | apply Hpos | discriminate].
Qed.

Lemma String_of_num_zero (n : Z) : Js.String_of_num n = "0" → n = 0.
Proof. intros E. now apply (inj (pretty : Z → string)). Qed.

Lemma num_or_empty_not_zero (x : option Z) : num_or_empty x ≠ "0".
Proof.
  destruct x as [v|]; cbn; [|discriminate].
  destruct (Z.eqb_spec v 0); [discriminate|].
  intros E. now apply String_of_num_zero in E.
Qed.

(** Where each list of options comes from. *)
Lemma availableFor_In (dim : Dimension) (ds : list Deal) (opts : list string) (v : string) :
  availableFor dim ds = Some opts → In v opts →
  v ≠ "" ∧ ∃ d, In d ds ∧ (v ≠ "0" → dimValue dim d = v).
Proof.
  destruct dim; cbn; intros [= <-] Hv;
    unfold availableRegions, availableLeadOwners, availablePriorities,
      availableProbabilities, availableHandoffStatuses in Hv;
    rewrite unique_In in Hv.
  1,2,5: rewrite truthyStrings_In, in_map_iff in Hv;
         destruct Hv as [(d & Hd & Hin) Hne]; split; [exact Hne|];
         exists d; split; [exact Hin|]; intros _; now rewrite Hd.
  all: rewrite definedStrings_In, in_map_iff in Hv;
       destruct Hv as [(d & Hd & Hin) Hdef].
  - destruct (priority d) as [n|] eqn:Hp; cbn in Hd; [|congruence]. subst v.
    split; [apply String_of_num_not_empty|]. exists d. split; [exact Hin|].
    intros H0. rewrite Hp. cbn. destruct (Z.eqb_spec n 0) as [->|]; [|reflexivity].
    now destruct H0.
  - destruct (probability d) as [n|] eqn:Hp; cbn in Hd; [|congruence]. subst v.
    split; [apply String_of_num_not_empty|]. exists d. split; [exact Hin|].
    intros H0. rewrite Hp. cbn. destruct (Z.eqb_spec n 0) as [->|]; [|reflexivity].
    now destruct H0.
Qed.

Lemma lacksValue_dimValue (dim : Dimension) (d : Deal) :
  lacksValue dim d → dimValue dim d = "".
Proof.
  destruct dim; cbn; try (intros [-> | ->]; reflexivity). auto.
Qed.

(** X16: a record with nothing to show to a dimension (the field missing
    or empty, or a priority or probability of 0) is excluded as soon as
    that dimension's allowed-set is not empty and is made of offered
    options: no offered option is the empty string. *)
Theorem missing_value_fails_every_choice
    (dim : Dimension) (f : AdvancedFilterState) (ds : list Deal) (opts : list string)
    (d : Deal) :
  lacksValue dim d → availableFor dim ds = Some opts →
  allowed dim f ≠ [] → (∀ v, In v (allowed dim f) → In v opts) →
  matchesDimension dim f d = false.
Proof.
  intros Hlack Hopts Hne Hsub. unfold matchesDimension.
  rewrite (lacksValue_dimValue dim d Hlack).
  destruct (allowed dim f) as [|v r] eqn:Ha; [congruence|]. cbn [length Nat.eqb orb].
  rewrite <- Ha in *. apply arr_includes_not_In. intros Hin.
  now destruct (availableFor_In dim ds opts "" Hopts (Hsub "" Hin)) as [Hempty _].
Qed.

Lemma missing_value_fails_every_choice_witness :
  matchesDimension DimRegion (regionFilter ["EU"]) (regionDeal "r2" None) = false.
Proof.
  apply (missing_value_fails_every_choice DimRegion (regionFilter ["EU"])
           [regionDeal "r1" (Some "EU"); regionDeal "r2" None] ["EU"]).
  - left. reflexivity.
  - reflexivity.
  - discriminate.
  - intros v Hv. exact Hv.
Defined.

(** X17: the option "0" is offered for the probability (and priority)
    filter whenever a record has probability (priority) 0, but a filter
    whose allowed-set is just "0" lets no record through: a record with
    the value 0 is compared as the empty string. *)
Theorem zero_option_selects_nothing (s : ViewState) (d0 d : Deal) :
  (In d0 (deals s) → probability d0 = Some 0 → In "0" (availableProbabilities (deals s)))
  ∧ (In d0 (deals s) → priority d0 = Some 0 → In "0" (availablePriorities (deals s)))
  ∧ (probabilities (filters s) = ["0"] → dealPasses s d = false)
  ∧ (priorities (filters s) = ["0"] → dealPasses s d = false).
Proof.
  assert (Hno : ∀ x, Js.arr_includes ["0"] (num_or_empty x) = false).
  { intros x. apply arr_includes_not_In. intros [E|[]].
    now apply (num_or_empty_not_zero x). }
  split; [|split; [|split]].
  - intros Hin Hp. unfold availableProbabilities.
    rewrite unique_In, definedStrings_In, in_map_iff. split; [|discriminate].
    exists d0. rewrite Hp. split; [reflexivity | exact Hin].
  - intros Hin Hp. unfold availablePriorities.
    rewrite unique_In, definedStrings_In, in_map_iff. split; [|discriminate].
    exists d0. rewrite Hp. split; [reflexivity | exact Hin].
  - intros Hf. unfold dealPasses.
    assert (Hm : matchesDimension DimProbability (filters s) d = false).
    { unfold matchesDimension. cbn [allowed dimValue]. rewrite Hf. apply Hno. }
    rewrite Hm. now rewrite !andb_false_r.
  - intros Hf. unfold dealPasses.
    assert (Hm : matchesDimension DimPriority (filters s) d = false).
    { unfold matchesDimension. cbn [allowed dimValue]. rewrite Hf. apply Hno. }
    rewrite Hm. now rewrite !andb_false_r.
Qed.

Lemma zero_option_selects_nothing_witness :
  In "0" (availableProbabilities [probableDeal "p" (Some 0)])
  ∧ dealPasses (setFilters {| stages := []; regions := []; leadOwners := [];
                              priorities := []; probabilities := ["0"];
                              handoffStatuses := []; filterSearchTerm := "";
                              probabilityRange := (0, 100) |}
                  (initialView [probableDeal "p" (Some 0)] NoItem))
               (probableDeal "p" (Some 0)) = false.
Proof.
  pose proof (zero_option_selects_nothing
                (setFilters {| stages := []; regions := []; leadOwners := [];
                               priorities := []; probabilities := ["0"];
                               handoffStatuses := []; filterSearchTerm := "";
                               probabilityRange := (0, 100) |}
                   (initialView [probableDeal "p" (Some 0)] NoItem))
                (probableDeal "p" (Some 0)) (probableDeal "p" (Some 0)))
    as (Hoffer & _ & Hnone & _).
  split; [apply Hoffer; [left; reflexivity | reflexivity] | apply Hnone; reflexivity].
Defined.

(** X18: the options offered for a dimension hold no duplicate; and for
    the three text dimensions (region, lead owner, handoff status) every
    offered option is a non-empty value of some record of the collection,
    which passes the dimension's test when that option is chosen alone, so
    that the filtered list of a view with only this choice made is not
    empty. *)
Theorem offered_option_matches_a_record
    (dim : Dimension) (f : AdvancedFilterState) (ds : list Deal) (opts : list string)
    (v : string) :
  availableFor dim ds = Some opts →
  List.NoDup opts
  ∧ (dim = DimRegion ∨ dim = DimLeadOwner ∨ dim = DimHandoff →
     In v opts → allowed dim f = [v] →
     v ≠ ""
     ∧ ∃ d, In d ds ∧ dimValue dim d = v ∧ matchesDimension dim f d = true).
Proof.
  intros Hopts. split.
  - destruct dim; cbn in Hopts; inversion Hopts; apply uniqueAfter_NoDup.
  - intros Hdim Hv Hf.
    assert (Hval : v ≠ "" ∧ ∃ d, In d ds ∧ dimValue dim d = v).
    { destruct Hdim as [-> | [-> | ->]]; cbn in Hopts; injection Hopts as <-;
        unfold availableRegions, availableLeadOwners, availableHandoffStatuses in Hv;
        rewrite unique_In, truthyStrings_In, in_map_iff in Hv;
        destruct Hv as [(d & Hd & Hin) Hne]; (split; [exact Hne|]);
        exists d; (split; [exact Hin|]); cbn; now rewrite Hd. }
    destruct Hval as (Hne & d & Hd & Hval).
    split; [exact Hne|]. exists d. split; [exact Hd|]. split; [exact Hval|].
    unfold matchesDimension. rewrite Hf, Hval. cbn.
    now rewrite String.eqb_refl.
Qed.

Lemma offered_option_matches_a_record_witness :
  availableRegions [regionDeal "r1" (Some "EU"); regionDeal "r2" (Some "EU")] = ["EU"]
  ∧ ∃ d, In d [regionDeal "r1" (Some "EU"); regionDeal "r2" (Some "EU")]
         ∧ dimValue DimRegion d = "EU"
         ∧ matchesDimension DimRegion (regionFilter ["EU"]) d = true.
Proof.
  split; [reflexivity|].
  apply (offered_option_matches_a_record DimRegion (regionFilter ["EU"])
           [regionDeal "r1" (Some "EU"); regionDeal "r2" (Some "EU")] ["EU"] "EU"
           eq_refl).
  - left. reflexivity.
  - left. reflexivity.
  - reflexivity.
Defined.

(** ** Saving and restoring the filters *)

(** X19: the save effect stores the advanced filter with its own search
    term replaced by the text of the search box, and the load effect puts
    the stored term into both.  After a reload the advanced filter is
    restored except for that term, and a non-empty search text t is
    searched as "t t": a record is found only if it contains the text
    twice in a row, a space between. *)
Theorem reload_doubles_the_search_text (s fresh : ViewState) :
  let s' := loadFilters (saveFilters s) fresh in
  searchTerm s' = searchTerm s
  ∧ filters s' = filtersWithSearch s
  ∧ filterSearchTerm (filters s') = searchTerm s
  ∧ (searchTerm s ≠ "" →
     allSearchTerms s'
     = Js.toLowerCase (searchTerm s) ++ " " ++ Js.toLowerCase (searchTerm s)).
Proof.
  cbv zeta. unfold saveFilters, loadFilters.
  split; [destruct fresh; reflexivity|]. split; [destruct fresh; reflexivity|].
  split; [destruct fresh; reflexivity|].
  intros Hne. rewrite allSearchTerms_cases.
  replace (searchTerm (setSearchTerm (filterSearchTerm (filtersWithSearch s))
                         (setFilters (filtersWithSearch s) fresh)))
    with (searchTerm s) by (destruct fresh; reflexivity).
  replace (filters (setSearchTerm (filterSearchTerm (filtersWithSearch s))
                      (setFilters (filtersWithSearch s) fresh)))
    with (filtersWithSearch s) by (destruct fresh; reflexivity).
  cbn [filterSearchTerm filtersWithSearch].
  destruct (searchTerm s); [congruence | reflexivity].
Qed.

Lemma reload_doubles_the_search_text_witness :
  dealPasses (setSearchTerm "acme" (initialView [namedDeal "n1" "Acme GmbH"] NoItem))
    (namedDeal "n1" "Acme GmbH") = true
  ∧ allSearchTerms
      (loadFilters
         (saveFilters (setSearchTerm "acme" (initialView [namedDeal "n1" "Acme GmbH"] NoItem)))
         (initialView [namedDeal "n1" "Acme GmbH"] NoItem))
    = "acme acme"
  ∧ dealPasses
      (loadFilters
         (saveFilters (setSearchTerm "acme" (initialView [namedDeal "n1" "Acme GmbH"] NoItem)))
         (initialView [namedDeal "n1" "Acme GmbH"] NoItem))
      (namedDeal "n1" "Acme GmbH") = false.
Proof.
  split; [vm_compute; reflexivity|]. split; [|vm_compute; reflexivity].
  apply (reload_doubles_the_search_text
           (setSearchTerm "acme" (initialView [namedDeal "n1" "Acme GmbH"] NoItem))
           (initialView [namedDeal "n1" "Acme GmbH"] NoItem)).
  discriminate.
Defined.

(** ** Columns *)

(** X20: the visible columns are exactly the descriptors marked visible,
    each once, listed by ascending order number; descriptors with the same
    order number keep the order of the configuration. *)
Theorem visible_columns_in_order (columns : list DealColumnConfig) (k : Z) :
  Forall (fun c => visible c = true) (visibleColumns columns)
  ∧ Permutation (visibleColumns columns) (List.filter visible columns)
  ∧ StronglySorted (fun a b => order a <= order b) (visibleColumns columns)
  ∧ List.filter (fun c => order c =? k) (visibleColumns columns)
    = List.filter (fun c => order c =? k) (List.filter visible columns).
Proof.
  unfold visibleColumns. split; [|split; [|split]].
  - apply sort_Forall. apply Forall_forall. intros c Hc.
    apply list_elem_of_In, List.filter_In in Hc. tauto.
  - apply sort_perm.
  - apply (StronglySorted_weaken (fun a b => compareColumns a b <= 0)).
    { unfold compareColumns. intros a b. lia. }
    apply (sort_ordered compareColumns (fun _ => True)).
    + unfold compareColumns. intros a b _ _. lia.
    + unfold compareColumns. intros a b c _ _ _. lia.
    + apply Forall_forall. auto.
  - apply sort_filter. unfold compareColumns. intros a b Ha Hb.
    apply Z.eqb_eq in Ha, Hb. lia.
Qed.

Example visible_columns_initially :
  map field (visibleColumns initialColumns)
  = ["project_name"; "customer_name"; "lead_name"; "stage"; "priority";
     "total_contract_value"; "probability"; "expected_closing_date"; "lead_owner"].
Proof. reflexivity. Qed.

(** X21: the editor a column opens agrees with the way the column sorts: a
    column edited as a date sorts by time value, a column edited as a
    number, a currency amount or a priority sorts as a number, and any
    other column sorts as lower-cased text, except created_at and
    modified_at, which are not edited as dates and yet sort by time
    value. *)
Theorem editor_type_agrees_with_sort (key : string) (d : Deal) :
  match getFieldType key with
  | TDate => sortValue key d = SDate (newDate (dateField key d))
  | TNumber | TCurrency | TPriority => sortValue key d = SNum (or_zero (numField key d))
  | _ =>
      if String.eqb key "created_at" || String.eqb key "modified_at"
      then sortValue key d = SDate (newDate (dateField key d))
      else sortValue key d = SStr (Js.toLowerCase (or_empty (textField key d)))
  end.
Proof.
  unfold getFieldType, sortValue, numericKeys, currencyKeys, dateKeys.
  cbn [Js.arr_includes].
  repeat match goal with
         | |- context [String.eqb ?a key] =>
             rewrite (String.eqb_sym a key)
         end.
  repeat match goal with
         | |- context [String.eqb key ?a] =>
             destruct (String.eqb_spec key a) as [->|?]; cbn; auto
         end.
Qed.

(** ** Sorting by a header click *)

(** X22: a click on a column header only reorders: the list shown holds
    the same records as before; the clicked column becomes the sort field,
    descending when it was not the sort field before; and two clicks on
    the column that is the sort field bring back the state before them. *)
Theorem header_click_only_reorders (s : ViewState) (column : string) :
  Permutation (filteredAndSortedDeals (step s (ClickHeader column)))
              (filteredAndSortedDeals s)
  ∧ sortBy (step s (ClickHeader column)) = column
  ∧ (sortBy s ≠ column → sortOrder (step s (ClickHeader column)) = desc)
  ∧ (sortBy s = column →
     step (step s (ClickHeader column)) (ClickHeader column) = s).
Proof.
  assert (Hstep : step s (ClickHeader column) = clickHeader column s).
  { unfold step, resetPageEffect. cbn [handle replacesFilters orb].
    unfold clickHeader. destruct (String.eqb (sortBy s) column);
      destruct s; cbn; rewrite !String.eqb_refl; reflexivity. }
  split; [|split; [|split]].
  - unfold filteredAndSortedDeals. rewrite !sort_perm.
    rewrite (filteredDeals_ext s (step s (ClickHeader column))); [reflexivity|..];
      rewrite Hstep; unfold clickHeader;
      destruct (String.eqb (sortBy s) column); destruct s; reflexivity.
  - rewrite Hstep. unfold clickHeader.
    destruct (String.eqb_spec (sortBy s) column); destruct s; cbn in *; congruence.
  - intros Hne. rewrite Hstep. unfold clickHeader.
    destruct (String.eqb_spec (sortBy s) column); [congruence|]. destruct s; reflexivity.
  - intros <-. rewrite Hstep.
    unfold step, resetPageEffect. cbn [handle replacesFilters orb].
    unfold clickHeader. rewrite String.eqb_refl.
    destruct s as [? ? ? ? sb so ? ? ? ? ? ? ? ? ? ?]; cbn.
    rewrite !String.eqb_refl. cbn. destruct so; reflexivity.
Qed.

Lemma header_click_only_reorders_witness :
  step (step view30 (ClickHeader "modified_at")) (ClickHeader "modified_at") = view30.
Proof.
  apply (header_click_only_reorders view30 "modified_at"). reflexivity.
Defined.

(** ** The resize gesture as a whole *)

Lemma step_MouseMove (t : ViewState) (f : string) (x : Z) :
  isResizing t = Some f → f ≠ "" →
  step t (MouseMove x)
  = setColumnWidths (<[f := Z.max 80 (startWidth t + (x - startX t))]> (columnWidths t)) t.
Proof.
  intros Hres Hf. unfold step, resetPageEffect. cbn [handle replacesFilters orb].
  unfold handleMouseMove, resizingField. rewrite Hres.
  destruct f; [congruence|]. cbn [Js.truthy_str].
  destruct t; cbn. rewrite !String.eqb_refl. reflexivity.
Qed.

(** During the moves of a gesture the session data stay put and only the
    resized column's width changes. *)
Lemma run_MouseMoves (xs : list Z) (t : ViewState) (f : string) :
  isResizing t = Some f → f ≠ "" →
  let t' := run t (map MouseMove xs) in
  isResizing t' = Some f ∧ startX t' = startX t ∧ startWidth t' = startWidth t
  ∧ (∀ g, g ≠ f → columnWidths t' !! g = columnWidths t !! g).
Proof.
  intros Hres Hf. revert t Hres. induction xs as [|x xs IH]; intros t Hres; cbn.
  - auto.
  - unfold run in *. cbn [map fold_left].
    rewrite (step_MouseMove t f x Hres Hf).
    set (t1 := setColumnWidths _ t).
    assert (H1 : isResizing t1 = Some f) by (subst t1; destruct t; exact Hres).
    destruct (IH t1 H1) as (Ha & Hb & Hc & Hd).
    split; [exact Ha|]. split; [rewrite Hb; subst t1; destruct t; reflexivity|].
    split; [rewrite Hc; subst t1; destruct t; reflexivity|].
    intros g Hg. rewrite (Hd g Hg). subst t1. destruct t; cbn.
    now apply lookup_insert_ne.
Qed.

(** X23: during a resize the width follows the pointer, not its path:
    after a press at x0 on a column and any moves ending at x, the column
    is as wide as max(80, its width at the press + (x - x0)), and the
    other columns are as wide as before. *)
Theorem resize_follows_the_pointer (s : ViewState) (f : string) (x0 x : Z) (xs : list Z) :
  f ≠ "" →
  let s' := run (step s (MouseDown x0 f)) (map MouseMove (xs ++ [x])) in
  widthOf s' f = Z.max 80 (widthOf s f + (x - x0))
  ∧ (∀ g, g ≠ f → columnWidths s' !! g = columnWidths s !! g).
Proof.
  intros Hf. cbv zeta.
  assert (Hdown : step s (MouseDown x0 f) = handleMouseDown x0 f s).
  { unfold step, resetPageEffect. cbn [handle replacesFilters orb].
    destruct s; cbn. rewrite !String.eqb_refl. reflexivity. }
  rewrite Hdown. set (t := handleMouseDown x0 f s).
  assert (Hres : isResizing t = Some f) by (subst t; destruct s; reflexivity).
  assert (Hx : startX t = x0) by (subst t; destruct s; reflexivity).
  assert (Hw : startWidth t = widthOf s f) by (subst t; destruct s; reflexivity).
  assert (Hcw : columnWidths t = columnWidths s) by (subst t; destruct s; reflexivity).
  rewrite map_app. unfold run. rewrite fold_left_app. fold (run t (map MouseMove xs)).
  destruct (run_MouseMoves xs t f Hres Hf) as (Ha & Hb & Hc & Hd).
  set (t' := run t (map MouseMove xs)) in *. cbn [map fold_left].
  rewrite (step_MouseMove t' f x Ha Hf), Hb, Hc, Hx, Hw.
  split.
  - unfold widthOf at 1.
    replace (columnWidths (setColumnWidths
               (<[f:=Z.max 80 (widthOf s f + (x - x0))]> (columnWidths t')) t'))
      with (<[f:=Z.max 80 (widthOf s f + (x - x0))]> (columnWidths t'))
      by (destruct t'; reflexivity).
    rewrite lookup_insert_eq.
    destruct (Z.eqb_spec (Z.max 80 (widthOf s f + (x - x0))) 0); [lia | reflexivity].
  - intros g Hg.
    replace (columnWidths (setColumnWidths
               (<[f:=Z.max 80 (widthOf s f + (x - x0))]> (columnWidths t')) t'))
      with (<[f:=Z.max 80 (widthOf s f + (x - x0))]> (columnWidths t'))
      by (destruct t'; reflexivity).
    rewrite lookup_insert_ne by congruence. rewrite (Hd g Hg). now rewrite Hcw.
Qed.

Lemma resize_follows_the_pointer_witness :
  widthOf (run (step (initialView [] NoItem) (MouseDown 500 "stage"))
             (map MouseMove ([300; 900] ++ [530]))) "stage" = 150.
Proof.
  apply (resize_follows_the_pointer (initialView [] NoItem) "stage" 500 530 [300; 900]).
  discriminate.
Defined.

Lemma step_columnWidths (s : ViewState) (e : Event) :
  columnWidths (step s e) = columnWidths s
  ∨ ∃ f w, 80 <= w ∧ columnWidths (step s e) = <[f := w]> (columnWidths s).
Proof.
  unfold step, resetPageEffect.
  destruct (_ || _ || _); destruct e; cbn;
    unfold clickPrevious, clickNext, clearAllFilters, clickHeader, handleSelectAll,
      handleSelectDeal, handleBulkDelete, handleMouseUp, handleMouseMove;
    repeat match goal with
           | |- context [if ?b then _ else _] => destruct b
           | |- context [match ?b with Some _ => _ | None => _ end] => destruct b
           end;
    cbn; auto;
    right; eexists _, _; (split; [|reflexivity]); lia.
Qed.

(** X24: no event of the view makes a column narrower than 80: if every
    stored width is at least 80, as the default widths are, it is still so
    after any sequence of events. *)
Theorem widths_stay_at_least_80 (s : ViewState) (es : list Event) :
  map_Forall (fun _ w => 80 <= w) (columnWidths s) →
  map_Forall (fun _ w => 80 <= w) (columnWidths (run s es)).
Proof.
  unfold run. revert s. induction es as [|e es IH]; intros s Hs; [exact Hs|].
  cbn [fold_left]. apply IH.
  destruct (step_columnWidths s e) as [-> | (f & w & Hw & ->)]; [exact Hs|].
  now apply map_Forall_insert_2.
Qed.

Lemma widths_stay_at_least_80_witness :
  map_Forall (fun _ w => 80 <= w)
    (columnWidths (run (initialView [] NoItem)
                     [MouseDown 500 "stage"; MouseMove 100; MouseUp])).
Proof.
  apply (widths_stay_at_least_80 (initialView [] NoItem)).
  unfold initialView, defaultColumnWidths. cbn [columnWidths list_to_map foldr].
  repeat (apply map_Forall_insert_2; [cbn; lia|]). apply map_Forall_empty.
Defined.

(** X25: releasing the button ends the gesture: the widths of that moment
    are what is stored, a later load gives them back, and until the next
    press pointer moves and releases change nothing. *)
Theorem release_stores_and_ends (s : ViewState) (f : string) (x : Z) :
  isResizing s = Some f → f ≠ "" →
  let s' := step s MouseUp in
  storedWidths s' = ParsedWidths (columnWidths s)
  ∧ columnWidths s' = columnWidths s
  ∧ columnWidths (loadColumnWidths s') = columnWidths s
  ∧ step s' (MouseMove x) = s'
  ∧ step s' MouseUp = s'.
Proof.
  intros Hres Hf. cbv zeta.
  assert (Hup : step s MouseUp
                = setIsResizing None (setStoredWidths (ParsedWidths (columnWidths s)) s)).
  { unfold step, resetPageEffect. cbn [handle replacesFilters orb].
    unfold handleMouseUp, resizingField. rewrite Hres.
    destruct f; [congruence|]. cbn [Js.truthy_str].
    destruct s; cbn. rewrite !String.eqb_refl. reflexivity. }
  rewrite Hup. clear Hup Hres.
  destruct s as [? st lo ? ? ? ? ? ? ? ? ? ? ? ? ?].
  unfold step, resetPageEffect, handleMouseMove, handleMouseUp, resizingField.
  cbn [handle replacesFilters orb setIsResizing setStoredWidths isResizing searchTerm
       leadOwnerFilter storedWidths columnWidths loadColumnWidths setColumnWidths].
  rewrite !String.eqb_refl. cbn [negb orb]. auto.
Qed.

Lemma release_stores_and_ends_witness :
  storedWidths (step resizingView MouseUp) = ParsedWidths (columnWidths resizingView).
Proof.
  apply (release_stores_and_ends resizingView "stage" 0); [reflexivity | discriminate].
Defined.

(** * The calculator keypad *)

Lemma append_cons (c : ascii) (r t : string) : String c r ++ t = String c (r ++ t).
Proof. reflexivity. Qed.

Lemma append_nil (t : string) : "" ++ t = t.
Proof. reflexivity. Qed.

Lemma points_app (s t : string) : points (s ++ t) = (points s + points t)%nat.
Proof.
  induction s as [|c r IH]; [reflexivity|].
  rewrite append_cons. cbn [points]. rewrite IH. now destruct (isPoint c).
Qed.

Lemma digitsAndPoints_app (s t : string) :
  digitsAndPoints (s ++ t) = digitsAndPoints s && digitsAndPoints t.
Proof.
  induction s as [|c r IH]; [reflexivity|].
  rewrite append_cons. cbn [digitsAndPoints]. rewrite IH. now rewrite andb_assoc.
Qed.

Lemma prefix_empty (s : string) : String.prefix "" s = true.
Proof. now destruct s. Qed.

Lemma includes_point (s : string) : Js.str_includes s "." = Nat.ltb 0 (points s).
Proof.
  induction s as [|c r IH]; [reflexivity|].
  cbn [Js.str_includes points String.prefix]. rewrite prefix_empty, IH.
  unfold isPoint. rewrite (Ascii.eqb_sym c ".").
  destruct (Ascii.ascii_dec "." c) as [<-|Hne]; [reflexivity|].
  apply Ascii.eqb_neq in Hne. now rewrite Hne.
Qed.

(** A digit or a point put behind a display that is not ["0"]. *)
Lemma startsWell_app (s t : string) :
  startsWell s = true → s ≠ "0" → t ≠ "" → startsWell (s ++ t) = true.
Proof.
  destruct s as [|c [|c' r]]; cbn [startsWell]; [discriminate| |].
  - intros Hc Hs Ht. destruct t as [|d t]; [congruence|].
    rewrite append_cons, append_nil. cbn [startsWell]. rewrite Hc. cbn [andb].
    destruct (Ascii.eqb_spec c "0") as [->|_]; [congruence | reflexivity].
  - intros Hc _ _. rewrite !append_cons. exact Hc.
Qed.

Lemma digitKeys_numeral (digit : string) : In digit digitKeys → isNumeral digit = true.
Proof.
  cbn. intros H. repeat (destruct H as [<-|H]; [reflexivity|]). destruct H.
Qed.

Lemma digitKeys_shape (digit : string) :
  In digit digitKeys →
  digitsAndPoints digit = true ∧ points digit = 0%nat ∧ digit ≠ "".
Proof.
  cbn. intros H.
  repeat (destruct H as [<-|H]; [repeat split; discriminate|]). destruct H.
Qed.

Lemma isNumeral_parts (s : string) :
  isNumeral s = true ↔
  digitsAndPoints s = true ∧ (points s <= 1)%nat ∧ startsWell s = true.
Proof. unfold isNumeral. rewrite !andb_true_iff, Nat.leb_le. tauto. Qed.

Section KeypadFacts.
Context {Num : Type}.

Lemma press_numeral (st : @CalcState Num) (k : Key) :
  fromKeypad k → isNumeral (display st) = true → isNumeral (display (press st k)) = true.
Proof.
  intros Hk Hn. destruct k as [digit| |]; cbn [press fromKeypad] in *.
  - unfold inputDigit. destruct (waitingForOperand st); cbn [display];
      [now apply digitKeys_numeral|].
    destruct (String.eqb_spec (display st) "0") as [_|Hne]; [now apply digitKeys_numeral|].
    destruct (digitKeys_shape digit Hk) as (Hd & Hp & Hnon).
    apply isNumeral_parts in Hn as (H1 & H2 & H3).
    apply isNumeral_parts. rewrite digitsAndPoints_app, points_app, H1, Hd, Hp.
    split; [reflexivity|]. split; [lia|]. now apply startsWell_app.
  - unfold inputDecimal. destruct (waitingForOperand st); [reflexivity|].
    rewrite includes_point.
    destruct (Nat.ltb_spec 0 (points (display st))) as [_|Hzero]; cbn [negb display];
      [exact Hn|].
    apply isNumeral_parts in Hn as (H1 & H2 & H3).
    apply isNumeral_parts. rewrite digitsAndPoints_app, points_app, H1.
    split; [reflexivity|]. split; [cbn; lia|].
    destruct (display st) as [|c [|c' r]]; cbn [startsWell] in *; [discriminate| |].
    + rewrite append_cons, append_nil. cbn [startsWell]. rewrite H3.
      now rewrite orb_true_r.
    + rewrite !append_cons. exact H3.
  - reflexivity.
Qed.

End KeypadFacts.

(** X26: whatever is typed on the digit buttons, the decimal point and AC,
    a display that reads as a decimal numeral still does afterwards: only
    digits and at most one point, a digit first, no zero in front of
    another digit.  The initial display "0" is such a numeral. *)
Theorem keypad_types_a_numeral {Num : Type} (st : @CalcState Num) (keys : list Key) :
  Forall fromKeypad keys → isNumeral (display st) = true →
  isNumeral (display (typed st keys)) = true.
Proof.
  unfold typed. revert st. induction keys as [|k keys IH]; intros st Hkeys Hn; [exact Hn|].
  inversion Hkeys as [|k' keys' Hk Hrest]; subst.
  cbn [fold_left]. apply IH; [exact Hrest|]. now apply press_numeral.
Qed.

Lemma keypad_types_a_numeral_witness :
  display (typed (mkCalc (Num := Z) "0" None None false)
             [KeyDigit "0"; KeyDecimal; KeyDigit "5"; KeyDecimal; KeyDigit "0"]) = "0.50"
  ∧ isNumeral (display (typed (mkCalc (Num := Z) "0" None None false)
                          [KeyDigit "0"; KeyDecimal; KeyDigit "5"; KeyDecimal; KeyDigit "0"]))
    = true.
Proof.
  split; [reflexivity|].
  apply (keypad_types_a_numeral (mkCalc (Num := Z) "0" None None false)); [|reflexivity].
  repeat constructor; cbn; tauto.
Defined.

(** * The task notification function *)

Example handler_sends :
  handler plainHtml sampleRequest (sampleWorld None)
  = ([ConsoleLog "Processing task notification: task_assigned for task t1 to user u1";
      SelectProfile "u1"; SelectPreferences "u1";
      TokenRequest "tenant" "client" "secret";
      SendMail "token" "crm@example.com" "bo@example.com" "Bo"
        "📋 New Task Assigned: Call back" "Call back";
      ConsoleLog "Task notification email sent successfully to bo@example.com"],
     jsonResponse 200 (ResultBody true "Notification email sent")).
Proof. reflexivity. Qed.

Example handler_respects_opt_out :
  handler plainHtml sampleRequest
    (sampleWorld (Some {| email_notifications := Some true; task_reminders := Some false |}))
  = ([ConsoleLog "Processing task notification: task_assigned for task t1 to user u1";
      SelectProfile "u1"; SelectPreferences "u1";
      ConsoleLog "User u1 has task email notifications disabled"],
     jsonResponse 200 (ResultBody false "User has notifications disabled")).
Proof. reflexivity. Qed.

Section HandlerFacts.
Variable html :
  string → string → string → option string → option string → option string →
  option string → option string → string → string.

(** The handler, path by path: [fin] closes the paths that have ended. *)
Ltac handler_paths req w fin :=
  unfold handler, hasRequiredFields, recipientOf, senderOf, hasCredentials,
    getAccessToken, sendEmailViaGraph, caught;
  destruct (String.eqb_spec (method req) "OPTIONS") as [Hmethod|Hmethod]; [fin|];
  destruct (jsonBody req) as [r|bodyMsg] eqn:Ebody; [|fin];
  destruct (truthyOpt (taskId r)) as [task|] eqn:Etask; [|fin];
  destruct (truthyOpt (notificationType r)) as [type|] eqn:Etype; [|fin];
  destruct (truthyOpt (recipientUserId r)) as [userId|] eqn:Euser; [|fin];
  destruct (truthyOpt (taskTitle r)) as [title|] eqn:Etitle; [|fin];
  destruct (createClientThrows w) as [clientMsg|] eqn:Eclient; [fin|];
  destruct (profileError w) eqn:Eerror; [fin|];
  destruct (profileData w) as [profile|] eqn:Eprofile; [|fin];
  destruct (truthyOpt (emailId profile)) as [recipient|] eqn:Erecipient; [|fin];
  destruct (optedOut w) eqn:Eopted; [fin|];
  destruct (truthyOpt (env_AZURE_SENDER_EMAIL w)) as [sender|] eqn:Esender;
    [|destruct (adminProfileData w) as [admin|] eqn:Eadmin;
      [destruct (truthyOpt (emailId admin)) as [sender|] eqn:Eadminmail; [|fin]|fin]];
  (destruct (truthyOpt (env_AZURE_EMAIL_TENANT_ID w)) as [tenantId|] eqn:Etenant; [|fin];
   destruct (truthyOpt (env_AZURE_EMAIL_CLIENT_ID w)) as [clientId|] eqn:Eclientid; [|fin];
   destruct (truthyOpt (env_AZURE_EMAIL_CLIENT_SECRET w)) as [clientSecret|] eqn:Esecret;
     [|fin];
   destruct (tokenFetch w) as [token|tokenStatus tokenText|tokenMsg] eqn:Etoken;
     [|fin|fin];
   destruct (sendFetch w) as [sent|sendStatus sendText|sendMsg] eqn:Esend; fin).

Ltac split_members Hin Ha :=
  cbn in Hin;
  repeat (destruct Hin as [<-|Hin]; [try discriminate Ha|]);
  try (now destruct Hin).

(** X27: the handler contacts the token endpoint or the mail API only for
    a POST whose body parses and has the four required fields, after the
    database client was created, for a recipient who was found, has an
    address and has not switched task mails off, with a sender address and
    the three credentials at hand; and a mail it sends goes to that
    recipient, from that sender, with the fetched token and the subject of
    the notification type. *)
Theorem azure_is_contacted_only_to_deliver (req : HttpRequest) (w : World) (a : Action) :
  In a (fst (handler html req w)) → reachesAzure a = true →
  method req ≠ "OPTIONS"
  ∧ ∃ r, jsonBody req = BodyJson r
    ∧ hasRequiredFields r = true
    ∧ createClientThrows w = None
    ∧ optedOut w = false
    ∧ hasCredentials w = true
    ∧ ∃ recipient sender,
        recipientOf w = Some recipient ∧ senderOf w = Some sender
        ∧ match a with
          | SendMail token from to _ subject _ =>
              tokenFetch w = FetchOk token ∧ from = sender ∧ to = recipient
              ∧ ∃ type title,
                  truthyOpt (notificationType r) = Some type
                  ∧ truthyOpt (taskTitle r) = Some title
                  ∧ subject = getEmailSubject type title
          | _ => True
          end.
Proof.
  handler_paths req w
    ltac:(intros Hin Ha; split_members Hin Ha;
          (split; [exact Hmethod|]); exists r; cbn;
          rewrite ?Etask, ?Etype, ?Euser, ?Etitle, ?Eerror, ?Eprofile, ?Erecipient,
            ?Esender, ?Eadmin, ?Eadminmail, ?Etenant, ?Eclientid, ?Esecret;
          repeat (split; [reflexivity|]); eexists _, _; repeat (split; [reflexivity|]);
          try exact I; eauto 10).
Qed.

(** X28: the response reports success exactly when a mail call was made
    and the mail API answered ok; whatever happens, a request causes at
    most one token request and at most one mail call, and no mail call
    without a token request. *)
Theorem success_means_the_mail_went_out (req : HttpRequest) (w : World) :
  ((∃ m, body (snd (handler html req w)) = ResultBody true m)
   ↔ existsb isSendMail (fst (handler html req w)) = true
     ∧ ∃ p, sendFetch w = FetchOk p)
  ∧ (length (List.filter isTokenRequest (fst (handler html req w))) <= 1)%nat
  ∧ (length (List.filter isSendMail (fst (handler html req w))) <= 1)%nat
  ∧ (length (List.filter isSendMail (fst (handler html req w)))
     <= length (List.filter isTokenRequest (fst (handler html req w))))%nat.
Proof.
  handler_paths req w
    ltac:(cbn; split; [|split; [lia | split; lia]];
          split;
          [intros [m Hm]; first [discriminate Hm | split; [reflexivity | eauto]]
          |intros [Hsent [p Hp]];
           first [discriminate Hsent | discriminate Hp | rewrite Hp in *; discriminate
                 | eexists; reflexivity]]).
Qed.

(** X29: the response status is 200, 400, 404 or 500.  It is 400 exactly
    for a request other than OPTIONS whose body parses and lacks a required
    field, and then nothing outside the function was called; it is 404
    exactly when, the fields being there and the database client created,
    the profile lookup fails or finds nobody, and then only that lookup was
    made. *)
Theorem status_tells_the_cause (req : HttpRequest) (w : World) :
  In (status (snd (handler html req w))) [200; 400; 404; 500]
  ∧ (status (snd (handler html req w)) = 400
     ↔ method req ≠ "OPTIONS"
       ∧ ∃ r, jsonBody req = BodyJson r ∧ hasRequiredFields r = false)
  ∧ (status (snd (handler html req w)) = 400
     → List.filter isExternalCall (fst (handler html req w)) = [])
  ∧ (status (snd (handler html req w)) = 404
     ↔ method req ≠ "OPTIONS"
       ∧ ∃ r, jsonBody req = BodyJson r ∧ hasRequiredFields r = true
         ∧ createClientThrows w = None
         ∧ (profileError w = true ∨ profileData w = None))
  ∧ (status (snd (handler html req w)) = 404
     → ∃ userId, List.filter isExternalCall (fst (handler html req w))
                 = [SelectProfile userId]).
Proof.
  handler_paths req w
    ltac:(cbn;
          repeat match goal with
                 | |- _ ∧ _ => split
                 | |- _ ↔ _ => split
                 end;
          try tauto; try reflexivity;
          try (intros Hs; discriminate Hs);
          try (intros [Hm' (r' & Hr' & Hrest)]; first
                 [contradiction
                 |discriminate Hr'
                 |injection Hr' as <-;
                  rewrite ?Etask, ?Etype, ?Euser, ?Etitle in Hrest;
                  first [discriminate Hrest
                        |destruct Hrest as (Hf & Hc & [He|Hp]); congruence
                        |destruct Hrest as (Hf & Hc & Hd); congruence]]);
          try (intros _; split; [assumption|]; eexists; split; [reflexivity|];
               rewrite ?Etask, ?Etype, ?Euser, ?Etitle; auto);
          try (intros _; eexists; reflexivity)).
Qed.
End HandlerFacts.

Lemma azure_is_contacted_only_to_deliver_witness :
  hasRequiredFields sampleTask = true ∧ optedOut (sampleWorld None) = false.
Proof.
  assert (Hin : In (TokenRequest "tenant" "client" "secret")
                  (fst (handler plainHtml sampleRequest (sampleWorld None))))
    by (cbn; tauto).
  destruct (azure_is_contacted_only_to_deliver plainHtml sampleRequest (sampleWorld None)
              (TokenRequest "tenant" "client" "secret") Hin eq_refl)
    as (_ & r & Hr & Hf & _ & Ho & _).
  injection Hr as <-. split; [exact Hf | exact Ho].
Defined.

Lemma success_means_the_mail_went_out_witness :
  ∃ m, body (snd (handler plainHtml sampleRequest (sampleWorld None))) = ResultBody true m.
Proof.
  apply (proj1 (success_means_the_mail_went_out plainHtml sampleRequest (sampleWorld None))).
  split; [reflexivity | eexists; reflexivity].
Defined.

Lemma status_tells_the_cause_witness :
  status (snd (handler plainHtml
                 {| method := "POST";
                    jsonBody := BodyJson (mkTaskRequest (Some "t1") (Some "task_assigned")
                                            (Some "u1") (Some "") None None None None None) |}
                 (sampleWorld None))) = 400.
Proof.
  apply (proj1 (proj2 (status_tells_the_cause plainHtml _ (sampleWorld None)))).
  split; [discriminate | eexists; split; reflexivity].
Defined.
